(** * osm-public-space-mapper: traffic area derivation and undefined space

    A shallow embedding of
      - [data_analysis/analyse_traffic_area.py]  (get_traffic_areas_as_polygons)
      - [data_analysis/get_undefined_space.py]   (load)
      - [data_analysis/export_data.py]           (write_info_to_dict)
    and the properties of these modules.

    Conventions of the embedding.
      - Python objects that are mutated in place ([OsmElement] instances) live
        in a store ([heap]) and are referred to by location; a list of
        elements is a list of locations, so the same object may occur twice.
      - Python floats are finite and exact: rationals ([Q]).  [float(s)] of a
        tag value is a parameter of the development (a builtin, not code of
        the repository) and may fail; [float_decimal] is an instance for
        plain decimal literals.
      - [round(x, 1)] is a parameter too ([PyRound]): it is not continuous,
        and at a decimal tie (5.65) it follows the stored float, which lies
        a little above or below the rational.  [py_round1] is an instance
        for the samples, which are no ties.
      - A raised exception is a value of [exn]; the store survives a raise.
      - shapely geometries are immutable values.  The calls the code makes
        ([buffer], [unary_union], [difference]) are recorded as constructors
        of [geometry], outermost call outermost; they do not fail (the
        geometries are valid).  [covers] reads the boolean operations as
        operations on point sets; it is used to compare two results, not to
        decide whether a boundary point belongs to one.
      - [crop_traffic_areas] is never called by the module; it is modelled
        for its own properties. *)

From Stdlib Require Import QArith Qround Lqa Ascii.
From stdpp Require Import gmap strings list fin_maps.

Set Warnings "-register-all".

(** ** Exceptions and results *)

Inductive exn : Type :=
| ValueError      (* float() of a malformed string *)
| TypeError       (* arithmetic on None, float(None), a non-geometry given to shapely *)
| KeyError        (* d[k] with k missing *)
| IndexError      (* t[i] with i out of range *)
| ReferenceError. (* a location that is not allocated; no Python program has one *)

Inductive result (A : Type) : Type :=
| Ok (a : A)
| Raise (e : exn).
Arguments Ok {A} a.
Arguments Raise {A} e.

Definition result_bind {A B} (r : result A) (k : A -> result B) : result B :=
  match r with
  | Ok a => k a
  | Raise e => Raise e
  end.

Definition is_ok {A} (r : result A) : bool :=
  match r with Ok _ => true | Raise _ => false end.

(** ** Geometry (shapely) *)

Inductive cap_style : Type := CapRound | CapFlat | CapSquare.
Inductive join_style : Type := JoinRound | JoinMitre | JoinBevel.

Definition point : Type := (Q * Q)%type.

Inductive geometry : Type :=
| Point (p : point)
| LineString (coords : list point)
| Polygon (shell : list point)
| Buffer (g : geometry) (distance : Q) (cap : cap_style) (join : join_style)
| UnaryUnion (gs : list geometry)
| Difference (a b : geometry).

(** [g.buffer(d, cap_style=..., join_style=...)]; both styles default to round. *)
Definition buffer (g : geometry) (d : Q) (cap : cap_style) (join : join_style) : geometry :=
  Buffer g d cap join.
Definition unary_union (gs : list geometry) : geometry := UnaryUnion gs.
Definition difference (a b : geometry) : geometry := Difference a b.

(** The [geom_type] of a geometry is 'LineString' only for a line; a buffer,
    a union or a difference of areas is polygonal. *)
Definition geom_is_linestring (g : geometry) : bool :=
  match g with
  | LineString _ => true
  | _ => false
  end.

(** Point-set meaning of the boolean operations.  The meaning of the primitive
    shapes and of buffering is left to shapely: [prim] and [buf] are arbitrary. *)
Section Covers.
Variable prim : geometry -> point -> Prop.
Variable buf : (point -> Prop) -> Q -> cap_style -> join_style -> point -> Prop.

Fixpoint covers (g : geometry) (p : point) : Prop :=
  match g with
  | Point _ | LineString _ | Polygon _ => prim g p
  | Buffer g' d c j => buf (covers g') d c j p
  | UnaryUnion gs =>
      (fix any (l : list geometry) : Prop :=
         match l with
         | [] => False
         | x :: r => covers x p \/ any r
         end) gs
  | Difference a b => covers a p /\ ~ covers b p
  end.

(** Two geometries are equal as point sets ([a.equals(b)]). *)
Definition geom_equals (a b : geometry) : Prop :=
  forall p, covers a p <-> covers b p.
End Covers.

(** ** Python dicts whose iteration order matters *)

(** A dict literal in insertion order; keys are distinct, so [d[k]] is the
    first (only) entry under [k]. *)
Definition dict (V : Type) : Type := list (string * V).

Fixpoint dict_get {V} (d : dict V) (k : string) : option V :=
  match d with
  | [] => None
  | (k', v) :: r => if String.eqb k k' then Some v else dict_get r k
  end.

(** [k in d], where [k] may be [None] (the result of [tags.get]). *)
Definition dict_has {V} (d : dict V) (k : option string) : bool :=
  match k with
  | Some s => match dict_get d s with Some _ => true | None => false end
  | None => false
  end.

(** [d[k]]: raises KeyError when [k] is missing (also for [k = None]). *)
Definition dict_index {V} (d : dict V) (k : option string) : result V :=
  match k with
  | Some s => match dict_get d s with Some v => Ok v | None => Raise KeyError end
  | None => Raise KeyError
  end.

(** [x in l] for a list of strings, where [x] may be [None]. *)
Definition in_list (x : option string) (l : list string) : bool :=
  match x with
  | Some s => existsb (String.eqb s) l
  | None => false
  end.

(** [x == s] for [x] the result of [tags.get]. *)
Definition get_is (x : option string) (s : string) : bool :=
  match x with
  | Some s' => String.eqb s' s
  | None => false
  end.

(** ** OsmElement *)

(** Modelled from the spec: the class is declared in [utils/osm_element.py],
    which is not part of the sources.  An element has an "identifier, a
    geometry, a mapping of free-form tag keys to string values, a mutable
    numeric width attribute (undefined until computed), a mutable space_type
    label (... or unset), and a mutable access label". *)
Record OsmElement : Type := mkOsmElement {
  id : Z;
  tags : gmap string string;
  geom : geometry;
  width : option Q;            (* None until computed *)
  space_type : option string;  (* None until classified *)
  access : option string
}.

Definition with_geom (e : OsmElement) (g : geometry) : OsmElement :=
  mkOsmElement (id e) (tags e) g (width e) (space_type e) (access e).
Definition with_width (e : OsmElement) (w : Q) : OsmElement :=
  mkOsmElement (id e) (tags e) (geom e) (Some w) (space_type e) (access e).
Definition with_space_type (e : OsmElement) (s : string) : OsmElement :=
  mkOsmElement (id e) (tags e) (geom e) (width e) (Some s) (access e).

(** Modelled from the spec: [utils/osm_element.py] is not part of the sources.
    An element "exposes ... tag lookup": [has_tag] is the presence of the key. *)
Definition has_tag (e : OsmElement) (k : string) : bool :=
  match tags e !! k with Some _ => true | None => false end.

(** Modelled from the spec: [OsmElement.is_linestring] of the missing
    [utils/osm_element.py]; the geometry is "typed as point/line/polygon". *)
Definition is_linestring (e : OsmElement) : bool := geom_is_linestring (geom e).

(** ** The store and its monad *)

Definition loc : Type := positive.
Abbreviation heap := (gmap loc OsmElement).

(** A computation reads and writes the store and returns or raises; what it
    wrote before raising stays written. *)
Definition M (A : Type) : Type := heap -> heap * result A.

Definition ret {A} (a : A) : M A := fun h => (h, Ok a).
Definition raise {A} (e : exn) : M A := fun h => (h, Raise e).
Definition bind {A B} (m : M A) (k : A -> M B) : M B :=
  fun h =>
    match m h with
    | (h', Ok a) => k a h'
    | (h', Raise e) => (h', Raise e)
    end.
Definition lift {A} (r : result A) : M A := fun h => (h, r).

Notation "'do' x <- m ; k" := (bind m (fun x => k))
  (at level 10, x name, m at level 100, k at level 200).
Notation "'exec' m ; k" := (bind m (fun _ => k))
  (at level 10, m at level 100, k at level 200).
Notation "'try' x <- r ; k" := (result_bind r (fun x => k))
  (at level 10, x name, r at level 100, k at level 200).

(** Dereference an element. *)
Definition read (l : loc) : M OsmElement :=
  fun h =>
    match h !! l with
    | Some e => (h, Ok e)
    | None => (h, Raise ReferenceError)
    end.

(** Attribute assignment [e.attr = v]. *)
Definition modify (l : loc) (f : OsmElement -> OsmElement) : M unit :=
  fun h =>
    match h !! l with
    | Some e => (<[l := f e]> h, Ok tt)
    | None => (h, Raise ReferenceError)
    end.

(** [copy.deepcopy(e)]: a new object with the same attribute values. *)
Definition deepcopy (l : loc) : M loc :=
  fun h =>
    match h !! l with
    | Some e => let l' := fresh (dom h) in (<[l' := e]> h, Ok l')
    | None => (h, Raise ReferenceError)
    end.

(** A [for] loop that appends to an accumulator. *)
Fixpoint for_each {A B} (body : B -> A -> M B) (acc : B) (l : list A) : M B :=
  match l with
  | [] => ret acc
  | x :: r => do acc' <- body acc x; for_each body acc' r
  end.

(** A list comprehension [[x for x in l if p(x)]] over elements. *)
Fixpoint filter_elements (p : OsmElement -> bool) (l : list loc) : M (list loc) :=
  match l with
  | [] => ret []
  | x :: r =>
      do e <- read x;
      do r' <- filter_elements p r;
      ret (if p e then x :: r' else r')
  end.

(** A list comprehension [[e.geom for e in l]]. *)
Fixpoint geoms_of (l : list loc) : M (list geometry) :=
  match l with
  | [] => ret []
  | x :: r =>
      do e <- read x;
      do r' <- geoms_of r;
      ret (geom e :: r')
  end.

(** ** Python builtins *)

(** [round(x, 1)] of Python, on the float that the rational stands for. *)
Class PyRound : Type := round1 : Q -> Q.

(** The nearest multiple of one tenth, a tie going to the even one.  This is
    what [round(x, 1)] returns for the exact value of a float; for a decimal
    that no float holds it is the same result unless the decimal is a tie
    (as 5.65, where the float decides).  The samples use it away from ties. *)
Definition round_half_even (x : Q) : Z :=
  let f := Qfloor x in
  match (x - inject_Z f ?= 1 # 2)%Q with
  | Lt => f
  | Gt => (f + 1)%Z
  | Eq => if Z.even f then f else (f + 1)%Z
  end.

Definition py_round1 (x : Q) : Q := (inject_Z (round_half_even (x * 10)) / 10)%Q.

(** A reader of plain decimal literals ([12], [-3.5], [.5], [2.]), the tag
    values met in practice; used wherever a concrete [float] is needed. *)
Definition digit_of (c : ascii) : option Z :=
  let n := nat_of_ascii c in
  if (48 <=? n)%nat && (n <=? 57)%nat then Some (Z.of_nat (n - 48)) else None.

Fixpoint read_digits (s : string) (acc : Z) (count : nat) : Z * nat * string :=
  match s with
  | EmptyString => (acc, count, s)
  | String c r =>
      match digit_of c with
      | Some d => read_digits r (10 * acc + d)%Z (S count)
      | None => (acc, count, s)
      end
  end.

Definition float_decimal (s : string) : option Q :=
  let '(neg, s1) :=
    match s with
    | String "-"%char r => (true, r)
    | String "+"%char r => (false, r)
    | _ => (false, s)
    end in
  let sign (q : Q) : Q := if neg then Qopp q else q in
  let '(ip, n1, s2) := read_digits s1 0 0 in
  match s2 with
  | EmptyString => if (n1 =? 0)%nat then None else Some (sign (inject_Z ip))
  | String "."%char s3 =>
      let '(fp, n2, s4) := read_digits s3 0 0 in
      match s4 with
      | EmptyString =>
          if (n1 + n2 =? 0)%nat then None
          else Some (sign (Qmake (ip * 10 ^ Z.of_nat n2 + fp) (Z.to_pos (10 ^ Z.of_nat n2))))
      | _ => None
      end
  | _ => None
  end.

(** [t[i]] for a pair. *)
Definition tuple_index (t : Q * Q) (i : option nat) : result Q :=
  match i with
  | Some O => Ok (fst t)
  | Some (S O) => Ok (snd t)
  | Some _ => Raise IndexError
  | None => Raise TypeError
  end.

(** ** analyse_traffic_area.py *)

Definition walking_area : string := "walking area".
Definition traffic_area : string := "traffic area".

Definition is_crossing (e : OsmElement) : bool :=
  let tags_with_crossing_values := ["footway"; "highway"] in
  if has_tag e "crossing" then true
  else existsb (fun tag => get_is (tags e !! tag) "crossing") tags_with_crossing_values.

Definition is_pedestrian_way (e : OsmElement) : bool :=
  let highway_for_pedestrians :=
    ["footway"; "steps"; "path"; "platform"; "pedestrian"; "living_street"; "track"] in
  in_list (tags e !! "highway") highway_for_pedestrians
  && negb (get_is (tags e !! "footway") "crossing").

Definition is_irrelevant_highway (e : OsmElement) : bool :=
  let irrelevant_highway_tag_values := ["corridor"; "proposed"] in
  in_list (tags e !! "highway") irrelevant_highway_tag_values.

(** The tables [set_defaults] installs when the caller passes [None]. *)
Definition default_highway_default_widths : dict (Q * Q) :=
  [ ("footway", (1.8, 1)); ("service", (4.5, 3)); ("residential", (4.5, 3));
    ("steps", (2, 1.5)); ("tertiary", (4.8, 3.1)); ("primary", (5.5, 3.1));
    ("cycleway", (2, 1.5)); ("secondary", (4.8, 3.1)); ("path", (1.5, 1));
    ("motorway_link", (6.5, 3.23)); ("platform", (2, 1.5)); ("pedestrian", (2, 2));
    ("motorway", (6.5, 3.25)); ("living_street", (4.5, 3)); ("unclassified", (4.5, 3));
    ("primary_link", (5.5, 3.1)); ("track", (3, 2.5)); ("corridor", (2, 1));
    ("proposed", (4.8, 3.1)); ("secondary_link", (4.8, 3.1));
    ("construction", (5.5, 3.1)); ("everything else", (4.8, 3.1)) ]%Q.

Definition default_cycleway_default_widths : dict (dict Q) :=
  let cycletrack_width := 1.6%Q in
  let cyclelane_width := 1.6%Q in
  [ ("cycleway",
      [ ("lane", cyclelane_width); ("opposite", 1%Q); ("track", cycletrack_width);
        ("opposite_lane", cyclelane_width); ("opposite_track", cycletrack_width) ]);
    ("cycleway:right", [ ("lane", cyclelane_width); ("track", cycletrack_width) ]);
    ("cycleway:both", [ ("lane", (2 * cyclelane_width)%Q); ("track", (2 * cycletrack_width)%Q) ]);
    ("cycleway:left", [ ("lane", cyclelane_width); ("track", cycletrack_width) ]) ].

Definition set_defaults (highway_default_widths : option (dict (Q * Q)))
    (cycleway_default_widths : option (dict (dict Q))) : dict (Q * Q) * dict (dict Q) :=
  (match highway_default_widths with
   | None => default_highway_default_widths
   | Some t => t
   end,
   match cycleway_default_widths with
   | None => default_cycleway_default_widths
   | Some t => t
   end).

Definition set_default_highway_width (element : OsmElement) (direction : string)
    (highway_default_widths : dict (Q * Q)) : result Q :=
  let i := if String.eqb direction "uni-directional" then Some 1%nat
           else if String.eqb direction "bi-directional" then Some 0%nat
           else None in
  if dict_has highway_default_widths (tags element !! "highway") then
    try t <- dict_index highway_default_widths (tags element !! "highway");
    tuple_index t i
  else
    try t <- dict_index highway_default_widths (Some "everything else");
    tuple_index t i.

Definition add_cycleway (element : OsmElement) (width : Q)
    (cycleway_default_widths : dict (dict Q)) : Q :=
  if negb (dict_has cycleway_default_widths (tags element !! "highway")) then
    fold_left
      (fun (width : Q) (entry : string * dict Q) =>
         let '(tag, by_value) := entry in
         if has_tag element tag then
           match tags element !! tag with
           | Some v =>
               match dict_get by_value v with
               | Some w => (width + w)%Q
               | None => width
               end
           | None => width
           end
         else width)
      cycleway_default_widths width
  else width.

Definition add_parking (element : OsmElement) (width : Q)
    (highway_types_for_default_streetside_parking : list string)
    (default_parking_width : Q) : Q :=
  if in_list (tags element !! "highway") highway_types_for_default_streetside_parking
  then (width + default_parking_width)%Q
  else width.

(** Modelled from the spec: [example_application/local_variables.py] is not
    part of the sources; the two values [estimate_road_width] reads from it
    are "a flat parking-width allowance" and "a configured set of types
    assumed to carry curbside parking (residential, tertiary, living_street,
    secondary, primary by default)", 6.5 by default. *)
Record local_variables : Type := mkLocalVariables {
  highway_types_for_default_streetside_parking : list string;
  default_parking_width : Q
}.

Definition default_local_var : local_variables :=
  mkLocalVariables ["residential"; "tertiary"; "living_street"; "secondary"; "primary"] 6.5%Q.

Section TrafficArea.
Context {py_round : PyRound}.
(** [float(s)] for a string [s]: [None] when it raises ValueError. *)
Variable float_str : string -> option Q.
Variable local_var : local_variables.

(** [float(x)] for [x] the result of [tags.get]. *)
Definition py_float (x : option string) : result Q :=
  match x with
  | None => Raise TypeError
  | Some s =>
      match float_str s with
      | Some q => Ok q
      | None => Raise ValueError
      end
  end.

Definition adapt_to_lanes (element : OsmElement) (width : Q) (direction : string) : result Q :=
  let normal_lane_number :=
    if String.eqb direction "uni-directional" then Some 1%Q
    else if String.eqb direction "bi-directional" then Some 2%Q
    else None in
  if has_tag element "lanes" then
    try lanes <- py_float (tags element !! "lanes");
    match normal_lane_number with
    | Some n => if negb (Qeq_bool lanes n) then Ok (width * lanes / n)%Q else Ok width
    | None => Raise TypeError
    end
  else Ok width.

(** The body reads the loop variable [e] of [polygonize_highways], which is
    the element [set_road_width] was called with. *)
Definition estimate_road_width (e : OsmElement) (highway_default_widths : dict (Q * Q))
    (cycleway_default_widths : dict (dict Q)) : result Q :=
  let direction := if has_tag e "oneway" then "uni-directional" else "bi-directional" in
  try width <- set_default_highway_width e direction highway_default_widths;
  try width <- adapt_to_lanes e width direction;
  let width := add_cycleway e width cycleway_default_widths in
  let width := add_parking e width
                 (highway_types_for_default_streetside_parking local_var)
                 (default_parking_width local_var) in
  Ok width.

Definition set_road_width (element : loc) (highway_default_widths : option (dict (Q * Q)))
    (cycleway_default_widths : option (dict (dict Q))) : M unit :=
  let '(highway_default_widths, cycleway_default_widths) :=
    set_defaults highway_default_widths cycleway_default_widths in
  do e <- read element;
  if has_tag e "width:carriageway" then
    do w <- lift (py_float (tags e !! "width:carriageway"));
    modify element (fun o => with_width o w)
  else if has_tag e "width" then
    do w <- lift (py_float (tags e !! "width"));
    modify element (fun o => with_width o w)
  else
    do w <- lift (estimate_road_width e highway_default_widths cycleway_default_widths);
    modify element (fun o => with_width o w).

Definition buffer_osm_element (element : loc) : M loc :=
  do e <- read element;
  do half <- lift (match width e with
                   | Some w => Ok (w / 2)%Q
                   | None => Raise TypeError
                   end);
  let buffer_size := round1 half in
  do element_buffered <- deepcopy element;
  do e <- read element;
  exec modify element_buffered (fun o => with_geom o (buffer (geom e) buffer_size CapFlat JoinRound));
  ret element_buffered.

Definition polygonize_highways (elements : list loc)
    (highway_default_widths : option (dict (Q * Q)))
    (cycleway_default_widths : option (dict (dict Q))) : M (list loc) :=
  do highways <- filter_elements (fun e => has_tag e "highway") elements;
  for_each
    (fun highways_polygons l =>
       do e <- read l;
       if is_pedestrian_way e then
         if negb (is_crossing e) then
           exec modify l (fun o => with_space_type o walking_area);
           ret highways_polygons
         else ret highways_polygons
       else if is_irrelevant_highway e then
         exec modify l (fun o => with_space_type o traffic_area);
         ret highways_polygons
       else
         do highways_polygons <-
           (if is_linestring e then
              exec set_road_width l highway_default_widths cycleway_default_widths;
              do p <- buffer_osm_element l;
              ret (highways_polygons ++ [p])
            else ret highways_polygons);
         exec modify l (fun o => with_space_type o traffic_area);
         ret highways_polygons)
    [] highways.

Definition polygonize_railways (elements : list loc)
    (tram_gauge tram_buffer train_gauge train_buffer : Q) : M (list loc) :=
  do railways <- filter_elements (fun e => is_linestring e && has_tag e "railway") elements;
  for_each
    (fun rails_polygons l =>
       do e <- read l;
       exec (if get_is (tags e !! "railway") "tram" then
               modify l (fun o => with_width o (tram_gauge + tram_buffer)%Q)
             else if get_is (tags e !! "railway") "rail" then
               modify l (fun o => with_width o (train_gauge + train_buffer)%Q)
             else ret tt);
       do rails_polygons <-
         (if in_list (tags e !! "railway") ["tram"; "rail"] then
            do p <- buffer_osm_element l;
            ret (rails_polygons ++ [p])
          else ret rails_polygons);
       exec (if negb (get_is (tags e !! "railway") "platform") then
               modify l (fun o => with_space_type o traffic_area)
             else ret tt);
       ret rails_polygons)
    [] railways.

Definition get_traffic_areas (elements : list loc)
    (highway_default_widths : option (dict (Q * Q)))
    (cycleway_default_widths : option (dict (dict Q)))
    (tram_gauge tram_buffer train_gauge train_buffer : Q) : M (list loc) :=
  do hs <- polygonize_highways elements highway_default_widths cycleway_default_widths;
  do rs <- polygonize_railways elements tram_gauge tram_buffer train_gauge train_buffer;
  ret (hs ++ rs).

(** Modelled from the spec: [utils/helpers.buffer_list_of_elements] is not
    part of the sources.  The cropper sources are "each independently
    buffered" by the given size and styles, and buffering "must operate on
    copies": every element is copied and the copy gets the buffered
    geometry. *)
Definition buffer_list_of_elements (elements : list loc) (buffer_size : Q)
    (join : join_style) (cap : cap_style) : M (list loc) :=
  for_each
    (fun buffered l =>
       do c <- deepcopy l;
       do e <- read l;
       exec modify c (fun o => with_geom o (buffer (geom e) buffer_size cap join));
       ret (buffered ++ [c]))
    [] elements.

Definition get_cropper_geometries (elements : list loc)
    (inaccessible_enclosed_areas : list geometry) (buildings : list loc)
    (pedestrian_way_default_width non_traffic_space_around_buildings_default_width : Q)
    : M (list geometry) :=
  do pedestrian_ways <- filter_elements is_pedestrian_way elements;
  do pedestrian_ways_buffered <-
    buffer_list_of_elements pedestrian_ways (pedestrian_way_default_width / 2)%Q JoinRound CapFlat;
  do buildings_buffered <-
    buffer_list_of_elements buildings non_traffic_space_around_buildings_default_width
      JoinMitre CapRound;
  do platforms <- filter_elements (fun e => get_is (tags e !! "railway") "platform") elements;
  do g1 <- geoms_of pedestrian_ways_buffered;
  do g2 <- geoms_of buildings_buffered;
  do g3 <- geoms_of platforms;
  ret (g1 ++ g2 ++ g3 ++ inaccessible_enclosed_areas).

Definition smooth_traffic_areas (traffic_areas_cropped : geometry) : geometry :=
  buffer (buffer (buffer (buffer traffic_areas_cropped 1 CapRound JoinMitre)
                    (-1) CapRound JoinMitre)
            0.5 CapRound JoinRound)
    (-0.5) CapRound JoinRound.

Definition get_traffic_areas_as_polygons (elements : list loc)
    (inaccessible_enclosed_areas : list geometry) (buildings : list loc)
    (highway_default_widths : option (dict (Q * Q)))
    (cycleway_default_widths : option (dict (dict Q)))
    (tram_gauge tram_buffer train_gauge train_buffer : Q)
    (pedestrian_way_default_width non_traffic_space_around_buildings_default_width : Q)
    : M geometry :=
  do traffic_areas <- get_traffic_areas elements highway_default_widths
                        cycleway_default_widths tram_gauge tram_buffer train_gauge train_buffer;
  do cropper_geometries <- get_cropper_geometries elements inaccessible_enclosed_areas
                             buildings pedestrian_way_default_width
                             non_traffic_space_around_buildings_default_width;
  let cropper_geometries_union :=
    buffer (buffer (unary_union cropper_geometries) 0.3 CapRound JoinRound)
      (-0.3) CapRound JoinRound in
  do traffic_geoms <- geoms_of traffic_areas;
  let traffic_areas_union := unary_union traffic_geoms in
  let traffic_areas_cropped := difference traffic_areas_union cropper_geometries_union in
  ret (smooth_traffic_areas traffic_areas_cropped).
End TrafficArea.

(** The default values of the keyword arguments. *)
Definition default_tram_gauge : Q := 1.435.
Definition default_tram_buffer : Q := 0.5.
Definition default_train_gauge : Q := 1.435.
Definition default_train_buffer : Q := 1.5.
Definition default_pedestrian_way_default_width : Q := 1.6.
Definition default_non_traffic_space_around_buildings_default_width : Q := 1.3.

(** ** get_undefined_space.py *)

(** The runtime class of an object in a defined-space list. *)
Inductive pyclass : Type :=
| ClassOsmElement
| ClassSubclassOfOsmElement (name : string).

(** A member of a defined-space list, or of the list handed to
    [unary_union]: an instance of [OsmElement] or of a subclass, or a shapely
    geometry. *)
Inductive item : Type :=
| Instance (cls : pyclass) (e : OsmElement)
| Geometry (g : geometry).

(** [type(e) == OsmElement] *)
Definition type_is_OsmElement (x : item) : bool :=
  match x with
  | Instance ClassOsmElement _ => true
  | _ => false
  end.

(** [e.geom], read by [load] under the class test only; for a shapely
    geometry it stands for the geometry itself. *)
Definition item_geom (x : item) : geometry :=
  match x with
  | Instance _ o => geom o
  | Geometry g => g
  end.

(** Modelled from the spec: [utils/bounding_box.py] is not part of the
    sources; a bounding region is "a rectangular geographic extent in the same
    projected coordinate system as all geometries". *)
Record BoundingBox : Type := mkBoundingBox {
  geom_projected : geometry
}.

(** The two loops of [load]: the list [defined_space_geometries]. *)
Definition defined_space_geometries (all_defined_space_lists : dict (list item)) : list item :=
  fold_left
    (fun acc entry =>
       fold_left
         (fun acc e =>
            if type_is_OsmElement e then acc ++ [Geometry (item_geom e)]
            else acc ++ [e])
         (snd entry) acc)
    all_defined_space_lists [].

(** [shapely.ops.unary_union] of a list of objects: shapely raises a
    TypeError on an object that is not a geometry. *)
Fixpoint as_geometries (l : list item) : result (list geometry) :=
  match l with
  | [] => Ok []
  | Geometry g :: r => try r' <- as_geometries r; Ok (g :: r')
  | Instance _ _ :: _ => Raise TypeError
  end.

Definition load (all_defined_space_lists : dict (list item)) (bbox : BoundingBox)
    : result geometry :=
  let defined_space_geometries := defined_space_geometries all_defined_space_lists in
  try gs <- as_geometries defined_space_geometries;
  let defined_space_union := unary_union gs in
  let undefined_space := difference (geom_projected bbox) defined_space_union in
  Ok undefined_space.

(** ** Vocabulary of the properties *)

(** [mutated e e']: [e'] is [e] after some assignments of the passes: only
    [width] and [space_type] are written, and [space_type] only receives
    'traffic area', or 'walking area' on a pedestrian way that is no crossing. *)
Definition mutated (e e' : OsmElement) : Prop :=
  id e' = id e /\ tags e' = tags e /\ geom e' = geom e /\ access e' = access e /\
  (space_type e' = space_type e
   \/ space_type e' = Some traffic_area
   \/ (space_type e' = Some walking_area
       /\ is_pedestrian_way e = true /\ is_crossing e = false)).

(** [extends h h']: every object of [h] is still there in [h'], mutated at
    most as above; [h'] may hold new objects. *)
Definition extends (h h' : heap) : Prop :=
  forall l e, h !! l = Some e -> exists e', h' !! l = Some e' /\ mutated e e'.

(** [keeps m h]: running [m] from [h] extends [h], whether [m] returns or raises. *)
Definition keeps {A} (m : M A) (h : heap) : Prop := extends h (fst (m h)).

(** The width [set_road_width] resolves for an element: the decision of the
    function without the store. *)
Definition resolve_width (float_str : string -> option Q) (local_var : local_variables)
    (e : OsmElement) (highway_default_widths : option (dict (Q * Q)))
    (cycleway_default_widths : option (dict (dict Q))) : result Q :=
  let '(hd, cd) := set_defaults highway_default_widths cycleway_default_widths in
  if has_tag e "width:carriageway" then py_float float_str (tags e !! "width:carriageway")
  else if has_tag e "width" then py_float float_str (tags e !! "width")
  else estimate_road_width float_str local_var e hd cd.

(** The polygon [buffer_osm_element] computes for an element of width [w]. *)
Definition buffered_geom {py_round : PyRound} (e : OsmElement) (w : Q) : geometry :=
  Buffer (geom e) (round1 (w / 2)) CapFlat JoinRound.

(** What the Polygonizer promises for an element it classifies: 'traffic
    area', or 'walking area' on a pedestrian way that is no crossing. *)
Definition classified (e e' : OsmElement) : Prop :=
  space_type e' = Some traffic_area
  \/ (space_type e' = Some walking_area
      /\ is_pedestrian_way e = true /\ is_crossing e = false).

(** The elements the highway pass classifies, and those the railway pass does. *)
Definition highway_classified (e : OsmElement) : bool :=
  has_tag e "highway" && negb (is_pedestrian_way e && is_crossing e).

Definition railway_classified (e : OsmElement) : bool :=
  is_linestring e && has_tag e "railway" && negb (get_is (tags e !! "railway") "platform").

(** The elements whose width [polygonize_highways] resolves. *)
Definition needs_road_width (e : OsmElement) : bool :=
  has_tag e "highway" && negb (is_pedestrian_way e) && negb (is_irrelevant_highway e)
  && is_linestring e.

(** An input on which nothing is raised: the elements and buildings are
    objects of the store, and the width of every road that needs one resolves. *)
Definition well_formed_input (float_str : string -> option Q) (local_var : local_variables)
    (highway_default_widths : option (dict (Q * Q)))
    (cycleway_default_widths : option (dict (dict Q)))
    (elements buildings : list loc) (h : heap) : Prop :=
  (forall x, x ∈ elements ->
     exists e, h !! x = Some e /\
       (needs_road_width e = true ->
        is_ok (resolve_width float_str local_var e
                 highway_default_widths cycleway_default_widths) = true)) /\
  (forall b, b ∈ buildings -> is_Some (h !! b)).

(** The invariant of the loops: the store extends the initial one and the
    polygons collected so far are objects of the store. *)
Definition collecting (h0 : heap) (acc : list loc) (h : heap) : Prop :=
  extends h0 h /\ forall p, p ∈ acc -> is_Some (h !! p).

(** What [load] hands to [unary_union] for one member of a list, in the
    words of the claim: the stored geometry of an object whose class is
    exactly OsmElement, anything else as it is. *)
Definition handed_to_union (x : item) : item :=
  match x with
  | Instance ClassOsmElement o => Geometry (geom o)
  | Instance (ClassSubclassOfOsmElement _) _ => x
  | Geometry _ => x
  end.

(** A member [load] can union: a geometry or an object of class OsmElement. *)
Definition unionable (x : item) : bool :=
  match x with
  | Instance ClassOsmElement _ => true
  | Instance (ClassSubclassOfOsmElement _) _ => false
  | Geometry _ => true
  end.


(** ** Sample inputs *)

Definition sample_line : geometry := LineString [(0, 0); (10, 0)]%Q.
Definition sample_point : geometry := Point (3, 4)%Q.

(** An element as the loader creates it: nothing computed yet. *)
Definition element_of (t : list (string * string)) (g : geometry) : OsmElement :=
  mkOsmElement 1 (list_to_map t) g None None None.

(** A store with one element, at location 1. *)
Definition store_of (e : OsmElement) : heap := {[ 1%positive := e ]}.

(** The call of [get_traffic_areas_as_polygons] with every keyword argument
    at its default, no buildings and no inaccessible areas. *)
Definition run_default (elements : list loc) : M geometry :=
  get_traffic_areas_as_polygons (py_round := py_round1)
      float_decimal default_local_var elements [] [] None None
    default_tram_gauge default_tram_buffer default_train_gauge default_train_buffer
    default_pedestrian_way_default_width
    default_non_traffic_space_around_buildings_default_width.

(** highway=footway with crossing=marked: a pedestrian way that is a crossing *)
Definition footway_with_crossing_tag : OsmElement :=
  element_of [("highway", "footway"); ("crossing", "marked")] sample_line.

(** highway=footway with footway=crossing *)
Definition footway_crossing : OsmElement :=
  element_of [("highway", "footway"); ("footway", "crossing")] sample_line.

Definition residential_road : OsmElement :=
  element_of [("highway", "residential")] sample_line.

Definition railway_platform : OsmElement :=
  element_of [("railway", "platform")] sample_line.

Definition railway_station_node : OsmElement :=
  element_of [("railway", "station")] sample_point.

Definition tram_line : OsmElement :=
  element_of [("railway", "tram")] sample_line.

(** A tram line after the railway pass has set its width, 1.435 + 0.5. *)
Definition tram_line_with_width : OsmElement :=
  with_width tram_line (default_tram_gauge + default_tram_buffer)%Q.

(** A road with both width tags and a lanes tag. *)
Definition road_with_declared_widths : OsmElement :=
  element_of [("highway", "residential"); ("width:carriageway", "7.5");
              ("width", "6"); ("lanes", "3")] sample_line.

(** A road whose width tag is fine and whose lanes tag is not a number. *)
Definition road_with_malformed_lanes : OsmElement :=
  element_of [("highway", "residential"); ("width", "6"); ("lanes", "two")] sample_line.

(** A road whose only width-related tag is a malformed lanes tag. *)
Definition road_with_only_malformed_lanes : OsmElement :=
  element_of [("highway", "residential"); ("lanes", "two")] sample_line.

(** A two-lane residential road, and the same road with a oneway tag. *)
Definition two_lane_road : OsmElement :=
  element_of [("highway", "residential"); ("lanes", "2")] sample_line.
Definition two_lane_oneway_road : OsmElement :=
  element_of [("highway", "residential"); ("lanes", "2"); ("oneway", "yes")] sample_line.

(** A pedestrian street that reaches width estimation (footway=crossing),
    and the same with a oneway tag. *)
Definition pedestrian_street : OsmElement :=
  element_of [("highway", "pedestrian"); ("footway", "crossing")] sample_line.
Definition pedestrian_oneway_street : OsmElement :=
  element_of [("highway", "pedestrian"); ("footway", "crossing"); ("oneway", "yes")] sample_line.

Definition oneway_residential_road : OsmElement :=
  element_of [("highway", "residential"); ("oneway", "yes")] sample_line.

(** The width table has the entry the lookup falls back to. *)
Definition has_fallback_entry (highway_default_widths : option (dict (Q * Q))) : bool :=
  dict_has (fst (set_defaults highway_default_widths None)) (Some "everything else").

(** A bounding region and a mapping of defined-space lists as the
    application builds it. *)
Definition sample_bbox : BoundingBox :=
  mkBoundingBox (Polygon [(0, 0); (100, 0); (100, 100); (0, 100)]%Q).

Definition sample_building : OsmElement :=
  element_of [("building", "yes")] (Polygon [(1, 1); (2, 1); (2, 2); (1, 2)]%Q).

Definition sample_defined_space : dict (list item) :=
  [ ("dataset", [Instance ClassOsmElement residential_road]);
    ("buildings", [Instance ClassOsmElement sample_building]);
    ("inaccessible_enclosed_areas", []);
    ("traffic_areas", [Geometry (Polygon [(5, 5); (6, 5); (6, 6)]%Q)]) ].

Definition empty_defined_space : dict (list item) :=
  [ ("dataset", []); ("buildings", []); ("inaccessible_enclosed_areas", []);
    ("traffic_areas", []) ].

(** All members of all lists, in the order [load] visits them. *)
Definition members (all_defined_space_lists : dict (list item)) : list item :=
  concat (map snd all_defined_space_lists).

(** ** Vocabulary of the further properties *)

(** The elements a list of locations refers to, those that exist. *)
Definition elems (h : heap) (l : list loc) : list OsmElement :=
  omap (fun x => h !! x) l.

(** A road with a lanes tag of value 0, and a road whose highway type a
    one-entry width table does not know. *)
Definition road_with_three_lanes : OsmElement :=
  element_of [("highway", "residential"); ("lanes", "3")] sample_line.

Definition road_with_cycleways : OsmElement :=
  element_of [("highway", "residential"); ("cycleway", "track"); ("cycleway:both", "lane");
              ("cycleway:left", "lane"); ("cycleway:right", "unknown")] sample_line.

Definition table_without_fallback : dict (Q * Q) := [("motorway", (6.5, 3.25)%Q)].

(** The polygons at the locations [ps] of the store have the geometries [gs]. *)
Definition geoms_at (h : heap) (ps : list loc) (gs : list geometry) : Prop :=
  Forall2 (fun p g => exists c, h !! p = Some c /\ geom c = g) ps gs.

(** The body of the loop of [polygonize_highways], and of the loop of
    [polygonize_railways]. *)
Definition highway_body {py_round : PyRound}
    (float_str : string -> option Q) (local_var : local_variables)
    (highway_default_widths : option (dict (Q * Q)))
    (cycleway_default_widths : option (dict (dict Q)))
    (highways_polygons : list loc) (l : loc) : M (list loc) :=
  do e <- read l;
  if is_pedestrian_way e then
    if negb (is_crossing e) then
      exec modify l (fun o => with_space_type o walking_area);
      ret highways_polygons
    else ret highways_polygons
  else if is_irrelevant_highway e then
    exec modify l (fun o => with_space_type o traffic_area);
    ret highways_polygons
  else
    do highways_polygons <-
      (if is_linestring e then
         exec set_road_width float_str local_var l highway_default_widths cycleway_default_widths;
         do p <- buffer_osm_element l;
         ret (highways_polygons ++ [p])
       else ret highways_polygons);
    exec modify l (fun o => with_space_type o traffic_area);
    ret highways_polygons.

Definition railway_body {py_round : PyRound} (tram_gauge tram_buffer train_gauge train_buffer : Q)
    (rails_polygons : list loc) (l : loc) : M (list loc) :=
  do e <- read l;
  exec (if get_is (tags e !! "railway") "tram" then
          modify l (fun o => with_width o (tram_gauge + tram_buffer)%Q)
        else if get_is (tags e !! "railway") "rail" then
          modify l (fun o => with_width o (train_gauge + train_buffer)%Q)
        else ret tt);
  do rails_polygons <-
    (if in_list (tags e !! "railway") ["tram"; "rail"] then
       do p <- buffer_osm_element l;
       ret (rails_polygons ++ [p])
     else ret rails_polygons);
  exec (if negb (get_is (tags e !! "railway") "platform") then
          modify l (fun o => with_space_type o traffic_area)
        else ret tt);
  ret rails_polygons.

(** What the highway pass leaves of an element it visits, and the polygon it
    makes of it. *)
Definition highway_effect (float_str : string -> option Q) (local_var : local_variables)
    (hdw : option (dict (Q * Q))) (cdw : option (dict (dict Q))) (e : OsmElement)
    : OsmElement :=
  if is_pedestrian_way e then
    if is_crossing e then e else with_space_type e walking_area
  else if is_irrelevant_highway e then with_space_type e traffic_area
  else if is_linestring e then
    match resolve_width float_str local_var e hdw cdw with
    | Ok w => with_space_type (with_width e w) traffic_area
    | Raise _ => e
    end
  else with_space_type e traffic_area.

Definition highway_polygon {py_round : PyRound} (float_str : string -> option Q)
    (local_var : local_variables) (hdw : option (dict (Q * Q)))
    (cdw : option (dict (dict Q))) (e : OsmElement)
    : list geometry :=
  if negb (is_pedestrian_way e) && negb (is_irrelevant_highway e) && is_linestring e then
    match resolve_width float_str local_var e hdw cdw with
    | Ok w => [buffered_geom e w]
    | Raise _ => []
    end
  else [].

(** The same for the railway pass. *)
Definition railway_width (tg tb rg rb : Q) (e : OsmElement) : option Q :=
  if get_is (tags e !! "railway") "tram" then Some (tg + tb)%Q
  else if get_is (tags e !! "railway") "rail" then Some (rg + rb)%Q
  else None.

Definition railway_effect (tg tb rg rb : Q) (e : OsmElement) : OsmElement :=
  match railway_width tg tb rg rb e with
  | Some w => with_space_type (with_width e w) traffic_area
  | None =>
      if get_is (tags e !! "railway") "platform" then e
      else with_space_type e traffic_area
  end.

Definition railway_polygon {py_round : PyRound} (tg tb rg rb : Q) (e : OsmElement)
    : list geometry :=
  match railway_width tg tb rg rb e with
  | Some w => [buffered_geom e w]
  | None => []
  end.

(** The elements the two loops run over. *)
Definition is_highway (e : OsmElement) : bool := has_tag e "highway".
Definition is_railway_line (e : OsmElement) : bool := is_linestring e && has_tag e "railway".
Definition is_platform (e : OsmElement) : bool := get_is (tags e !! "railway") "platform".

(** The candidate polygons, the cropper geometries and the traffic area, as
    functions of the input elements and buildings. *)
Definition traffic_polygons {py_round : PyRound} (float_str : string -> option Q)
    (local_var : local_variables) (hdw : option (dict (Q * Q)))
    (cdw : option (dict (dict Q))) (tg tb rg rb : Q)
    (elements : list OsmElement) : list geometry :=
  flat_map (highway_polygon float_str local_var hdw cdw) (List.filter is_highway elements)
  ++ flat_map (railway_polygon tg tb rg rb) (List.filter is_railway_line elements).

Definition cropper_geometries_of (pw bw : Q) (elements buildings : list OsmElement)
    (inaccessible_enclosed_areas : list geometry) : list geometry :=
  map (fun e => Buffer (geom e) (pw / 2) CapFlat JoinRound)
    (List.filter is_pedestrian_way elements)
  ++ map (fun e => Buffer (geom e) bw CapRound JoinMitre) buildings
  ++ map geom (List.filter is_platform elements)
  ++ inaccessible_enclosed_areas.

Definition traffic_area_geometry {py_round : PyRound} (float_str : string -> option Q)
    (local_var : local_variables) (hdw : option (dict (Q * Q)))
    (cdw : option (dict (dict Q))) (tg tb rg rb pw bw : Q)
    (elements buildings : list OsmElement) (inaccessible_enclosed_areas : list geometry)
    : geometry :=
  smooth_traffic_areas
    (difference
       (unary_union (traffic_polygons float_str local_var hdw cdw tg tb rg rb elements))
       (buffer
          (buffer
             (unary_union
                (cropper_geometries_of pw bw elements buildings inaccessible_enclosed_areas))
             0.3 CapRound JoinRound)
          (-0.3) CapRound JoinRound)).

(** What the whole call leaves of an element of its input. *)
Definition after_highways (float_str : string -> option Q) (local_var : local_variables)
    (hdw : option (dict (Q * Q))) (cdw : option (dict (dict Q))) (e : OsmElement)
    : OsmElement :=
  if is_highway e then highway_effect float_str local_var hdw cdw e else e.

Definition after_railways (tg tb rg rb : Q) (e : OsmElement) : OsmElement :=
  if is_railway_line e then railway_effect tg tb rg rb e else e.

Definition call_effect (float_str : string -> option Q) (local_var : local_variables)
    (hdw : option (dict (Q * Q))) (cdw : option (dict (dict Q))) (tg tb rg rb : Q)
    (e : OsmElement) : OsmElement :=
  after_railways tg tb rg rb (after_highways float_str local_var hdw cdw e).

(** Two states of one element: the tags and the geometry are the same. *)
Definition same_shape (e e' : OsmElement) : Prop :=
  tags e' = tags e /\ geom e' = geom e.

(** A store with a road, a footway crossing, a tram line and a building, and
    the passes and the call on it with every keyword argument at its default. *)
Definition sample_store : heap :=
  list_to_map [ (1%positive, residential_road); (2%positive, footway_with_crossing_tag);
                (3%positive, tram_line); (4%positive, sample_building) ].

Definition sample_elements : list loc := [1%positive; 2%positive; 3%positive].
Definition sample_buildings : list loc := [4%positive].

Definition value_or {A} (d : A) (r : result A) : A :=
  match r with
  | Ok a => a
  | Raise _ => d
  end.

Definition sample_highway_pass : heap * result (list loc) :=
  polygonize_highways (py_round := py_round1)
      float_decimal default_local_var sample_elements None None sample_store.

Definition sample_railway_pass : heap * result (list loc) :=
  polygonize_railways (py_round := py_round1) sample_elements default_tram_gauge default_tram_buffer
    default_train_gauge default_train_buffer sample_store.

Definition sample_croppers : heap * result (list geometry) :=
  get_cropper_geometries sample_elements [] sample_buildings
    default_pedestrian_way_default_width
    default_non_traffic_space_around_buildings_default_width sample_store.

Definition sample_call : heap * result geometry :=
  get_traffic_areas_as_polygons (py_round := py_round1)
      float_decimal default_local_var sample_elements []
    sample_buildings None None
    default_tram_gauge default_tram_buffer default_train_gauge default_train_buffer
    default_pedestrian_way_default_width
    default_non_traffic_space_around_buildings_default_width sample_store.

(** The sample mapping with its lists in another order. *)
Definition reordered_defined_space : dict (list item) :=
  [ ("traffic_areas", [Geometry (Polygon [(5, 5); (6, 5); (6, 6)]%Q)]);
    ("inaccessible_enclosed_areas", []);
    ("buildings", [Instance ClassOsmElement sample_building]);
    ("dataset", [Instance ClassOsmElement residential_road]) ].

(** ** export_data.py *)

(** The five lists [write_info_to_dict] fills side by side. *)
Record export_columns : Type := mkExportColumns {
  geometries : list geometry;
  access_types : list string;
  space_types : list (option string);
  osmids : list (option Z);
  osmtags : list (option (gmap string string))
}.

(** One [append] to each of the five lists. *)
Record export_row : Type := mkExportRow {
  row_geometry : geometry;
  row_access : string;
  row_space_type : option string;
  row_osmid : option Z;
  row_tags : option (gmap string string)
}.

Definition add_row (cols : export_columns) (r : export_row) : export_columns :=
  mkExportColumns
    (geometries cols ++ [row_geometry r])
    (access_types cols ++ [row_access r])
    (space_types cols ++ [row_space_type r])
    (osmids cols ++ [row_osmid r])
    (osmtags cols ++ [row_tags r]).

(** A loop over the members of a list that may raise ([None]). *)
Fixpoint export_each (f : export_columns -> item -> option export_columns)
    (cols : export_columns) (l : list item) : option export_columns :=
  match l with
  | [] => Some cols
  | e :: r =>
      match f cols e with
      | Some cols' => export_each f cols' r
      | None => None
      end
  end.

Section ExportData.
(** [shapely.ops.transform(projector.transform, g)], the projection back to
    EPSG 4326. *)
Variable transform : geometry -> geometry.
(** [OsmElement.is_polygon] and [OsmElement.is_multipolygon], methods of the
    class declared in the missing [utils/osm_element.py]. *)
Variable is_polygon : OsmElement -> bool.
Variable is_multipolygon : OsmElement -> bool.

(** The branch for 'dataset': a shapely geometry has no [is_polygon]. *)
Definition export_dataset_element (cols : export_columns) (e : item) : option export_columns :=
  match e with
  | Instance _ o =>
      if is_polygon o || is_multipolygon o then
        Some (add_row cols
                (mkExportRow (transform (geom o))
                   (match access o with
                    | None => "undefined"
                    | Some a => a
                    end)
                   (space_type o) (Some (id o)) (Some (tags o))))
      else Some cols
  | Geometry _ => None
  end.

(** The branch for 'buildings': a shapely geometry has no [geom]. *)
Definition export_building (cols : export_columns) (e : item) : option export_columns :=
  match e with
  | Instance _ o =>
      Some (add_row cols
              (mkExportRow (transform (geom o)) "no" (Some "building")
                 (Some (id o)) (Some (tags o))))
  | Geometry _ => None
  end.

(** The branches for 'inaccessible_enclosed_areas' and 'traffic_areas':
    [shapely.ops.transform] raises on an object that is not a geometry. *)
Definition export_area (label : string) (cols : export_columns) (e : item)
    : option export_columns :=
  match e with
  | Geometry g => Some (add_row cols (mkExportRow (transform g) "no" (Some label) None None))
  | Instance _ _ => None
  end.

Definition export_list (cols : export_columns) (entry : string * list item)
    : option export_columns :=
  let '(list_name, elements) := entry in
  if String.eqb list_name "dataset" then export_each export_dataset_element cols elements
  else if String.eqb list_name "buildings" then export_each export_building cols elements
  else if String.eqb list_name "inaccessible_enclosed_areas" then
    export_each (export_area "inaccessible enclosed area") cols elements
  else if String.eqb list_name "traffic_areas" then
    export_each (export_area "traffic area") cols elements
  else Some cols.

Fixpoint export_lists (cols : export_columns) (lists : dict (list item))
    : option export_columns :=
  match lists with
  | [] => Some cols
  | entry :: r =>
      match export_list cols entry with
      | Some cols' => export_lists cols' r
      | None => None
      end
  end.

Definition write_info_to_dict (all_defined_space_lists : dict (list item))
    (undefined_space_within_bbox : geometry) : option export_columns :=
  match export_lists (mkExportColumns [] [] [] [] []) all_defined_space_lists with
  | Some cols =>
      Some (add_row cols
              (mkExportRow (transform undefined_space_within_bbox) "yes"
                 (Some "undefined space") None None))
  | None => None
  end.

(** The rows one list contributes. *)
Definition is_area (e : item) : bool :=
  match e with
  | Instance _ o => is_polygon o || is_multipolygon o
  | Geometry _ => false
  end.

Definition rows_of_list (entry : string * list item) : nat :=
  let '(list_name, elements) := entry in
  if String.eqb list_name "dataset" then length (List.filter is_area elements)
  else if String.eqb list_name "buildings" then length elements
  else if String.eqb list_name "inaccessible_enclosed_areas" then length elements
  else if String.eqb list_name "traffic_areas" then length elements
  else 0.
End ExportData.

(** The names of the lists [write_info_to_dict] looks at. *)
Definition exported_list_name (list_name : string) : bool :=
  String.eqb list_name "dataset" || String.eqb list_name "buildings"
  || String.eqb list_name "inaccessible_enclosed_areas" || String.eqb list_name "traffic_areas".

(** All five columns have [n] entries. *)
Definition has_rows (cols : export_columns) (n : nat) : Prop :=
  length (geometries cols) = n /\ length (access_types cols) = n /\
  length (space_types cols) = n /\ length (osmids cols) = n /\ length (osmtags cols) = n.

(** For the samples: every polygon is an area, nothing is projected. *)
Definition sample_is_polygon (e : OsmElement) : bool :=
  match geom e with
  | Polygon _ => true
  | _ => false
  end.

(** ** crop_traffic_areas (analyse_traffic_area.py) *)

Section Crop.
(** [a.intersects(b)] of shapely. *)
Variable intersects : geometry -> geometry -> bool.

Definition crop_traffic_areas (traffic_area_elements : list loc)
    (cropper_geometries : list geometry) : M (list loc) :=
  for_each
    (fun traffic_areas_cropped traffic_area =>
       do traffic_area_cropped <- deepcopy traffic_area;
       exec for_each
              (fun (_ : unit) cropper =>
                 do c <- read traffic_area_cropped;
                 if intersects (geom c) cropper then
                   modify traffic_area_cropped
                     (fun o => with_geom o (difference (geom o) cropper))
                 else ret tt)
              tt cropper_geometries;
       ret (traffic_areas_cropped ++ [traffic_area_cropped]))
    [] traffic_area_elements.

(** A geometry after the croppers that intersect it were subtracted, one
    after the other. *)
Definition cropped (cropper_geometries : list geometry) (g : geometry) : geometry :=
  fold_left (fun g cropper => if intersects g cropper then Difference g cropper else g)
    cropper_geometries g.
End Crop.

(** A square polygon and two croppers for the samples. *)
Definition sample_polygon_store : heap :=
  {[ 1%positive := element_of [("highway", "residential")]
                     (Polygon [(0, 0); (10, 0); (10, 4); (0, 4)]%Q) ]}.

Definition sample_cropper_list : list geometry :=
  [ Polygon [(1, 1); (2, 1); (2, 2); (1, 2)]%Q; Polygon [(5, 5); (6, 5); (6, 6)]%Q ].

(** For the samples: a test that finds every cropper to intersect but the
    triangles, and a reading of the shapes in which a triangle holds no
    point, so that the test is right about them. *)
Definition sample_intersects (a b : geometry) : bool :=
  match b with
  | Polygon [_; _; _] => false
  | _ => true
  end.

Definition sample_prim (g : geometry) (p : point) : Prop :=
  match g with
  | Polygon [_; _; _] => False
  | _ => True
  end.

(** * Properties *)

(** ** Running a computation *)

Lemma bind_ok {A B} (m : M A) (k : A -> M B) h h' b :
  bind m k h = (h', Ok b) ->
  exists a h1, m h = (h1, Ok a) /\ k a h1 = (h', Ok b).
Proof.
  unfold bind. destruct (m h) as [h1 [a | e]]; intros H.
  - exists a, h1. split; [reflexivity | exact H].
  - discriminate H.
Qed.

Lemma bind_eq {A B} (m : M A) (k : A -> M B) h h1 a :
  m h = (h1, Ok a) -> bind m k h = k a h1.
Proof. intros H. unfold bind. rewrite H. reflexivity. Qed.

Lemma bind_raise {A B} (m : M A) (k : A -> M B) h h1 e :
  m h = (h1, Raise e) -> bind m k h = (h1, Raise e).
Proof. intros H. unfold bind. rewrite H. reflexivity. Qed.

Lemma read_eq l (h : heap) e : h !! l = Some e -> read l h = (h, Ok e).
Proof. intros H. unfold read. rewrite H. reflexivity. Qed.

Lemma read_ok l (h h' : heap) e : read l h = (h', Ok e) -> h' = h /\ h !! l = Some e.
Proof.
  unfold read. destruct (h !! l) as [e0 |]; intros H; inversion H; subst; auto.
Qed.

Lemma read_heap l (h : heap) : fst (read l h) = h.
Proof. unfold read. destruct (h !! l); reflexivity. Qed.

Lemma modify_eq l f (h : heap) e :
  h !! l = Some e -> modify l f h = (<[l := f e]> h, Ok tt).
Proof. intros H. unfold modify. rewrite H. reflexivity. Qed.

Lemma modify_ok l f (h h' : heap) u :
  modify l f h = (h', Ok u) -> exists e, h !! l = Some e /\ h' = <[l := f e]> h.
Proof.
  unfold modify. destruct (h !! l) as [e0 |]; intros H; inversion H; subst; eauto.
Qed.

Lemma deepcopy_eq l (h : heap) e :
  h !! l = Some e -> deepcopy l h = (<[fresh (dom h) := e]> h, Ok (fresh (dom h))).
Proof. intros H. unfold deepcopy. rewrite H. reflexivity. Qed.

Lemma lift_ok {A} (r : result A) (h h' : heap) a :
  lift r h = (h', Ok a) -> h' = h /\ r = Ok a.
Proof. unfold lift. intros H. inversion H; subst; auto. Qed.

Lemma fresh_loc_unused (h : heap) : h !! fresh (dom h) = None.
Proof. apply not_elem_of_dom. apply is_fresh. Qed.

(** ** What the passes may change in an element *)

Lemma is_pedestrian_way_tags e e' :
  tags e' = tags e -> is_pedestrian_way e' = is_pedestrian_way e.
Proof. intros H. unfold is_pedestrian_way. rewrite H. reflexivity. Qed.

Lemma is_crossing_tags e e' : tags e' = tags e -> is_crossing e' = is_crossing e.
Proof. intros H. unfold is_crossing, has_tag. rewrite H. reflexivity. Qed.

Lemma mutated_refl e : mutated e e.
Proof. unfold mutated. auto 10. Qed.

Lemma mutated_trans e1 e2 e3 : mutated e1 e2 -> mutated e2 e3 -> mutated e1 e3.
Proof.
  intros (Hi & Ht & Hg & Ha & Hs) (Hi' & Ht' & Hg' & Ha' & Hs').
  unfold mutated. repeat split; try congruence.
  rewrite (is_pedestrian_way_tags e1 e2 Ht), (is_crossing_tags e1 e2 Ht) in Hs'.
  destruct Hs' as [Hs' | [Hs' | Hs']]; [| auto | auto].
  rewrite Hs'. exact Hs.
Qed.

Lemma mutated_width e w : mutated e (with_width e w).
Proof. unfold mutated. simpl. auto 10. Qed.

Lemma mutated_traffic e : mutated e (with_space_type e traffic_area).
Proof. unfold mutated. simpl. auto 10. Qed.

Lemma mutated_walking e :
  is_pedestrian_way e = true -> is_crossing e = false ->
  mutated e (with_space_type e walking_area).
Proof. intros Hp Hc. unfold mutated. simpl. auto 10. Qed.

Lemma extends_refl h : extends h h.
Proof. intros l e H. exists e. split; [exact H | apply mutated_refl]. Qed.

Lemma extends_trans h1 h2 h3 : extends h1 h2 -> extends h2 h3 -> extends h1 h3.
Proof.
  intros H12 H23 l e H. destruct (H12 l e H) as (e2 & H2 & M2).
  destruct (H23 l e2 H2) as (e3 & H3 & M3).
  exists e3. split; [exact H3 | exact (mutated_trans _ _ _ M2 M3)].
Qed.

Lemma extends_insert (h : heap) l e e' :
  h !! l = Some e -> mutated e e' -> extends h (<[l := e']> h).
Proof.
  intros H Hm l0 e0 H0. destruct (decide (l = l0)) as [-> | Hne].
  - rewrite lookup_insert_eq. exists e'. split; [reflexivity |]. congruence.
  - rewrite lookup_insert_ne by exact Hne. exists e0. split; [exact H0 | apply mutated_refl].
Qed.

Lemma extends_alloc (h : heap) l e : h !! l = None -> extends h (<[l := e]> h).
Proof.
  intros H l0 e0 H0. assert (l <> l0) by congruence.
  rewrite lookup_insert_ne by assumption. exists e0. split; [exact H0 | apply mutated_refl].
Qed.

Lemma keeps_ret {A} (a : A) h : keeps (ret a) h.
Proof. apply extends_refl. Qed.

Lemma keeps_lift {A} (r : result A) h : keeps (lift r) h.
Proof. apply extends_refl. Qed.

Lemma keeps_read l h : keeps (read l) h.
Proof. unfold keeps. rewrite read_heap. apply extends_refl. Qed.

Lemma keeps_bind {A B} (m : M A) (k : A -> M B) h :
  keeps m h ->
  (forall a h1, m h = (h1, Ok a) -> keeps (k a) h1) ->
  keeps (bind m k) h.
Proof.
  unfold keeps, bind. intros Hm Hk. destruct (m h) as [h1 [a | e]] eqn:E; simpl in *.
  - eapply extends_trans; [exact Hm | apply Hk; reflexivity].
  - exact Hm.
Qed.

Lemma keeps_modify l f h :
  (forall e, h !! l = Some e -> mutated e (f e)) -> keeps (modify l f) h.
Proof.
  intros Hf. unfold keeps, modify. destruct (h !! l) as [e |] eqn:E; simpl.
  - eapply extends_insert; eauto.
  - apply extends_refl.
Qed.

Lemma keeps_for_each {A B} (body : B -> A -> M B) :
  (forall acc x h, keeps (body acc x) h) ->
  forall l acc h, keeps (for_each body acc l) h.
Proof.
  intros Hb l. induction l as [| x r IH]; intros acc h; simpl.
  - apply keeps_ret.
  - apply keeps_bind; [apply Hb | intros; apply IH].
Qed.

(** The comprehensions read the store and leave it as it is. *)
Lemma filter_elements_heap p l h : fst (filter_elements p l h) = h.
Proof.
  revert h. induction l as [| x r IH]; intros h; simpl; [reflexivity |].
  unfold bind, read. destruct (h !! x) as [e |]; [| reflexivity].
  specialize (IH h). destruct (filter_elements p r h) as [h1 [r' | ex]]; simpl in *; exact IH.
Qed.

Lemma filter_elements_ok p l h h' r :
  filter_elements p l h = (h', Ok r) ->
  h' = h /\ forall x, x ∈ r <-> x ∈ l /\ exists e, h !! x = Some e /\ p e = true.
Proof.
  revert h' r. induction l as [| x l' IH]; intros h' r H; simpl in H.
  - inversion H; subst. split; [reflexivity |]. intros x. split.
    + intros Hx. inversion Hx.
    + intros [Hx _]. inversion Hx.
  - apply bind_ok in H as (e & h1 & Hr & H). apply read_ok in Hr as [-> He].
    apply bind_ok in H as (r' & h2 & Hf & H). apply IH in Hf as [-> Hf].
    inversion H; subst. split; [reflexivity |]. intros y.
    destruct (p e) eqn:Hp.
    + rewrite !elem_of_cons, Hf. split.
      * intros [-> | [Hy Hy']]; [split; [auto | eauto] | split; [auto | exact Hy']].
      * intros [[-> | Hy] Hy']; [auto | right; auto].
    + rewrite elem_of_cons, Hf. split.
      * intros [Hy Hy']. split; [auto | exact Hy'].
      * intros [[-> | Hy] (e0 & He0 & Hp0)]; [congruence | split; eauto].
Qed.

Lemma geoms_of_heap l h : fst (geoms_of l h) = h.
Proof.
  revert h. induction l as [| x r IH]; intros h; simpl; [reflexivity |].
  unfold bind, read. destruct (h !! x) as [e |]; [| reflexivity].
  specialize (IH h). destruct (geoms_of r h) as [h1 [r' | ex]]; simpl in *; exact IH.
Qed.

Lemma keeps_filter_elements p l h : keeps (filter_elements p l) h.
Proof. unfold keeps. rewrite filter_elements_heap. apply extends_refl. Qed.

Lemma keeps_geoms_of l h : keeps (geoms_of l) h.
Proof. unfold keeps. rewrite geoms_of_heap. apply extends_refl. Qed.

(** ** The primitives of the Polygonizer *)

Section TrafficAreaFacts.
Context {py_round : PyRound}.
Variable float_str : string -> option Q.
Variable local_var : local_variables.

Lemma set_road_width_eq l (h : heap) e hdw cdw :
  h !! l = Some e ->
  set_road_width float_str local_var l hdw cdw h =
    match resolve_width float_str local_var e hdw cdw with
    | Ok w => (<[l := with_width e w]> h, Ok tt)
    | Raise ex => (h, Raise ex)
    end.
Proof.
  intros H. unfold set_road_width, resolve_width.
  destruct (set_defaults hdw cdw) as [hd cd].
  rewrite (bind_eq _ _ _ _ _ (read_eq _ _ _ H)).
  destruct (has_tag e "width:carriageway");
    [| destruct (has_tag e "width")];
    unfold bind, lift;
    match goal with
    | |- context [match ?r with Ok _ => _ | Raise _ => _ end] =>
        destruct r as [w | ex];
          [apply (modify_eq l (fun o => with_width o w) h e H) | reflexivity]
    end.
Qed.

Lemma set_road_width_dangling l (h : heap) hdw cdw :
  h !! l = None ->
  set_road_width float_str local_var l hdw cdw h = (h, Raise ReferenceError).
Proof.
  intros H. unfold set_road_width. destruct (set_defaults hdw cdw) as [hd cd].
  unfold bind, read. rewrite H. reflexivity.
Qed.

Lemma buffer_osm_element_eq l (h : heap) e :
  h !! l = Some e ->
  buffer_osm_element l h =
    match width e with
    | Some w => (<[fresh (dom h) := with_geom e (buffered_geom e w)]> h, Ok (fresh (dom h)))
    | None => (h, Raise TypeError)
    end.
Proof.
  intros H. unfold buffer_osm_element.
  rewrite (bind_eq _ _ _ _ _ (read_eq _ _ _ H)).
  destruct (width e) as [w |]; [| reflexivity].
  unfold bind at 1. unfold lift.
  rewrite (bind_eq _ _ _ _ _ (deepcopy_eq _ _ _ H)).
  assert (Hne : fresh (dom h) <> l).
  { intros Heq. pose proof (fresh_loc_unused h) as Hf. rewrite Heq in Hf. congruence. }
  assert (H1 : <[fresh (dom h) := e]> h !! l = Some e).
  { rewrite lookup_insert_ne by exact Hne. exact H. }
  rewrite (bind_eq _ _ _ _ _ (read_eq _ _ _ H1)).
  assert (H2 : <[fresh (dom h) := e]> h !! fresh (dom h) = Some e)
    by apply lookup_insert_eq.
  rewrite (bind_eq _ _ _ _ _ (modify_eq _ _ _ _ H2)).
  rewrite insert_insert_eq. reflexivity.
Qed.

Lemma buffer_osm_element_dangling l (h : heap) :
  h !! l = None -> buffer_osm_element l h = (h, Raise ReferenceError).
Proof. intros H. unfold buffer_osm_element, bind, read. rewrite H. reflexivity. Qed.

Lemma keeps_set_road_width l hdw cdw h :
  keeps (set_road_width float_str local_var l hdw cdw) h.
Proof.
  unfold keeps. destruct (h !! l) as [e |] eqn:E.
  - rewrite (set_road_width_eq _ _ _ _ _ E).
    destruct (resolve_width float_str local_var e hdw cdw) as [w | ex]; simpl.
    + eapply extends_insert; [exact E | apply mutated_width].
    + apply extends_refl.
  - rewrite (set_road_width_dangling _ _ _ _ E). apply extends_refl.
Qed.

Lemma keeps_buffer_osm_element l h : keeps (buffer_osm_element l) h.
Proof.
  unfold keeps. destruct (h !! l) as [e |] eqn:E.
  - rewrite (buffer_osm_element_eq _ _ _ E). destruct (width e) as [w |]; simpl.
    + apply extends_alloc, fresh_loc_unused.
    + apply extends_refl.
  - rewrite (buffer_osm_element_dangling _ _ E). apply extends_refl.
Qed.

Lemma keeps_modify_width l w h : keeps (modify l (fun o => with_width o w)) h.
Proof. apply keeps_modify. intros e _. apply mutated_width. Qed.

Lemma keeps_modify_traffic l h :
  keeps (modify l (fun o => with_space_type o traffic_area)) h.
Proof. apply keeps_modify. intros e _. apply mutated_traffic. Qed.

Lemma keeps_buffer_list_of_elements l size join cap h :
  keeps (buffer_list_of_elements l size join cap) h.
Proof.
  unfold buffer_list_of_elements. apply keeps_for_each. clear.
  intros acc x h. unfold keeps.
  destruct (h !! x) as [e |] eqn:E.
  - rewrite (bind_eq _ _ _ _ _ (deepcopy_eq _ _ _ E)).
    assert (Hne : fresh (dom h) <> x).
    { intros Heq. pose proof (fresh_loc_unused h) as Hf. rewrite Heq in Hf. congruence. }
    assert (H1 : <[fresh (dom h) := e]> h !! x = Some e).
    { rewrite lookup_insert_ne by exact Hne. exact E. }
    rewrite (bind_eq _ _ _ _ _ (read_eq _ _ _ H1)).
    assert (H2 : <[fresh (dom h) := e]> h !! fresh (dom h) = Some e)
      by apply lookup_insert_eq.
    rewrite (bind_eq _ _ _ _ _ (modify_eq _ _ _ _ H2)).
    rewrite insert_insert_eq. simpl. apply extends_alloc, fresh_loc_unused.
  - unfold bind, deepcopy. rewrite E. apply extends_refl.
Qed.

(** *** The highway pass *)

(** The body of the loop of [polygonize_highways]. *)
Lemma keeps_highway_body hdw cdw acc l h :
  keeps
    (do e <- read l;
     if is_pedestrian_way e then
       if negb (is_crossing e) then
         exec modify l (fun o => with_space_type o walking_area);
         ret acc
       else ret acc
     else if is_irrelevant_highway e then
       exec modify l (fun o => with_space_type o traffic_area);
       ret acc
     else
       do acc' <-
         (if is_linestring e then
            exec set_road_width float_str local_var l hdw cdw;
            do p <- buffer_osm_element l;
            ret (acc ++ [p])
          else ret acc);
       exec modify l (fun o => with_space_type o traffic_area);
       ret acc') h.
Proof.
  apply keeps_bind; [apply keeps_read |].
  intros e h1 Hr. apply read_ok in Hr as [-> He].
  destruct (is_pedestrian_way e) eqn:Hp.
  - destruct (is_crossing e) eqn:Hc; simpl; [apply keeps_ret |].
    apply keeps_bind; [| intros; apply keeps_ret].
    apply keeps_modify. intros e0 He0. assert (e0 = e) by congruence. subst e0.
    apply mutated_walking; assumption.
  - destruct (is_irrelevant_highway e).
    + apply keeps_bind; [apply keeps_modify_traffic | intros; apply keeps_ret].
    + apply keeps_bind.
      * destruct (is_linestring e); [| apply keeps_ret].
        apply keeps_bind; [apply keeps_set_road_width |].
        intros _ h2 _. apply keeps_bind; [apply keeps_buffer_osm_element |].
        intros; apply keeps_ret.
      * intros acc' h2 _.
        apply keeps_bind; [apply keeps_modify_traffic | intros; apply keeps_ret].
Qed.

Lemma keeps_polygonize_highways els hdw cdw h :
  keeps (polygonize_highways float_str local_var els hdw cdw) h.
Proof.
  unfold polygonize_highways. apply keeps_bind; [apply keeps_filter_elements |].
  intros hs h1 _. apply keeps_for_each. intros. apply keeps_highway_body.
Qed.

(** *** The railway pass *)

(** The body of the loop of [polygonize_railways]. *)
Lemma keeps_railway_body (tg tb rg rb : Q) acc l h :
  keeps
    (do e <- read l;
     exec (if get_is (tags e !! "railway") "tram" then
             modify l (fun o => with_width o (tg + tb)%Q)
           else if get_is (tags e !! "railway") "rail" then
             modify l (fun o => with_width o (rg + rb)%Q)
           else ret tt);
     do acc' <-
       (if in_list (tags e !! "railway") ["tram"; "rail"] then
          do p <- buffer_osm_element l;
          ret (acc ++ [p])
        else ret acc);
     exec (if negb (get_is (tags e !! "railway") "platform") then
             modify l (fun o => with_space_type o traffic_area)
           else ret tt);
     ret acc') h.
Proof.
  apply keeps_bind; [apply keeps_read |]. intros e h1 _.
  apply keeps_bind.
  { destruct (get_is (tags e !! "railway") "tram"); [apply keeps_modify_width |].
    destruct (get_is (tags e !! "railway") "rail"); [apply keeps_modify_width |].
    apply keeps_ret. }
  intros _ h2 _. apply keeps_bind.
  { destruct (in_list (tags e !! "railway") ["tram"; "rail"]); [| apply keeps_ret].
    apply keeps_bind; [apply keeps_buffer_osm_element | intros; apply keeps_ret]. }
  intros acc' h3 _. apply keeps_bind; [| intros; apply keeps_ret].
  destruct (negb (get_is (tags e !! "railway") "platform"));
    [apply keeps_modify_traffic | apply keeps_ret].
Qed.

Lemma keeps_polygonize_railways els tg tb rg rb h :
  keeps (polygonize_railways els tg tb rg rb) h.
Proof.
  unfold polygonize_railways. apply keeps_bind; [apply keeps_filter_elements |].
  intros rs h1 _. apply keeps_for_each. intros. apply keeps_railway_body.
Qed.

Lemma keeps_get_cropper_geometries els areas buildings pw bw h :
  keeps (get_cropper_geometries els areas buildings pw bw) h.
Proof.
  unfold get_cropper_geometries.
  apply keeps_bind; [apply keeps_filter_elements | intros ? ? _].
  apply keeps_bind; [apply keeps_buffer_list_of_elements | intros ? ? _].
  apply keeps_bind; [apply keeps_buffer_list_of_elements | intros ? ? _].
  apply keeps_bind; [apply keeps_filter_elements | intros ? ? _].
  apply keeps_bind; [apply keeps_geoms_of | intros ? ? _].
  apply keeps_bind; [apply keeps_geoms_of | intros ? ? _].
  apply keeps_bind; [apply keeps_geoms_of | intros ? ? _].
  apply keeps_ret.
Qed.
End TrafficAreaFacts.

(** ** When the call returns *)

Lemma extends_allocated h h' x : extends h h' -> is_Some (h !! x) -> is_Some (h' !! x).
Proof. intros He [e Hx]. destruct (He x e Hx) as (e' & Hx' & _). eauto. Qed.

Lemma filter_elements_returns p l (h : heap) :
  (forall x, x ∈ l -> is_Some (h !! x)) ->
  exists r, filter_elements p l h = (h, Ok r).
Proof.
  induction l as [| x l IH]; intros Hall; simpl; [eexists; reflexivity |].
  destruct (Hall x (list_elem_of_here _ _)) as [e He].
  destruct IH as [r Hr]; [intros y Hy; apply Hall, list_elem_of_further, Hy |].
  rewrite (bind_eq _ _ _ _ _ (read_eq _ _ _ He)), (bind_eq _ _ _ _ _ Hr).
  eexists. reflexivity.
Qed.

Lemma geoms_of_returns l (h : heap) :
  (forall x, x ∈ l -> is_Some (h !! x)) ->
  exists r, geoms_of l h = (h, Ok r).
Proof.
  induction l as [| x l IH]; intros Hall; simpl; [eexists; reflexivity |].
  destruct (Hall x (list_elem_of_here _ _)) as [e He].
  destruct IH as [r Hr]; [intros y Hy; apply Hall, list_elem_of_further, Hy |].
  rewrite (bind_eq _ _ _ _ _ (read_eq _ _ _ He)), (bind_eq _ _ _ _ _ Hr).
  eexists. reflexivity.
Qed.

(** A loop returns when its body returns on every member of the list and
    maintains an invariant of the accumulator and the store. *)
Lemma for_each_returns {A B} (body : B -> A -> M B) (l : list A) (I : B -> heap -> Prop) :
  (forall acc x h, x ∈ l -> I acc h ->
     exists h' acc', body acc x h = (h', Ok acc') /\ I acc' h') ->
  forall acc h, I acc h ->
    exists h' r, for_each body acc l h = (h', Ok r) /\ I r h'.
Proof.
  induction l as [| x l IH]; intros Hb acc h HI; simpl.
  - exists h, acc. split; [reflexivity | exact HI].
  - destruct (Hb acc x h (list_elem_of_here _ _) HI) as (h1 & acc1 & Hx & HI1).
    rewrite (bind_eq _ _ _ _ _ Hx). apply IH; [| exact HI1].
    intros acc' y h' Hy. apply Hb, list_elem_of_further, Hy.
Qed.

Lemma collecting_step h0 acc h h' acc' :
  collecting h0 acc h -> extends h h' ->
  acc' = acc \/ (exists p, acc' = acc ++ [p] /\ is_Some (h' !! p)) ->
  collecting h0 acc' h'.
Proof.
  intros [He Ha] Hx Hacc. split; [exact (extends_trans _ _ _ He Hx) |].
  intros p Hp. destruct Hacc as [-> | (q & -> & Hq)].
  - apply (extends_allocated h h' p Hx), Ha, Hp.
  - apply elem_of_app in Hp as [Hp | Hp].
    + apply (extends_allocated h h' p Hx), Ha, Hp.
    + apply list_elem_of_singleton in Hp. subst p. exact Hq.
Qed.

Section Returns.
Context {py_round : PyRound}.
Variable float_str : string -> option Q.
Variable local_var : local_variables.

Lemma resolve_width_tags e e' hdw cdw :
  tags e' = tags e ->
  resolve_width float_str local_var e' hdw cdw = resolve_width float_str local_var e hdw cdw.
Proof.
  intros H. unfold resolve_width, estimate_road_width, set_default_highway_width,
    adapt_to_lanes, add_cycleway, add_parking, has_tag.
  rewrite H. reflexivity.
Qed.

Lemma needs_road_width_mutated e e' : mutated e e' -> needs_road_width e' = needs_road_width e.
Proof.
  intros (_ & Ht & Hg & _). unfold needs_road_width, has_tag, is_linestring.
  rewrite (is_pedestrian_way_tags _ _ Ht). unfold is_irrelevant_highway. rewrite Ht, Hg.
  reflexivity.
Qed.

(** Buffering an element whose width is set returns a new object. *)
Lemma buffer_osm_element_returns l (h : heap) e w :
  h !! l = Some e -> width e = Some w ->
  exists p h', buffer_osm_element l h = (h', Ok p) /\ p <> l /\
    is_Some (h' !! p) /\ h' !! l = Some e.
Proof.
  intros He Hw. rewrite (buffer_osm_element_eq _ _ _ He), Hw.
  pose proof (fresh_loc_unused h) as Hf.
  assert (Hne : fresh (dom h) <> l) by congruence.
  eexists. eexists. split; [reflexivity |]. split; [exact Hne |]. split.
  - rewrite lookup_insert_eq. eauto.
  - rewrite lookup_insert_ne by exact Hne. exact He.
Qed.

Lemma highway_body_returns hdw cdw acc l (h : heap) e :
  h !! l = Some e ->
  (needs_road_width e = true ->
   is_ok (resolve_width float_str local_var e hdw cdw) = true) ->
  has_tag e "highway" = true ->
  exists h' acc',
    (do e <- read l;
     if is_pedestrian_way e then
       if negb (is_crossing e) then
         exec modify l (fun o => with_space_type o walking_area);
         ret acc
       else ret acc
     else if is_irrelevant_highway e then
       exec modify l (fun o => with_space_type o traffic_area);
       ret acc
     else
       do acc' <-
         (if is_linestring e then
            exec set_road_width float_str local_var l hdw cdw;
            do p <- buffer_osm_element l;
            ret (acc ++ [p])
          else ret acc);
       exec modify l (fun o => with_space_type o traffic_area);
       ret acc') h = (h', Ok acc') /\
    (acc' = acc \/ exists p, acc' = acc ++ [p] /\ is_Some (h' !! p)).
Proof.
  intros He Hres Hhw. rewrite (bind_eq _ _ _ _ _ (read_eq _ _ _ He)).
  unfold needs_road_width in Hres. rewrite Hhw in Hres. simpl in Hres.
  destruct (is_pedestrian_way e).
  - destruct (is_crossing e); simpl.
    + eexists. eexists. split; [reflexivity | auto].
    + rewrite (bind_eq _ _ _ _ _ (modify_eq l (fun o => with_space_type o walking_area) h e He)).
      eexists. eexists. split; [reflexivity | auto].
  - destruct (is_irrelevant_highway e); simpl in Hres.
    + rewrite (bind_eq _ _ _ _ _ (modify_eq l (fun o => with_space_type o traffic_area) h e He)).
      eexists. eexists. split; [reflexivity | auto].
    + destruct (is_linestring e).
      * specialize (Hres eq_refl).
        pose proof (set_road_width_eq float_str local_var l h e hdw cdw He) as Hs.
        destruct (resolve_width float_str local_var e hdw cdw) as [w | ex];
          [| discriminate Hres].
        assert (H1 : <[l := with_width e w]> h !! l = Some (with_width e w))
          by apply lookup_insert_eq.
        destruct (buffer_osm_element_returns l _ _ w H1 eq_refl)
          as (p & h2 & Hb & Hne & Hp & H2).
        assert (Hinner :
                  (exec set_road_width float_str local_var l hdw cdw;
                   do p <- buffer_osm_element l;
                   ret (acc ++ [p])) h = (h2, Ok (acc ++ [p]))).
        { rewrite (bind_eq _ _ _ _ _ Hs), (bind_eq _ _ _ _ _ Hb). reflexivity. }
        rewrite (bind_eq _ _ _ _ _ Hinner).
        rewrite (bind_eq _ _ _ _ _
                   (modify_eq l (fun o => with_space_type o traffic_area) h2 _ H2)).
        eexists. eexists. split; [reflexivity |]. right. exists p. split; [reflexivity |].
        rewrite lookup_insert_ne by congruence. exact Hp.
      * assert (Hinner : ret acc h = (h, Ok acc)) by reflexivity.
        rewrite (bind_eq _ _ _ _ _ Hinner).
        rewrite (bind_eq _ _ _ _ _
                   (modify_eq l (fun o => with_space_type o traffic_area) h e He)).
        eexists. eexists. split; [reflexivity | auto].
Qed.

Lemma polygonize_highways_returns els buildings hdw cdw (h : heap) :
  well_formed_input float_str local_var hdw cdw els buildings h ->
  exists h1 hs,
    polygonize_highways float_str local_var els hdw cdw h = (h1, Ok hs) /\
    collecting h hs h1.
Proof.
  intros [Hels _]. unfold polygonize_highways.
  destruct (filter_elements_returns (fun e => has_tag e "highway") els h) as [r Hr].
  { intros x Hx. destruct (Hels x Hx) as (e & He & _). eauto. }
  rewrite (bind_eq _ _ _ _ _ Hr).
  apply filter_elements_ok in Hr as [_ Hr].
  apply (for_each_returns _ r (collecting h)).
  - intros acc x h' Hx Hc. apply Hr in Hx as (Hx & e0 & He0 & Hhw0).
    destruct (Hels x Hx) as (e0' & He0' & Hres0).
    assert (e0' = e0) by congruence. subst e0'.
    destruct Hc as [Hext Hacc]. destruct (Hext x e0 He0) as (e & He & Hm).
    pose proof Hm as (_ & Ht & _).
    destruct (highway_body_returns hdw cdw acc x h' e He) as (h2 & acc' & Hb & Hacc').
    + rewrite (needs_road_width_mutated _ _ Hm), (resolve_width_tags _ _ _ _ Ht). exact Hres0.
    + unfold has_tag in *. rewrite Ht. exact Hhw0.
    + exists h2, acc'. split; [exact Hb |].
      apply (collecting_step h acc h' h2 acc' (conj Hext Hacc)); [| exact Hacc'].
      pose proof (keeps_highway_body float_str local_var hdw cdw acc x h') as K.
      unfold keeps in K. rewrite Hb in K. exact K.
  - split; [apply extends_refl |]. intros p Hp. inversion Hp.
Qed.

Lemma railway_body_returns (tg tb rg rb : Q) acc l (h : heap) e :
  h !! l = Some e ->
  exists h' acc',
    (do e <- read l;
     exec (if get_is (tags e !! "railway") "tram" then
             modify l (fun o => with_width o (tg + tb)%Q)
           else if get_is (tags e !! "railway") "rail" then
             modify l (fun o => with_width o (rg + rb)%Q)
           else ret tt);
     do acc' <-
       (if in_list (tags e !! "railway") ["tram"; "rail"] then
          do p <- buffer_osm_element l;
          ret (acc ++ [p])
        else ret acc);
     exec (if negb (get_is (tags e !! "railway") "platform") then
             modify l (fun o => with_space_type o traffic_area)
           else ret tt);
     ret acc') h = (h', Ok acc') /\
    (acc' = acc \/ exists p, acc' = acc ++ [p] /\ is_Some (h' !! p)).
Proof.
  intros He. rewrite (bind_eq _ _ _ _ _ (read_eq _ _ _ He)).
  assert (Hbuffered : forall w,
             exists h' acc',
               (do acc' <- (do p <- buffer_osm_element l; ret (acc ++ [p]));
                exec (if negb (get_is (tags e !! "railway") "platform") then
                        modify l (fun o => with_space_type o traffic_area)
                      else ret tt);
                ret acc') (<[l := with_width e w]> h) = (h', Ok acc') /\
               (acc' = acc \/ exists p, acc' = acc ++ [p] /\ is_Some (h' !! p))).
  { intros w.
    assert (H1 : <[l := with_width e w]> h !! l = Some (with_width e w))
      by apply lookup_insert_eq.
    destruct (buffer_osm_element_returns l _ _ w H1 eq_refl) as (p & h2 & Hb & Hne & Hp & H2).
    assert (Hinner : (do p <- buffer_osm_element l; ret (acc ++ [p]))
                       (<[l := with_width e w]> h) = (h2, Ok (acc ++ [p]))).
    { rewrite (bind_eq _ _ _ _ _ Hb). reflexivity. }
    rewrite (bind_eq _ _ _ _ _ Hinner).
    destruct (negb (get_is (tags e !! "railway") "platform")).
    - rewrite (bind_eq _ _ _ _ _
                 (modify_eq l (fun o => with_space_type o traffic_area) h2 _ H2)).
      eexists. eexists. split; [reflexivity |]. right. exists p. split; [reflexivity |].
      rewrite lookup_insert_ne by congruence. exact Hp.
    - eexists. eexists. split; [reflexivity |]. right. exists p. split; [reflexivity | exact Hp]. }
  assert (Hplain :
            in_list (tags e !! "railway") ["tram"; "rail"] = false ->
            exists h' acc',
              (do acc' <- (if in_list (tags e !! "railway") ["tram"; "rail"] then
                             do p <- buffer_osm_element l;
                             ret (acc ++ [p])
                           else ret acc);
               exec (if negb (get_is (tags e !! "railway") "platform") then
                       modify l (fun o => with_space_type o traffic_area)
                     else ret tt);
               ret acc') h = (h', Ok acc') /\
              (acc' = acc \/ exists p, acc' = acc ++ [p] /\ is_Some (h' !! p))).
  { intros Hin. rewrite Hin.
    assert (Hinner : ret acc h = (h, Ok acc)) by reflexivity.
    rewrite (bind_eq _ _ _ _ _ Hinner).
    destruct (negb (get_is (tags e !! "railway") "platform")).
    - rewrite (bind_eq _ _ _ _ _
                 (modify_eq l (fun o => with_space_type o traffic_area) h e He)).
      eexists. eexists. split; [reflexivity | auto].
    - eexists. eexists. split; [reflexivity | auto]. }
  destruct (tags e !! "railway") as [s |] eqn:Hs; simpl in *.
  - destruct (String.eqb s "tram") eqn:Htram; simpl in *.
    + rewrite (bind_eq _ _ _ _ _ (modify_eq l (fun o => with_width o (tg + tb)%Q) h e He)).
      apply Hbuffered.
    + destruct (String.eqb s "rail") eqn:Hrail; simpl in *.
      * rewrite (bind_eq _ _ _ _ _ (modify_eq l (fun o => with_width o (rg + rb)%Q) h e He)).
        apply Hbuffered.
      * assert (Hskip : ret tt h = (h, Ok tt)) by reflexivity.
        rewrite (bind_eq _ _ _ _ _ Hskip). apply Hplain. reflexivity.
  - assert (Hskip : ret tt h = (h, Ok tt)) by reflexivity.
    rewrite (bind_eq _ _ _ _ _ Hskip). apply Hplain. reflexivity.
Qed.

Lemma polygonize_railways_returns els tg tb rg rb (h : heap) :
  (forall x, x ∈ els -> is_Some (h !! x)) ->
  exists h1 rs,
    polygonize_railways els tg tb rg rb h = (h1, Ok rs) /\ collecting h rs h1.
Proof.
  intros Hels. unfold polygonize_railways.
  destruct (filter_elements_returns (fun e => is_linestring e && has_tag e "railway") els h)
    as [r Hr]; [exact Hels |].
  rewrite (bind_eq _ _ _ _ _ Hr).
  apply filter_elements_ok in Hr as [_ Hr].
  apply (for_each_returns _ r (collecting h)).
  - intros acc x h' Hx Hc. apply Hr in Hx as (Hx & e0 & He0 & _).
    destruct Hc as [Hext Hacc]. destruct (Hext x e0 He0) as (e & He & _).
    destruct (railway_body_returns tg tb rg rb acc x h' e He) as (h2 & acc' & Hb & Hacc').
    exists h2, acc'. split; [exact Hb |].
    apply (collecting_step h acc h' h2 acc' (conj Hext Hacc)); [| exact Hacc'].
    pose proof (keeps_railway_body tg tb rg rb acc x h') as K.
    unfold keeps in K. rewrite Hb in K. exact K.
  - split; [apply extends_refl |]. intros p Hp. inversion Hp.
Qed.

Lemma buffer_list_of_elements_returns l size join cap (h : heap) :
  (forall x, x ∈ l -> is_Some (h !! x)) ->
  exists h1 bs,
    buffer_list_of_elements l size join cap h = (h1, Ok bs) /\ collecting h bs h1.
Proof.
  intros Hl. unfold buffer_list_of_elements.
  apply (for_each_returns _ l (collecting h)).
  - intros acc x h' Hx [Hext Hacc].
    destruct (extends_allocated h h' x Hext (Hl x Hx)) as [e He].
    pose proof (fresh_loc_unused h') as Hf.
    assert (Hne : fresh (dom h') <> x) by congruence.
    rewrite (bind_eq _ _ _ _ _ (deepcopy_eq _ _ _ He)).
    assert (H1 : <[fresh (dom h') := e]> h' !! x = Some e).
    { rewrite lookup_insert_ne by exact Hne. exact He. }
    rewrite (bind_eq _ _ _ _ _ (read_eq _ _ _ H1)).
    assert (H2 : <[fresh (dom h') := e]> h' !! fresh (dom h') = Some e)
      by apply lookup_insert_eq.
    rewrite (bind_eq _ _ _ _ _
               (modify_eq (fresh (dom h'))
                  (fun o => with_geom o (buffer (geom e) size cap join)) _ _ H2)).
    rewrite insert_insert_eq.
    eexists. eexists. split; [reflexivity |].
    apply (collecting_step h acc h' _ _ (conj Hext Hacc)).
    + apply extends_alloc, Hf.
    + right. eexists. split; [reflexivity |]. rewrite lookup_insert_eq. eauto.
  - split; [apply extends_refl |]. intros p Hp. inversion Hp.
Qed.

Lemma get_cropper_geometries_returns els areas buildings pw bw (h : heap) :
  (forall x, x ∈ els -> is_Some (h !! x)) ->
  (forall b, b ∈ buildings -> is_Some (h !! b)) ->
  exists h' croppers,
    get_cropper_geometries els areas buildings pw bw h = (h', Ok croppers) /\ extends h h'.
Proof.
  intros Hels Hbs. unfold get_cropper_geometries.
  destruct (filter_elements_returns is_pedestrian_way els h Hels) as [ws Hws].
  rewrite (bind_eq _ _ _ _ _ Hws). apply filter_elements_ok in Hws as [_ Hws].
  destruct (buffer_list_of_elements_returns ws (pw / 2)%Q JoinRound CapFlat h)
    as (h1 & wb & Hwb & Hext1 & Hal1).
  { intros x Hx. apply Hels, Hws, Hx. }
  rewrite (bind_eq _ _ _ _ _ Hwb).
  destruct (buffer_list_of_elements_returns buildings bw JoinMitre CapRound h1)
    as (h2 & bb & Hbb & Hext2 & Hal2).
  { intros b Hb. apply (extends_allocated h h1 b Hext1), Hbs, Hb. }
  rewrite (bind_eq _ _ _ _ _ Hbb).
  assert (Hext : extends h h2) by exact (extends_trans _ _ _ Hext1 Hext2).
  destruct (filter_elements_returns (fun e => get_is (tags e !! "railway") "platform") els h2)
    as [ps Hps].
  { intros x Hx. apply (extends_allocated h h2 x Hext), Hels, Hx. }
  rewrite (bind_eq _ _ _ _ _ Hps). apply filter_elements_ok in Hps as [_ Hps].
  destruct (geoms_of_returns wb h2) as [g1 Hg1].
  { intros x Hx. apply (extends_allocated h1 h2 x Hext2), Hal1, Hx. }
  rewrite (bind_eq _ _ _ _ _ Hg1).
  destruct (geoms_of_returns bb h2 Hal2) as [g2 Hg2].
  rewrite (bind_eq _ _ _ _ _ Hg2).
  destruct (geoms_of_returns ps h2) as [g3 Hg3].
  { intros x Hx. apply Hps in Hx as (_ & e & He & _). eauto. }
  rewrite (bind_eq _ _ _ _ _ Hg3).
  eexists. eexists. split; [reflexivity | exact Hext].
Qed.

(** The call returns on a well-formed input. *)
Lemma get_traffic_areas_as_polygons_returns
    els areas buildings hdw cdw tg tb rg rb pw bw (h : heap) :
  well_formed_input float_str local_var hdw cdw els buildings h ->
  exists h' g,
    get_traffic_areas_as_polygons float_str local_var els areas buildings hdw cdw
      tg tb rg rb pw bw h = (h', Ok g).
Proof.
  intros Hwf. pose proof Hwf as [Hels Hbs].
  unfold get_traffic_areas_as_polygons, get_traffic_areas.
  destruct (polygonize_highways_returns els buildings hdw cdw h Hwf)
    as (h1 & hs & Hhs & Hext1 & Hal1).
  destruct (polygonize_railways_returns els tg tb rg rb h1) as (h2 & rs & Hrs & Hext2 & Hal2).
  { intros x Hx. apply (extends_allocated h h1 x Hext1).
    destruct (Hels x Hx) as (e & He & _). eauto. }
  assert (Hta : (do hs <- polygonize_highways float_str local_var els hdw cdw;
                 do rs <- polygonize_railways els tg tb rg rb;
                 ret (hs ++ rs)) h = (h2, Ok (hs ++ rs))).
  { rewrite (bind_eq _ _ _ _ _ Hhs), (bind_eq _ _ _ _ _ Hrs). reflexivity. }
  rewrite (bind_eq _ _ _ _ _ Hta).
  assert (Hext : extends h h2) by exact (extends_trans _ _ _ Hext1 Hext2).
  destruct (get_cropper_geometries_returns els areas buildings pw bw h2)
    as (h3 & cg & Hcg & Hext3).
  { intros x Hx. apply (extends_allocated h h2 x Hext).
    destruct (Hels x Hx) as (e & He & _). eauto. }
  { intros b Hb. apply (extends_allocated h h2 b Hext), Hbs, Hb. }
  rewrite (bind_eq _ _ _ _ _ Hcg).
  destruct (geoms_of_returns (hs ++ rs) h3) as [gs Hgs].
  { intros x Hx. apply (extends_allocated h2 h3 x Hext3).
    apply elem_of_app in Hx as [Hx | Hx].
    - apply (extends_allocated h1 h2 x Hext2), Hal1, Hx.
    - apply Hal2, Hx. }
  rewrite (bind_eq _ _ _ _ _ Hgs).
  eexists. eexists. reflexivity.
Qed.
End Returns.

(** ** Which elements the Polygonizer classifies *)

Lemma classified_mutated e e1 e2 :
  mutated e e1 -> classified e e1 -> mutated e1 e2 -> classified e e2.
Proof.
  intros (_ & Ht & _) Hc (_ & _ & _ & _ & Hs). unfold classified in *.
  rewrite (is_pedestrian_way_tags e e1 Ht), (is_crossing_tags e e1 Ht) in Hs.
  destruct Hs as [Hs | [Hs | Hs]]; [rewrite Hs; exact Hc | auto | auto].
Qed.

Lemma classified_tags e e1 e' : tags e1 = tags e -> classified e1 e' -> classified e e'.
Proof.
  intros Ht Hc. unfold classified in *.
  rewrite (is_pedestrian_way_tags e e1 Ht), (is_crossing_tags e e1 Ht) in Hc. exact Hc.
Qed.

Lemma classified_labelled e e' :
  classified e e' ->
  space_type e' = Some walking_area \/ space_type e' = Some traffic_area.
Proof. intros [H | (H & _)]; auto. Qed.

(** A loop whose body classifies the element it visits classifies every
    element of the list it runs over. *)
Lemma for_each_classifies {B} (body : B -> loc -> M B) (cond : OsmElement -> bool) :
  (forall acc x h, keeps (body acc x) h) ->
  (forall e e', tags e' = tags e -> cond e' = cond e) ->
  (forall acc x h h' r e,
      body acc x h = (h', Ok r) -> h !! x = Some e -> cond e = true ->
      exists e', h' !! x = Some e' /\ classified e e') ->
  forall l acc h h' r x e,
    for_each body acc l h = (h', Ok r) -> x ∈ l -> h !! x = Some e -> cond e = true ->
    exists e', h' !! x = Some e' /\ classified e e'.
Proof.
  intros Hkeep Hcond Hbody l. induction l as [| y l IH]; intros acc h h' r x e Hrun Hx He Hc.
  - inversion Hx.
  - simpl in Hrun. apply bind_ok in Hrun as (acc' & h1 & Hb & Hrest).
    pose proof (Hkeep acc y h) as K. unfold keeps in K. rewrite Hb in K. simpl in K.
    destruct (K x e He) as (e1 & He1 & Hm1).
    destruct (decide (x = y)) as [-> | Hne].
    + destruct (Hbody _ _ _ _ _ _ Hb He Hc) as (e1' & He1' & Hcl).
      assert (e1' = e1) by congruence. subst e1'.
      pose proof (keeps_for_each body Hkeep l acc' h1) as K2.
      unfold keeps in K2. rewrite Hrest in K2. simpl in K2.
      destruct (K2 y e1 He1) as (e' & He' & Hm').
      exists e'. split; [exact He' | exact (classified_mutated _ _ _ Hm1 Hcl Hm')].
    + apply elem_of_cons in Hx as [Hx | Hx]; [contradiction |].
      destruct Hm1 as (Hi & Ht & Hrest1).
      assert (Hc1 : cond e1 = true) by (rewrite (Hcond e e1 Ht); exact Hc).
      destruct (IH _ _ _ _ _ _ Hrest Hx He1 Hc1) as (e' & He' & Hcl).
      exists e'. split; [exact He' | exact (classified_tags _ _ _ Ht Hcl)].
Qed.

Section Polygonizer.
Context {py_round : PyRound}.
Variable float_str : string -> option Q.
Variable local_var : local_variables.

Lemma polygonize_highways_classifies els hdw cdw h h' r x e :
  polygonize_highways float_str local_var els hdw cdw h = (h', Ok r) ->
  x ∈ els -> h !! x = Some e -> highway_classified e = true ->
  exists e', h' !! x = Some e' /\ classified e e'.
Proof.
  unfold polygonize_highways, highway_classified.
  intros Hrun Hx He Hc. apply andb_prop in Hc as [Hhw Hc].
  apply bind_ok in Hrun as (hs & h1 & Hf & Hrun).
  apply filter_elements_ok in Hf as [-> Hf].
  assert (Hxs : x ∈ hs) by (apply Hf; eauto).
  revert Hrun Hxs He Hc.
  apply (for_each_classifies _ (fun e => negb (is_pedestrian_way e && is_crossing e))).
  - intros. apply keeps_highway_body.
  - intros e0 e0' Ht.
    rewrite (is_pedestrian_way_tags _ _ Ht), (is_crossing_tags _ _ Ht). reflexivity.
  - clear. intros acc x h h' r e Hb He Hc.
    rewrite (bind_eq _ _ _ _ _ (read_eq _ _ _ He)) in Hb.
    destruct (is_pedestrian_way e) eqn:Hp.
    + destruct (is_crossing e) eqn:Hcr; [discriminate Hc |]. simpl in Hb.
      apply bind_ok in Hb as (u & h1 & Hm & Hb).
      apply modify_ok in Hm as (e0 & He0 & ->). inversion Hb; subst.
      assert (e0 = e) by congruence. subst e0.
      rewrite lookup_insert_eq. eexists. split; [reflexivity |].
      right. simpl. auto.
    + destruct (is_irrelevant_highway e).
      * apply bind_ok in Hb as (u & h1 & Hm & Hb).
        apply modify_ok in Hm as (e0 & He0 & ->). inversion Hb; subst.
        rewrite lookup_insert_eq. eexists. split; [reflexivity |]. left. reflexivity.
      * apply bind_ok in Hb as (acc' & h1 & _ & Hb).
        apply bind_ok in Hb as (u & h2 & Hm & Hb).
        apply modify_ok in Hm as (e0 & He0 & ->). inversion Hb; subst.
        rewrite lookup_insert_eq. eexists. split; [reflexivity |]. left. reflexivity.
Qed.

Lemma polygonize_railways_classifies els tg tb rg rb h h' r x e :
  polygonize_railways els tg tb rg rb h = (h', Ok r) ->
  x ∈ els -> h !! x = Some e -> railway_classified e = true ->
  exists e', h' !! x = Some e' /\ classified e e'.
Proof.
  unfold polygonize_railways, railway_classified.
  intros Hrun Hx He Hc. apply andb_prop in Hc as [Hlr Hc].
  apply bind_ok in Hrun as (rs & h1 & Hf & Hrun).
  apply filter_elements_ok in Hf as [-> Hf].
  assert (Hxs : x ∈ rs) by (apply Hf; eauto).
  revert Hrun Hxs He Hc.
  apply (for_each_classifies _ (fun e => negb (get_is (tags e !! "railway") "platform"))).
  - intros. apply keeps_railway_body.
  - intros e0 e0' Ht. rewrite Ht. reflexivity.
  - clear. intros acc x h h' r e Hb He Hc.
    rewrite (bind_eq _ _ _ _ _ (read_eq _ _ _ He)) in Hb.
    apply bind_ok in Hb as (u & h1 & _ & Hb).
    apply bind_ok in Hb as (acc' & h2 & _ & Hb).
    apply bind_ok in Hb as (u' & h3 & Hm & Hb).
    rewrite Hc in Hm.
    apply modify_ok in Hm as (e0 & He0 & ->). inversion Hb; subst.
    rewrite lookup_insert_eq. eexists. split; [reflexivity |]. left. reflexivity.
Qed.

(** What a returning call of [get_traffic_areas_as_polygons] has done to an
    element of its input. *)
Lemma polygonizer_effect els areas buildings hdw cdw tg tb rg rb pw bw h h' g x e :
  get_traffic_areas_as_polygons float_str local_var els areas buildings hdw cdw
    tg tb rg rb pw bw h = (h', Ok g) ->
  x ∈ els -> h !! x = Some e ->
  exists e', h' !! x = Some e' /\ mutated e e' /\
    (highway_classified e || railway_classified e = true -> classified e e').
Proof.
  unfold get_traffic_areas_as_polygons, get_traffic_areas.
  intros Hrun Hx He.
  apply bind_ok in Hrun as (tas & h2 & Hta & Hrun).
  apply bind_ok in Hta as (hs & h1 & Hhw & Hta).
  apply bind_ok in Hta as (rs & h2' & Hrw & Hta).
  inversion Hta; subst h2' tas; clear Hta.
  pose proof (keeps_polygonize_highways float_str local_var els hdw cdw h) as K1.
  pose proof (keeps_polygonize_railways els tg tb rg rb h1) as K2.
  pose proof (keeps_get_cropper_geometries els areas buildings pw bw h2) as K3.
  unfold keeps in K1, K2, K3. rewrite Hhw in K1. rewrite Hrw in K2. simpl in K1, K2.
  apply bind_ok in Hrun as (cg & h3 & Hcg & Hrun). rewrite Hcg in K3. simpl in K3.
  apply bind_ok in Hrun as (tg' & h4 & Hg & Hrun).
  pose proof (geoms_of_heap (hs ++ rs) h3) as K4. rewrite Hg in K4. simpl in K4. subst h4.
  inversion Hrun; subst h' g; clear Hrun.
  destruct (K1 x e He) as (e1 & He1 & M1).
  destruct (K2 x e1 He1) as (e2 & He2 & M2).
  destruct (K3 x e2 He2) as (e3 & He3 & M3).
  exists e3. split; [exact He3 |].
  split; [exact (mutated_trans _ _ _ (mutated_trans _ _ _ M1 M2) M3) |].
  intros Hc. apply orb_prop in Hc as [Hc | Hc].
  - destruct (polygonize_highways_classifies _ _ _ _ _ _ _ _ Hhw Hx He Hc)
      as (e1' & He1' & Hcl).
    assert (e1' = e1) by congruence. subst e1'.
    apply (classified_mutated e e1 e3 M1 Hcl (mutated_trans _ _ _ M2 M3)).
  - assert (Hc1 : railway_classified e1 = true).
    { destruct M1 as (_ & Ht & Hgm & _). unfold railway_classified, is_linestring, has_tag in *.
      rewrite Ht, Hgm. exact Hc. }
    destruct (polygonize_railways_classifies _ _ _ _ _ _ _ _ _ _ Hrw Hx He1 Hc1)
      as (e2' & He2' & Hcl).
    assert (e2' = e2) by congruence. subst e2'.
    destruct M1 as (Hi1 & Ht1 & Hrest1).
    apply (classified_tags e e1 e3 Ht1).
    apply (classified_mutated e1 e2 e3 M2 Hcl M3).
Qed.

(** C1 (as amended): after [get_traffic_areas_as_polygons] returns, every
    input element with a highway tag that is not a pedestrian way marked as
    a crossing, and every input element with a line geometry and a railway
    tag other than 'platform', has its [space_type] set to 'walking area'
    or 'traffic area'. *)
Theorem transport_elements_get_space_type
    els areas buildings hdw cdw tg tb rg rb pw bw h h' g x e :
  get_traffic_areas_as_polygons float_str local_var els areas buildings hdw cdw
    tg tb rg rb pw bw h = (h', Ok g) ->
  x ∈ els -> h !! x = Some e ->
  highway_classified e || railway_classified e = true ->
  exists e', h' !! x = Some e' /\
    (space_type e' = Some walking_area \/ space_type e' = Some traffic_area).
Proof.
  intros Hrun Hx He Hc.
  destruct (polygonizer_effect _ _ _ _ _ _ _ _ _ _ _ _ _ _ _ _ Hrun Hx He)
    as (e' & He' & _ & Hcl).
  exists e'. split; [exact He' | exact (classified_labelled _ _ (Hcl Hc))].
Qed.

(** C2 (as amended): an element whose highway tag is a pedestrian-way type
    and that is a crossing is never given 'walking area' by the
    Polygonizer: after the call its [space_type] is 'traffic area' or what
    it was before; it is 'traffic area' whenever the footway tag equals
    'crossing'. *)
Theorem pedestrian_crossing_not_walking_area
    els areas buildings hdw cdw tg tb rg rb pw bw h h' g x e :
  get_traffic_areas_as_polygons float_str local_var els areas buildings hdw cdw
    tg tb rg rb pw bw h = (h', Ok g) ->
  x ∈ els -> h !! x = Some e ->
  in_list (tags e !! "highway")
    ["footway"; "steps"; "path"; "platform"; "pedestrian"; "living_street"; "track"] = true ->
  is_crossing e = true ->
  exists e', h' !! x = Some e' /\
    (space_type e' = Some traffic_area \/ space_type e' = space_type e) /\
    (get_is (tags e !! "footway") "crossing" = true -> space_type e' = Some traffic_area).
Proof.
  intros Hrun Hx He Hhw Hcr.
  destruct (polygonizer_effect _ _ _ _ _ _ _ _ _ _ _ _ _ _ _ _ Hrun Hx He)
    as (e' & He' & Hm & Hcl).
  exists e'. split; [exact He' |]. split.
  - destruct Hm as (_ & _ & _ & _ & [Hs | [Hs | (_ & _ & Hs)]]); [auto | auto | congruence].
  - intros Hf.
    assert (Hp : is_pedestrian_way e = false).
    { unfold is_pedestrian_way. rewrite Hf. apply andb_false_r. }
    assert (Hh : has_tag e "highway" = true).
    { unfold has_tag. destruct (tags e !! "highway"); [reflexivity | discriminate Hhw]. }
    assert (Hc : highway_classified e || railway_classified e = true).
    { unfold highway_classified. rewrite Hh, Hp. reflexivity. }
    destruct (Hcl Hc) as [Hs | (_ & Hp' & _)]; [exact Hs | congruence].
Qed.
End Polygonizer.

(** C1, witness: a residential road is classified by the default call. *)
Lemma transport_elements_get_space_type_witness :
  exists e', fst (run_default [1%positive] (store_of residential_road)) !! 1%positive = Some e' /\
    (space_type e' = Some walking_area \/ space_type e' = Some traffic_area).
Proof.
  refine (transport_elements_get_space_type (py_round := py_round1) float_decimal default_local_var
            [1%positive] [] [] None None
            default_tram_gauge default_tram_buffer default_train_gauge default_train_buffer
            default_pedestrian_way_default_width
            default_non_traffic_space_around_buildings_default_width
            (store_of residential_road)
            (fst (run_default [1%positive] (store_of residential_road)))
            (match snd (run_default [1%positive] (store_of residential_road)) with
             | Ok g => g
             | Raise _ => sample_point
             end)
            1%positive residential_road _ _ _ _).
  - vm_compute. reflexivity.
  - apply list_elem_of_here.
  - vm_compute. reflexivity.
  - vm_compute. reflexivity.
Defined.

(** C1, counterexample: a footway carrying a crossing tag has a highway tag,
    the call returns, and its [space_type] is still unset. *)
Lemma crossing_footway_left_unset :
  has_tag footway_with_crossing_tag "highway" = true /\
  is_ok (snd (run_default [1%positive] (store_of footway_with_crossing_tag))) = true /\
  space_type <$> (fst (run_default [1%positive] (store_of footway_with_crossing_tag)) !! 1%positive)
    = Some None.
Proof. vm_compute. auto. Qed.

(** The same happens to a railway platform and to a railway element that is
    not a line. *)
Example platform_left_unset :
  has_tag railway_platform "railway" = true /\
  is_ok (snd (run_default [1%positive] (store_of railway_platform))) = true /\
  space_type <$> (fst (run_default [1%positive] (store_of railway_platform)) !! 1%positive)
    = Some None.
Proof. vm_compute. auto. Qed.

Example railway_node_left_unset :
  has_tag railway_station_node "railway" = true /\
  is_ok (snd (run_default [1%positive] (store_of railway_station_node))) = true /\
  space_type <$> (fst (run_default [1%positive] (store_of railway_station_node)) !! 1%positive)
    = Some None.
Proof. vm_compute. auto. Qed.

(** C2, witness: a footway with footway=crossing becomes traffic area. *)
Lemma pedestrian_crossing_not_walking_area_witness :
  exists e', fst (run_default [1%positive] (store_of footway_crossing)) !! 1%positive = Some e' /\
    (space_type e' = Some traffic_area \/ space_type e' = space_type footway_crossing) /\
    (get_is (tags footway_crossing !! "footway") "crossing" = true ->
     space_type e' = Some traffic_area).
Proof.
  refine (pedestrian_crossing_not_walking_area (py_round := py_round1)
      float_decimal default_local_var
            [1%positive] [] [] None None
            default_tram_gauge default_tram_buffer default_train_gauge default_train_buffer
            default_pedestrian_way_default_width
            default_non_traffic_space_around_buildings_default_width
            (store_of footway_crossing)
            (fst (run_default [1%positive] (store_of footway_crossing)))
            (match snd (run_default [1%positive] (store_of footway_crossing)) with
             | Ok g => g
             | Raise _ => sample_point
             end)
            1%positive footway_crossing _ _ _ _ _).
  - vm_compute. reflexivity.
  - apply list_elem_of_here.
  - vm_compute. reflexivity.
  - vm_compute. reflexivity.
  - vm_compute. reflexivity.
Defined.

(** C2, counterexample: highway=footway with crossing=marked is a
    pedestrian-way type and a crossing; the call returns and the element is
    not 'traffic area': its [space_type] is unset. *)
Lemma crossing_tag_footway_not_traffic_area :
  in_list (tags footway_with_crossing_tag !! "highway")
    ["footway"; "steps"; "path"; "platform"; "pedestrian"; "living_street"; "track"] = true /\
  is_crossing footway_with_crossing_tag = true /\
  is_ok (snd (run_default [1%positive] (store_of footway_with_crossing_tag))) = true /\
  space_type <$> (fst (run_default [1%positive] (store_of footway_with_crossing_tag)) !! 1%positive)
    <> Some (Some traffic_area).
Proof. vm_compute. repeat split; discriminate. Qed.

(** ** Width resolution *)

Section WidthResolution.
Variable float_str : string -> option Q.
Variable local_var : local_variables.

Lemma has_tag_some e k v : tags e !! k = Some v -> has_tag e k = true.
Proof. intros H. unfold has_tag. rewrite H. reflexivity. Qed.

Lemma has_tag_none e k : tags e !! k = None -> has_tag e k = false.
Proof. intros H. unfold has_tag. rewrite H. reflexivity. Qed.

(** C3: with a 'width:carriageway' tag the width is the parsed value of
    that tag, else with a 'width' tag the parsed value of that one,
    whatever the tables, the parking settings and the other tags are. *)
Theorem declared_width_is_used l (h : heap) e hdw cdw s v :
  h !! l = Some e ->
  tags e !! "width:carriageway" = Some s
  \/ (tags e !! "width:carriageway" = None /\ tags e !! "width" = Some s) ->
  float_str s = Some v ->
  set_road_width float_str local_var l hdw cdw h = (<[l := with_width e v]> h, Ok tt).
Proof.
  intros He Ht Hv. rewrite (set_road_width_eq _ _ _ _ _ _ _ He).
  unfold resolve_width. destruct (set_defaults hdw cdw) as [hd cd].
  destruct Ht as [Hc | [Hc Hw]].
  - rewrite (has_tag_some _ _ _ Hc), Hc. unfold py_float. rewrite Hv. reflexivity.
  - rewrite (has_tag_none _ _ Hc), (has_tag_some _ _ _ Hw), Hw.
    unfold py_float. rewrite Hv. reflexivity.
Qed.

Lemma tuple_index_dir (t : Q * Q) (direction : string) :
  direction = "uni-directional" \/ direction = "bi-directional" ->
  exists w,
    tuple_index t (if String.eqb direction "uni-directional" then Some 1%nat
                   else if String.eqb direction "bi-directional" then Some 0%nat
                   else None) = Ok w.
Proof. intros [-> | ->]; simpl; eauto. Qed.

Lemma set_default_highway_width_ok e direction hd :
  dict_has hd (Some "everything else") = true ->
  direction = "uni-directional" \/ direction = "bi-directional" ->
  exists w, set_default_highway_width e direction hd = Ok w.
Proof.
  intros Hfb Hd. unfold set_default_highway_width.
  destruct (dict_has hd (tags e !! "highway")) eqn:Hh.
  - unfold dict_has in Hh. unfold dict_index.
    destruct (tags e !! "highway") as [k |]; [| discriminate Hh].
    destruct (dict_get hd k) as [t |]; [| discriminate Hh].
    simpl. apply tuple_index_dir, Hd.
  - unfold dict_has in Hfb. unfold dict_index.
    destruct (dict_get hd "everything else") as [t |]; [| discriminate Hfb].
    simpl. apply tuple_index_dir, Hd.
Qed.

(** C9 (as amended): the first width tag in the order 'width:carriageway',
    'width', 'lanes' that the element carries is the one that is parsed; if
    its value is not a number, width resolution raises ValueError and
    assigns nothing.  (For 'lanes' the width table must have its
    'everything else' entry, as the default table has.) *)
Theorem malformed_leading_width_tag_raises l (h : heap) e hdw cdw s :
  h !! l = Some e ->
  float_str s = None ->
  tags e !! "width:carriageway" = Some s
  \/ (tags e !! "width:carriageway" = None /\ tags e !! "width" = Some s)
  \/ (tags e !! "width:carriageway" = None /\ tags e !! "width" = None
      /\ tags e !! "lanes" = Some s /\ has_fallback_entry hdw = true) ->
  set_road_width float_str local_var l hdw cdw h = (h, Raise ValueError).
Proof.
  intros He Hs Ht. rewrite (set_road_width_eq _ _ _ _ _ _ _ He).
  unfold resolve_width, has_fallback_entry in *.
  destruct hdw as [hd |], cdw as [cd |]; simpl in *;
    (destruct Ht as [Hc | [[Hc Hw] | (Hc & Hw & Hl & Hfb)]];
     [ rewrite (has_tag_some _ _ _ Hc), Hc; unfold py_float; rewrite Hs; reflexivity
     | rewrite (has_tag_none _ _ Hc), (has_tag_some _ _ _ Hw), Hw;
       unfold py_float; rewrite Hs; reflexivity
     | rewrite (has_tag_none _ _ Hc), (has_tag_none _ _ Hw) ]);
    unfold estimate_road_width;
    match goal with
    | |- context [set_default_highway_width e ?d ?t] =>
        destruct (set_default_highway_width_ok e d t Hfb) as (w & ->);
          [destruct (has_tag e "oneway"); auto |]
    end;
    simpl; unfold adapt_to_lanes;
    rewrite (has_tag_some _ _ _ Hl), Hl; unfold py_float; rewrite Hs; reflexivity.
Qed.
End WidthResolution.

(** C3, witness: width:carriageway=7.5 wins over width=6 and lanes=3. *)
Lemma declared_width_is_used_witness :
  set_road_width float_decimal default_local_var 1%positive None None
    (store_of road_with_declared_widths)
  = (<[1%positive := with_width road_with_declared_widths 7.5]>
       (store_of road_with_declared_widths), Ok tt).
Proof.
  apply (declared_width_is_used float_decimal default_local_var 1%positive
           (store_of road_with_declared_widths) road_with_declared_widths None None "7.5").
  - vm_compute. reflexivity.
  - left. vm_compute. reflexivity.
  - vm_compute. reflexivity.
Defined.

(** C9, witness: a road whose only width-related tag is lanes=two. *)
Lemma malformed_leading_width_tag_raises_witness :
  set_road_width float_decimal default_local_var 1%positive None None
    (store_of road_with_only_malformed_lanes)
  = (store_of road_with_only_malformed_lanes, Raise ValueError).
Proof.
  apply (malformed_leading_width_tag_raises float_decimal default_local_var 1%positive
           (store_of road_with_only_malformed_lanes) road_with_only_malformed_lanes
           None None "two").
  - vm_compute. reflexivity.
  - vm_compute. reflexivity.
  - right. right. vm_compute. auto.
Defined.

(** C9, counterexample: lanes=two is not a number, yet with width=6 present
    width resolution returns and sets the width to 6: the malformed tag is
    skipped. *)
Lemma malformed_lanes_behind_width_is_skipped :
  tags road_with_malformed_lanes !! "lanes" = Some "two" /\
  float_decimal "two" = None /\
  set_road_width float_decimal default_local_var 1%positive None None
    (store_of road_with_malformed_lanes)
  = (<[1%positive := with_width road_with_malformed_lanes 6]>
       (store_of road_with_malformed_lanes), Ok tt).
Proof. vm_compute. auto. Qed.

(** ** Width estimation under the default tables *)

Section Estimation.
Variable float_str : string -> option Q.
Variable local_var : local_variables.

(** In every entry of the default table the one-way width is at most the
    two-way width, and smaller except for 'pedestrian'. *)
Lemma default_table_entries k t :
  dict_get default_highway_default_widths k = Some t ->
  (snd t <= fst t)%Q /\ (k <> "pedestrian" -> (snd t < fst t)%Q).
Proof.
  unfold default_highway_default_widths. simpl.
  repeat match goal with
         | |- (if String.eqb k ?s then _ else _) = _ -> _ =>
             destruct (String.eqb_spec k s) as [-> | _];
             [ intros H; inversion H; subst t; simpl; split;
               [ discriminate | intros Hne; try reflexivity; exfalso; apply Hne; reflexivity ]
             | ]
         end.
  discriminate.
Qed.

Lemma add_cycleway_step_le (e : OsmElement) (entry : string * dict Q) (w1 w2 : Q) :
  let step (width : Q) (entry : string * dict Q) :=
    let '(tag, by_value) := entry in
    if has_tag e tag then
      match tags e !! tag with
      | Some v => match dict_get by_value v with Some w => (width + w)%Q | None => width end
      | None => width
      end
    else width in
  ((w1 <= w2)%Q -> (step w1 entry <= step w2 entry)%Q) /\
  ((w1 < w2)%Q -> (step w1 entry < step w2 entry)%Q).
Proof.
  destruct entry as [tag by_value]. simpl.
  destruct (has_tag e tag); [| auto].
  destruct (tags e !! tag) as [v |]; [| auto].
  destruct (dict_get by_value v) as [w |]; [| auto].
  split; intros H; lra.
Qed.

Lemma add_cycleway_mono e cd w1 w2 :
  ((w1 <= w2)%Q -> (add_cycleway e w1 cd <= add_cycleway e w2 cd)%Q) /\
  ((w1 < w2)%Q -> (add_cycleway e w1 cd < add_cycleway e w2 cd)%Q).
Proof.
  unfold add_cycleway. destruct (negb (dict_has cd (tags e !! "highway"))); [| auto].
  revert w1 w2. induction cd as [| entry cd IH]; intros w1 w2; simpl; [auto |].
  pose proof (add_cycleway_step_le e entry w1 w2) as [Hle Hlt]. simpl in Hle, Hlt.
  split; intros H; apply IH; auto.
Qed.

(** Two elements whose tags agree on 'highway' and on every key of the
    cycleway table get the same cycleway addition. *)
Lemma add_cycleway_agree e e' w cd :
  tags e' !! "highway" = tags e !! "highway" ->
  Forall (fun entry : string * dict Q => tags e' !! fst entry = tags e !! fst entry) cd ->
  add_cycleway e' w cd = add_cycleway e w cd.
Proof.
  intros Hh Hall. unfold add_cycleway. rewrite Hh.
  destruct (negb (dict_has cd (tags e !! "highway"))); [| reflexivity].
  revert w. induction Hall as [| [tag by_value] cd' Hk Hall IH]; intros w; simpl; [reflexivity |].
  simpl in Hk. unfold has_tag. rewrite Hk. apply IH.
Qed.

Lemma add_parking_mono e types pw w1 w2 :
  ((w1 <= w2)%Q -> (add_parking e w1 types pw <= add_parking e w2 types pw)%Q) /\
  ((w1 < w2)%Q -> (add_parking e w1 types pw < add_parking e w2 types pw)%Q).
Proof.
  unfold add_parking. destruct (in_list (tags e !! "highway") types); [| auto].
  split; intros H; lra.
Qed.

(** The base widths of an element under the default table. *)
Lemma default_base_widths e :
  exists t,
    set_default_highway_width e "uni-directional" default_highway_default_widths = Ok (snd t) /\
    set_default_highway_width e "bi-directional" default_highway_default_widths = Ok (fst t) /\
    (snd t <= fst t)%Q /\
    (tags e !! "highway" <> Some "pedestrian" -> (snd t < fst t)%Q).
Proof.
  unfold set_default_highway_width.
  destruct (dict_has default_highway_default_widths (tags e !! "highway")) eqn:Hh.
  - unfold dict_has in Hh. unfold dict_index.
    destruct (tags e !! "highway") as [k |]; [| discriminate Hh].
    destruct (dict_get default_highway_default_widths k) as [t |] eqn:Hk; [| discriminate Hh].
    exists t. destruct (default_table_entries k t Hk) as [Hle Hlt].
    split; [reflexivity |]. split; [reflexivity |]. split; [exact Hle |].
    intros Hne. apply Hlt. congruence.
  - exists (4.8, 3.1)%Q. split; [reflexivity |]. split; [reflexivity |].
    split; [discriminate | reflexivity].
Qed.

Lemma set_default_highway_width_agree e e' direction hd :
  tags e' !! "highway" = tags e !! "highway" ->
  set_default_highway_width e' direction hd = set_default_highway_width e direction hd.
Proof. intros H. unfold set_default_highway_width. rewrite H. reflexivity. Qed.

Lemma add_parking_agree e e' w types pw :
  tags e' !! "highway" = tags e !! "highway" ->
  add_parking e' w types pw = add_parking e w types pw.
Proof. intros H. unfold add_parking. rewrite H. reflexivity. Qed.

(** The widths resolved for an element and for the same element with a
    'oneway' tag added. *)
Lemma resolve_width_oneway (e eo : OsmElement) (v : string) :
  tags e !! "width:carriageway" = None ->
  tags e !! "width" = None ->
  tags e !! "lanes" = None ->
  tags e !! "oneway" = None ->
  tags eo = <["oneway" := v]> (tags e) ->
  exists wu wb,
    resolve_width float_str local_var eo None None = Ok wu /\
    resolve_width float_str local_var e None None = Ok wb /\
    estimate_road_width float_str local_var eo
      default_highway_default_widths default_cycleway_default_widths = Ok wu /\
    estimate_road_width float_str local_var e
      default_highway_default_widths default_cycleway_default_widths = Ok wb /\
    (wu <= wb)%Q /\
    (tags e !! "highway" <> Some "pedestrian" -> (wu < wb)%Q).
Proof.
  intros Hc Hw Hl Ho Heo.
  assert (Hother : forall k, k <> "oneway" -> tags eo !! k = tags e !! k).
  { intros k Hk. rewrite Heo. apply lookup_insert_ne. congruence. }
  assert (Hoo : has_tag eo "oneway" = true).
  { unfold has_tag. rewrite Heo, lookup_insert_eq. reflexivity. }
  unfold resolve_width. simpl.
  rewrite (has_tag_none e _ Hc), (has_tag_none e _ Hw).
  rewrite (has_tag_none eo "width:carriageway") by (rewrite Hother; [exact Hc | discriminate]).
  rewrite (has_tag_none eo "width") by (rewrite Hother; [exact Hw | discriminate]).
  unfold estimate_road_width. rewrite Hoo, (has_tag_none e _ Ho).
  destruct (default_base_widths e) as (t & Hu & Hb & Hle & Hlt).
  rewrite (set_default_highway_width_agree e eo) by (apply Hother; discriminate).
  rewrite Hu, Hb. simpl. unfold adapt_to_lanes.
  rewrite (has_tag_none e _ Hl).
  rewrite (has_tag_none eo "lanes") by (rewrite Hother; [exact Hl | discriminate]).
  simpl.
  rewrite (add_cycleway_agree e eo).
  2: { apply Hother. discriminate. }
  2: { unfold default_cycleway_default_widths.
       repeat constructor; simpl; apply Hother; discriminate. }
  rewrite (add_parking_agree e eo) by (apply Hother; discriminate).
  eexists. eexists. split; [reflexivity |]. split; [reflexivity |].
  split; [reflexivity |]. split; [reflexivity |]. split.
  - apply add_parking_mono, add_cycleway_mono, Hle.
  - intros Hne. apply add_parking_mono, add_cycleway_mono, Hlt, Hne.
Qed.

(** C4 (as amended): for a highway element without 'width',
    'width:carriageway' and 'lanes' tags, under the default tables, the
    width estimated and assigned with a 'oneway' tag is at most the width
    estimated and assigned without it, and strictly less unless the highway
    type is 'pedestrian'. *)
Theorem oneway_estimate_is_narrower l (h ho : heap) (e eo : OsmElement) (v : string) :
  h !! l = Some e -> ho !! l = Some eo ->
  tags e !! "width:carriageway" = None ->
  tags e !! "width" = None ->
  tags e !! "lanes" = None ->
  tags e !! "oneway" = None ->
  tags eo = <["oneway" := v]> (tags e) ->
  exists wu wb,
    set_road_width float_str local_var l None None ho = (<[l := with_width eo wu]> ho, Ok tt) /\
    set_road_width float_str local_var l None None h = (<[l := with_width e wb]> h, Ok tt) /\
    estimate_road_width float_str local_var eo
      (fst (set_defaults None None)) (snd (set_defaults None None)) = Ok wu /\
    estimate_road_width float_str local_var e
      (fst (set_defaults None None)) (snd (set_defaults None None)) = Ok wb /\
    (wu <= wb)%Q /\
    (tags e !! "highway" <> Some "pedestrian" -> (wu < wb)%Q).
Proof.
  intros He Heo Hc Hw Hl Ho Ht.
  destruct (resolve_width_oneway e eo v Hc Hw Hl Ho Ht)
    as (wu & wb & Hru & Hrb & Heu & Heb & Hle & Hlt).
  exists wu, wb.
  rewrite (set_road_width_eq _ _ _ _ _ _ _ Heo), Hru.
  rewrite (set_road_width_eq _ _ _ _ _ _ _ He), Hrb.
  simpl. auto 10.
Qed.
End Estimation.

(** C4, witness: a residential road, 3 + 6.5 one-way against 4.5 + 6.5. *)
Lemma oneway_estimate_is_narrower_witness :
  exists wu wb,
    set_road_width float_decimal default_local_var 1%positive None None
      (store_of oneway_residential_road)
    = (<[1%positive := with_width oneway_residential_road wu]>
         (store_of oneway_residential_road), Ok tt) /\
    set_road_width float_decimal default_local_var 1%positive None None
      (store_of residential_road)
    = (<[1%positive := with_width residential_road wb]> (store_of residential_road), Ok tt) /\
    estimate_road_width float_decimal default_local_var oneway_residential_road
      (fst (set_defaults None None)) (snd (set_defaults None None)) = Ok wu /\
    estimate_road_width float_decimal default_local_var residential_road
      (fst (set_defaults None None)) (snd (set_defaults None None)) = Ok wb /\
    (wu <= wb)%Q /\
    (tags residential_road !! "highway" <> Some "pedestrian" -> (wu < wb)%Q).
Proof.
  apply (oneway_estimate_is_narrower float_decimal default_local_var 1%positive
           (store_of residential_road) (store_of oneway_residential_road)
           residential_road oneway_residential_road "yes").
  - vm_compute. reflexivity.
  - vm_compute. reflexivity.
  - vm_compute. reflexivity.
  - vm_compute. reflexivity.
  - vm_compute. reflexivity.
  - vm_compute. reflexivity.
  - vm_compute. reflexivity.
Defined.

(** C4, counterexample: neither road has a width tag.  With lanes=2 the
    one-way estimate is 3 * 2 / 1 + 6.5 = 12.5, the two-way estimate
    4.5 + 6.5 = 11; for highway=pedestrian both estimates are 2. *)
Lemma oneway_estimate_not_always_narrower :
  (exists wu wb,
     set_road_width float_decimal default_local_var 1%positive None None
       (store_of two_lane_oneway_road)
     = (<[1%positive := with_width two_lane_oneway_road wu]>
          (store_of two_lane_oneway_road), Ok tt) /\
     set_road_width float_decimal default_local_var 1%positive None None
       (store_of two_lane_road)
     = (<[1%positive := with_width two_lane_road wb]> (store_of two_lane_road), Ok tt) /\
     (wu == 12.5)%Q /\ (wb == 11)%Q /\ ~ (wu < wb)%Q) /\
  (exists wu wb,
     set_road_width float_decimal default_local_var 1%positive None None
       (store_of pedestrian_oneway_street)
     = (<[1%positive := with_width pedestrian_oneway_street wu]>
          (store_of pedestrian_oneway_street), Ok tt) /\
     set_road_width float_decimal default_local_var 1%positive None None
       (store_of pedestrian_street)
     = (<[1%positive := with_width pedestrian_street wb]> (store_of pedestrian_street), Ok tt) /\
     (wu == 2)%Q /\ (wb == 2)%Q /\ ~ (wu < wb)%Q).
Proof.
  split.
  - exists (3 * 2 / 1 + 6.5)%Q, (4.5 + 6.5)%Q.
    split; [vm_compute; reflexivity |]. split; [vm_compute; reflexivity |].
    split; [reflexivity |]. split; [reflexivity |].
    intros H; vm_compute in H; discriminate H.
  - exists 2%Q, 2%Q.
    split; [vm_compute; reflexivity |]. split; [vm_compute; reflexivity |].
    split; [reflexivity |]. split; [reflexivity |].
    intros H; vm_compute in H; discriminate H.
Qed.

(** ** Buffering *)

Section Buffering.
Context {py_round : PyRound}.

(** C5 (as amended): for an element of width [w], the buffering operation
    returns, and the polygon is the geometry buffered with flat end caps and
    radius [round(w / 2, 1)]: the half width as Python rounds it to one
    decimal, not the half width itself. *)
Theorem buffer_radius_is_rounded_half_width l (h : heap) e w :
  h !! l = Some e -> width e = Some w ->
  buffer_osm_element l h
  = (<[fresh (dom h) := with_geom e (Buffer (geom e) (round1 (w / 2)) CapFlat JoinRound)]> h,
     Ok (fresh (dom h))).
Proof.
  intros He Hw. rewrite (buffer_osm_element_eq _ _ _ He), Hw. reflexivity.
Qed.

(** C6: for an element with a width the buffering operation returns a new
    object, distinct from the input: a copy of the element (tags, width, id,
    access, space type) that carries the polygon; the input element and every
    other object of the store are as they were.  A call that raises leaves
    the store as it was, too. *)
Theorem buffer_osm_element_leaves_input l (h : heap) :
  (forall e w, h !! l = Some e -> width e = Some w ->
     exists h' l' e',
       buffer_osm_element l h = (h', Ok l') /\
       l' <> l /\ h !! l' = None /\
       h' !! l = Some e /\
       h' !! l' = Some e' /\
       e' = with_geom e (buffered_geom e w) /\
       tags e' = tags e /\ width e' = width e /\ id e' = id e /\
       (forall l0 e0, h !! l0 = Some e0 -> h' !! l0 = Some e0)) /\
  (forall l0 e0, h !! l0 = Some e0 -> fst (buffer_osm_element l h) !! l0 = Some e0) /\
  (forall ex, snd (buffer_osm_element l h) = Raise ex -> fst (buffer_osm_element l h) = h).
Proof.
  pose proof (fresh_loc_unused h) as Hf.
  split; [| split].
  - intros e w He Hw. assert (Hne : fresh (dom h) <> l) by congruence.
    exists (<[fresh (dom h) := with_geom e (buffered_geom e w)]> h), (fresh (dom h)),
      (with_geom e (buffered_geom e w)).
    split; [rewrite (buffer_osm_element_eq _ _ _ He), Hw; reflexivity |].
    split; [exact Hne |]. split; [exact Hf |].
    split; [rewrite lookup_insert_ne by exact Hne; exact He |].
    split; [apply lookup_insert_eq |].
    split; [reflexivity |].
    split; [destruct e; reflexivity |]. split; [destruct e; reflexivity |].
    split; [destruct e; reflexivity |].
    intros l0 e0 H0. rewrite lookup_insert_ne by congruence. exact H0.
  - intros l0 e0 H0. destruct (h !! l) as [e |] eqn:He.
    + rewrite (buffer_osm_element_eq _ _ _ He). destruct (width e) as [w |]; simpl.
      * rewrite lookup_insert_ne by congruence. exact H0.
      * exact H0.
    + rewrite (buffer_osm_element_dangling _ _ He). exact H0.
  - intros ex. destruct (h !! l) as [e |] eqn:He.
    + rewrite (buffer_osm_element_eq _ _ _ He). destruct (width e) as [w |]; simpl.
      * intros H. discriminate H.
      * reflexivity.
    + rewrite (buffer_osm_element_dangling _ _ He). reflexivity.
Qed.
End Buffering.

(** C5, witness: a tram line of width 1.935. *)
Lemma buffer_radius_is_rounded_half_width_witness :
  buffer_osm_element (py_round := py_round1) 1%positive (store_of tram_line_with_width)
  = (<[fresh (dom (store_of tram_line_with_width)) :=
         with_geom tram_line_with_width
           (Buffer (geom tram_line_with_width)
              (py_round1 ((default_tram_gauge + default_tram_buffer) / 2))
              CapFlat JoinRound)]>
       (store_of tram_line_with_width),
     Ok (fresh (dom (store_of tram_line_with_width)))).
Proof.
  apply (buffer_radius_is_rounded_half_width (py_round := py_round1) 1%positive
           (store_of tram_line_with_width) tram_line_with_width
           (default_tram_gauge + default_tram_buffer)%Q).
  - vm_compute. reflexivity.
  - reflexivity.
Defined.

(** C5, counterexample: the tram line of width 1.935 is buffered with
    radius 1, not with 0.9675. *)
Lemma tram_buffer_radius_is_not_half_width :
  exists h' l' e' r,
    width tram_line_with_width = Some (default_tram_gauge + default_tram_buffer)%Q /\
    (default_tram_gauge + default_tram_buffer == 1.935)%Q /\
    buffer_osm_element (py_round := py_round1) 1%positive (store_of tram_line_with_width)
    = (h', Ok l') /\
    h' !! l' = Some e' /\
    geom e' = Buffer sample_line r CapFlat JoinRound /\
    (r == 1)%Q /\ ~ (r == 0.9675)%Q /\
    ~ (r == (default_tram_gauge + default_tram_buffer) / 2)%Q.
Proof.
  eexists. eexists. eexists. eexists.
  split; [reflexivity |]. split; [reflexivity |].
  split; [vm_compute; reflexivity |].
  split; [vm_compute; reflexivity |].
  split; [reflexivity |].
  split; [reflexivity |].
  split; intros H; vm_compute in H; discriminate H.
Qed.

(** C6, witness: buffering the tram line of width 1.935 returns a new object
    and leaves the line as it was. *)
Lemma buffer_osm_element_leaves_input_witness :
  exists h' l' e',
    buffer_osm_element (py_round := py_round1) 1%positive (store_of tram_line_with_width)
    = (h', Ok l') /\
    l' <> 1%positive /\ store_of tram_line_with_width !! l' = None /\
    h' !! 1%positive = Some tram_line_with_width /\
    h' !! l' = Some e' /\
    e' = with_geom tram_line_with_width
           (buffered_geom (py_round := py_round1) tram_line_with_width
              (default_tram_gauge + default_tram_buffer)) /\
    tags e' = tags tram_line_with_width /\ width e' = width tram_line_with_width /\
    id e' = id tram_line_with_width /\
    (forall l0 e0, store_of tram_line_with_width !! l0 = Some e0 -> h' !! l0 = Some e0).
Proof.
  apply (proj1 (buffer_osm_element_leaves_input (py_round := py_round1) 1%positive
                  (store_of tram_line_with_width))
           tram_line_with_width (default_tram_gauge + default_tram_buffer)%Q).
  - vm_compute. reflexivity.
  - reflexivity.
Defined.

(** ** The set operations *)

Section SetOperations.
Context {py_round : PyRound}.

(** C7: on a well-formed input the call returns; and whenever it returns,
    the value is one geometry: the union of the candidate polygons, minus the
    union of the cropper geometries buffered by 0.3 and then by -0.3, the
    difference buffered by 1 and -1 with mitred joins, then by 0.5 and -0.5
    with round joins. *)
Theorem traffic_area_set_operations
    float_str local_var els areas buildings hdw cdw tg tb rg rb pw bw (h : heap) :
  (well_formed_input float_str local_var hdw cdw els buildings h ->
   exists h' g,
     get_traffic_areas_as_polygons float_str local_var els areas buildings hdw cdw
       tg tb rg rb pw bw h = (h', Ok g)) /\
  (forall h' g,
     get_traffic_areas_as_polygons float_str local_var els areas buildings hdw cdw
       tg tb rg rb pw bw h = (h', Ok g) ->
     exists h1 candidates croppers polygons,
       get_traffic_areas float_str local_var els hdw cdw tg tb rg rb h = (h1, Ok candidates) /\
       get_cropper_geometries els areas buildings pw bw h1 = (h', Ok croppers) /\
       geoms_of candidates h' = (h', Ok polygons) /\
       g = Buffer
             (Buffer
                (Buffer
                   (Buffer
                      (Difference
                         (UnaryUnion polygons)
                         (Buffer (Buffer (UnaryUnion croppers) 0.3 CapRound JoinRound)
                            (-0.3) CapRound JoinRound))
                      1 CapRound JoinMitre)
                   (-1) CapRound JoinMitre)
                0.5 CapRound JoinRound)
             (-0.5) CapRound JoinRound).
Proof.
  split; [apply get_traffic_areas_as_polygons_returns |].
  unfold get_traffic_areas_as_polygons. intros h' g Hrun.
  apply bind_ok in Hrun as (candidates & h1 & Hta & Hrun).
  apply bind_ok in Hrun as (croppers & h2 & Hcg & Hrun).
  apply bind_ok in Hrun as (polygons & h3 & Hg & Hrun).
  pose proof (geoms_of_heap candidates h2) as Hh. rewrite Hg in Hh. simpl in Hh. subst h3.
  inversion Hrun; subst h' g; clear Hrun.
  exists h1, candidates, croppers, polygons. auto.
Qed.

End SetOperations.

(** C7, witness: the default call on a residential road. *)
Lemma traffic_area_set_operations_witness :
  exists h1 candidates croppers polygons,
    get_traffic_areas (py_round := py_round1) float_decimal default_local_var [1%positive] None None
      default_tram_gauge default_tram_buffer default_train_gauge default_train_buffer
      (store_of residential_road) = (h1, Ok candidates) /\
    get_cropper_geometries [1%positive] [] []
      default_pedestrian_way_default_width
      default_non_traffic_space_around_buildings_default_width h1
    = (fst (run_default [1%positive] (store_of residential_road)), Ok croppers) /\
    geoms_of candidates (fst (run_default [1%positive] (store_of residential_road)))
    = (fst (run_default [1%positive] (store_of residential_road)), Ok polygons) /\
    Buffer
      (Buffer
         (Buffer
            (Buffer
               (Difference
                  (UnaryUnion [Buffer sample_line 5.5 CapFlat JoinRound])
                  (Buffer (Buffer (UnaryUnion []) 0.3 CapRound JoinRound)
                     (-0.3) CapRound JoinRound))
               1 CapRound JoinMitre)
            (-1) CapRound JoinMitre)
         0.5 CapRound JoinRound)
      (-0.5) CapRound JoinRound
    = Buffer
        (Buffer
           (Buffer
              (Buffer
                 (Difference
                    (UnaryUnion polygons)
                    (Buffer (Buffer (UnaryUnion croppers) 0.3 CapRound JoinRound)
                       (-0.3) CapRound JoinRound))
                 1 CapRound JoinMitre)
              (-1) CapRound JoinMitre)
           0.5 CapRound JoinRound)
        (-0.5) CapRound JoinRound.
Proof.
  apply (proj2 (traffic_area_set_operations (py_round := py_round1) float_decimal default_local_var
                  [1%positive] [] [] None None
                  default_tram_gauge default_tram_buffer default_train_gauge default_train_buffer
                  default_pedestrian_way_default_width
                  default_non_traffic_space_around_buildings_default_width
                  (store_of residential_road))).
  vm_compute. reflexivity.
Defined.

(** ** Undefined space *)

Lemma collect_list (l acc : list item) :
  fold_left
    (fun acc e =>
       if type_is_OsmElement e then acc ++ [Geometry (item_geom e)]
       else acc ++ [e])
    l acc
  = acc ++ map handed_to_union l.
Proof.
  revert acc. induction l as [| x l IH]; intros acc; simpl.
  - symmetry. apply app_nil_r.
  - rewrite IH.
    destruct x as [[| name] o | g]; simpl; rewrite <- app_assoc; reflexivity.
Qed.

Lemma defined_space_geometries_from (lists : dict (list item)) (acc : list item) :
  fold_left
    (fun acc entry =>
       fold_left
         (fun acc e =>
            if type_is_OsmElement e then acc ++ [Geometry (item_geom e)]
            else acc ++ [e])
         (snd entry) acc)
    lists acc
  = acc ++ map handed_to_union (members lists).
Proof.
  revert acc. induction lists as [| entry lists IH]; intros acc; simpl.
  - symmetry. apply app_nil_r.
  - rewrite IH, collect_list. unfold members. simpl.
    rewrite map_app, app_assoc. reflexivity.
Qed.

(** C10: the list handed to [unary_union] holds, for every member of every
    list in order, the stored geometry if the member's class is exactly
    OsmElement, and the member itself otherwise: an instance of a subclass
    and a plain geometry alike. *)
Theorem only_exact_OsmElement_is_unwrapped (lists : dict (list item)) :
  defined_space_geometries lists = map handed_to_union (members lists) /\
  (forall o, handed_to_union (Instance ClassOsmElement o) = Geometry (geom o)) /\
  (forall name o,
      handed_to_union (Instance (ClassSubclassOfOsmElement name) o)
      = Instance (ClassSubclassOfOsmElement name) o) /\
  (forall g, handed_to_union (Geometry g) = Geometry g).
Proof.
  split; [| repeat split].
  unfold defined_space_geometries. apply (defined_space_geometries_from lists []).
Qed.

Lemma as_geometries_unionable (l : list item) :
  Forall (fun x => unionable x = true) l ->
  as_geometries (map handed_to_union l) = Ok (map item_geom l).
Proof.
  induction 1 as [| x l Hx _ IH]; simpl; [reflexivity |].
  destruct x as [[| name] o | g]; simpl in *; try discriminate Hx;
    rewrite IH; reflexivity.
Qed.

(** An instance of a subclass reaches [unary_union] as it is, and the call
    raises. *)
Lemma as_geometries_subclass (l : list item) name o :
  Instance (ClassSubclassOfOsmElement name) o ∈ l ->
  as_geometries (map handed_to_union l) = Raise TypeError.
Proof.
  induction l as [| x l IH]; intros Hin; [inversion Hin |].
  apply elem_of_cons in Hin as [<- | Hin]; [reflexivity |].
  simpl. destruct x as [[| name'] o' | g]; simpl; [| reflexivity |];
    rewrite (IH Hin); reflexivity.
Qed.

Lemma members_empty (lists : dict (list item)) :
  Forall (fun entry => snd entry = []) lists -> members lists = [].
Proof.
  unfold members. induction 1 as [| entry lists He _ IH]; simpl; [reflexivity |].
  rewrite He, IH. reflexivity.
Qed.

Lemma as_geometries_raises (l : list item) ex :
  as_geometries (map handed_to_union l) = Raise ex ->
  ex = TypeError /\ Exists (fun x => unionable x = false) l.
Proof.
  induction l as [| x l IH]; simpl; [discriminate |].
  destruct x as [[| name] o | g]; simpl.
  - destruct (as_geometries (map handed_to_union l)) as [gs | ex']; simpl; [discriminate |].
    intros H. inversion H; subst ex'. destruct (IH eq_refl) as [-> Hex].
    split; [reflexivity | apply Exists_cons_tl, Hex].
  - intros H. inversion H. split; [reflexivity | apply Exists_cons_hd; reflexivity].
  - destruct (as_geometries (map handed_to_union l)) as [gs | ex']; simpl; [discriminate |].
    intros H. inversion H; subst ex'. destruct (IH eq_refl) as [-> Hex].
    split; [reflexivity | apply Exists_cons_tl, Hex].
Qed.

Lemma as_geometries_returns (l : list item) gs :
  as_geometries (map handed_to_union l) = Ok gs -> gs = map item_geom l.
Proof.
  revert gs. induction l as [| x l IH]; simpl; intros gs H.
  - inversion H. reflexivity.
  - destruct x as [[| name] o | g]; simpl in H; [| discriminate H |];
      destruct (as_geometries (map handed_to_union l)) as [gs' | ex]; simpl in H;
      try discriminate H; inversion H; rewrite (IH gs' eq_refl); reflexivity.
Qed.

(** C8 (as amended): for every bounding region and every mapping whose
    members are all geometries or objects of class OsmElement itself, [load]
    returns a geometry: the bounding region's projected geometry minus the
    union of the members' geometries.  With an instance of a subclass of
    OsmElement among the members it raises TypeError instead.  When every
    list is empty, [load] returns, and the result is the bounding region's
    projected geometry as a point set, whatever the shapes and buffers
    mean. *)
Theorem load_returns_geometry (lists : dict (list item)) (bbox : BoundingBox) :
  (Forall (fun x => unionable x = true) (members lists) ->
   load lists bbox
   = Ok (Difference (geom_projected bbox) (UnaryUnion (map item_geom (members lists))))) /\
  (forall name o,
     Instance (ClassSubclassOfOsmElement name) o ∈ members lists ->
     load lists bbox = Raise TypeError) /\
  (Forall (fun entry => snd entry = []) lists ->
   exists g, load lists bbox = Ok g /\
     forall prim buf, geom_equals prim buf g (geom_projected bbox)).
Proof.
  unfold load, defined_space_geometries.
  rewrite (defined_space_geometries_from lists []). simpl. split; [| split].
  - intros Hall. rewrite (as_geometries_unionable _ Hall). reflexivity.
  - intros name o Hin. rewrite (as_geometries_subclass _ name o Hin). reflexivity.
  - intros Hempty. rewrite (members_empty _ Hempty). simpl.
    eexists. split; [reflexivity |]. intros prim buf p. simpl. tauto.
Qed.

(** C8, witness: the mapping the application builds (elements, buildings,
    plain polygons). *)
Lemma load_returns_geometry_witness :
  load sample_defined_space sample_bbox
  = Ok (Difference (geom_projected sample_bbox)
          (UnaryUnion (map item_geom (members sample_defined_space)))).
Proof.
  apply (proj1 (load_returns_geometry sample_defined_space sample_bbox)).
  repeat constructor.
Defined.

(** C8, counterexample: with an instance of a subclass of OsmElement among
    the members, [load] returns nothing: it raises. *)
Lemma load_raises_on_subclass_instance :
  load [("dataset", [Instance (ClassSubclassOfOsmElement "Way") residential_road])] sample_bbox
  = Raise TypeError /\
  ~ exists g,
      load [("dataset", [Instance (ClassSubclassOfOsmElement "Way") residential_road])]
        sample_bbox = Ok g.
Proof.
  split; [reflexivity |]. intros [g H]. discriminate H.
Qed.

(** With every list empty the undefined space is the bounding region. *)
Example load_empty_defined_space :
  exists g, load empty_defined_space sample_bbox = Ok g /\
    forall prim buf, geom_equals prim buf g (geom_projected sample_bbox).
Proof.
  eexists. split; [reflexivity |]. intros prim buf p. simpl. tauto.
Qed.

(** The mapping the application builds: elements, buildings, plain polygons. *)
Example load_sample_defined_space :
  load sample_defined_space sample_bbox
  = Ok (Difference (geom_projected sample_bbox)
          (UnaryUnion [ sample_line;
                        Polygon [(1, 1); (2, 1); (2, 2); (1, 2)]%Q;
                        Polygon [(5, 5); (6, 5); (6, 6)]%Q ])).
Proof. reflexivity. Qed.

(** * Further properties *)

(** ** Pedestrian ways and crossings *)

(** X1: on a pedestrian way, being a crossing is having a 'crossing' tag:
    the tests of [is_crossing] on the 'footway' and 'highway' values cannot
    succeed there. *)
Theorem pedestrian_way_crossing_is_crossing_tag (e : OsmElement) :
  is_pedestrian_way e = true -> is_crossing e = has_tag e "crossing".
Proof.
  unfold is_pedestrian_way, is_crossing. intros H.
  apply andb_prop in H as [Hhw Hfw]. apply negb_true_iff in Hfw.
  destruct (has_tag e "crossing"); [reflexivity |].
  simpl. rewrite Hfw. simpl.
  destruct (tags e !! "highway") as [s |]; [| reflexivity]. simpl in *.
  destruct (String.eqb_spec s "crossing") as [-> | _]; [discriminate Hhw | reflexivity].
Qed.

(** X1, witness: a footway with a crossing tag. *)
Lemma pedestrian_way_crossing_is_crossing_tag_witness :
  is_crossing footway_with_crossing_tag = has_tag footway_with_crossing_tag "crossing".
Proof.
  apply (pedestrian_way_crossing_is_crossing_tag footway_with_crossing_tag).
  vm_compute. reflexivity.
Defined.

(** ** The steps of width estimation *)

Section EstimationSteps.
Variable float_str : string -> option Q.
Variable local_var : local_variables.

(** X2: a parsed lanes value [l] scales the width to [width * l] on a one-way
    road and to [width * l / 2] otherwise, for every [l]: a zero or negative
    lanes value is not clamped. *)
Theorem lanes_scale_the_width (e : OsmElement) (w : Q) (s : string) (l : Q) :
  tags e !! "lanes" = Some s -> float_str s = Some l ->
  exists wu wb,
    adapt_to_lanes float_str e w "uni-directional" = Ok wu /\ (wu == w * l)%Q /\
    adapt_to_lanes float_str e w "bi-directional" = Ok wb /\ (wb == w * l / 2)%Q.
Proof.
  intros Hl Hs. unfold adapt_to_lanes. rewrite (has_tag_some _ _ _ Hl), Hl.
  unfold py_float. rewrite Hs. simpl.
  destruct (Qeq_bool l 1) eqn:H1; destruct (Qeq_bool l 2) eqn:H2; simpl;
    eexists; eexists; (split; [reflexivity |]); (split; [| split; [reflexivity |]]);
    first [ reflexivity
          | field
          | apply Qeq_bool_eq in H1; rewrite H1; field
          | apply Qeq_bool_eq in H2; rewrite H2; field ].
Qed.

Lemma dict_get_Forall {V} (P : V -> Prop) (d : dict V) k v :
  Forall (fun kv => P (snd kv)) d -> dict_get d k = Some v -> P v.
Proof.
  induction 1 as [| [k' v'] d Hkv _ IH]; simpl; [discriminate |].
  destruct (String.eqb k k'); [| exact IH].
  intros H. inversion H; subst. exact Hkv.
Qed.

(** The loop of [add_cycleway] adds, per table entry, nothing or one of the
    entry's widths. *)
Lemma add_cycleway_loop_bounds (e : OsmElement) (cd : dict (dict Q)) (ms : list Q) :
  Forall2 (fun (entry : string * dict Q) m =>
             (0 <= m)%Q /\ Forall (fun kv => (0 <= snd kv <= m)%Q) (snd entry)) cd ms ->
  forall w,
    (w <= fold_left
            (fun (width : Q) (entry : string * dict Q) =>
               let '(tag, by_value) := entry in
               if has_tag e tag then
                 match tags e !! tag with
                 | Some v =>
                     match dict_get by_value v with
                     | Some w => (width + w)%Q
                     | None => width
                     end
                 | None => width
                 end
               else width)
            cd w
       <= w + fold_right Qplus 0 ms)%Q.
Proof.
  induction 1 as [| [tag by_value] m cd ms [Hm Hentry] _ IH]; intros w; simpl.
  - lra.
  - simpl in Hentry.
    destruct (has_tag e tag); [| specialize (IH w); lra].
    destruct (tags e !! tag) as [v |]; [| specialize (IH w); lra].
    destruct (dict_get by_value v) as [c |] eqn:Hc; [| specialize (IH w); lra].
    pose proof (dict_get_Forall (fun c => (0 <= c <= m)%Q) by_value v c Hentry Hc) as Hb.
    simpl in Hb. specialize (IH (w + c)%Q). lra.
Qed.

Lemma default_cycleway_table_bounds :
  Forall2 (fun (entry : string * dict Q) m =>
             (0 <= m)%Q /\ Forall (fun kv => (0 <= snd kv <= m)%Q) (snd entry))
    default_cycleway_default_widths [1.6; 1.6; 3.2; 1.6]%Q.
Proof. unfold default_cycleway_default_widths. repeat constructor; simpl; discriminate. Qed.

Lemma cycleway_addition_lower (e : OsmElement) (w : Q) :
  (w <= add_cycleway e w default_cycleway_default_widths)%Q.
Proof.
  unfold add_cycleway.
  destruct (negb (dict_has default_cycleway_default_widths (tags e !! "highway")));
    [| lra].
  apply (add_cycleway_loop_bounds e _ _ default_cycleway_table_bounds w).
Qed.

(** X3: under the default cycleway table the cycleway addition is between 0
    and 8, and it is 0 when the highway type is itself a key of the table
    (as for highway=cycleway). *)
Theorem cycleway_addition_is_bounded (e : OsmElement) (w : Q) :
  (w <= add_cycleway e w default_cycleway_default_widths <= w + 8)%Q /\
  (dict_has default_cycleway_default_widths (tags e !! "highway") = true ->
   add_cycleway e w default_cycleway_default_widths = w).
Proof.
  split.
  - unfold add_cycleway.
    destruct (negb (dict_has default_cycleway_default_widths (tags e !! "highway")));
      [| lra].
    assert (Hsum : (fold_right Qplus 0 [1.6; 1.6; 3.2; 1.6] == 8)%Q) by reflexivity.
    rewrite <- Hsum.
    apply (add_cycleway_loop_bounds e _ _ default_cycleway_table_bounds w).
  - intros H. unfold add_cycleway. rewrite H. reflexivity.
Qed.

(** Every entry of the default highway table lies between 1 and 6.5. *)
Lemma default_table_range k t :
  dict_get default_highway_default_widths k = Some t ->
  (1 <= snd t <= 6.5)%Q /\ (1 <= fst t <= 6.5)%Q.
Proof.
  unfold default_highway_default_widths. simpl.
  repeat match goal with
         | |- (if String.eqb k ?s then _ else _) = _ -> _ =>
             destruct (String.eqb k s);
             [ intros H; inversion H; subst t; simpl; repeat split; discriminate | ]
         end.
  discriminate.
Qed.

Lemma default_base_widths_range e direction :
  direction = "uni-directional" \/ direction = "bi-directional" ->
  exists b,
    set_default_highway_width e direction default_highway_default_widths = Ok b /\
    (1 <= b <= 6.5)%Q.
Proof.
  intros Hd. unfold set_default_highway_width.
  destruct (dict_has default_highway_default_widths (tags e !! "highway")) eqn:Hh.
  - unfold dict_has in Hh. unfold dict_index.
    destruct (tags e !! "highway") as [k |]; [| discriminate Hh].
    destruct (dict_get default_highway_default_widths k) as [t |] eqn:Hk; [| discriminate Hh].
    destruct (default_table_range k t Hk) as [Hu Hb]. simpl.
    destruct Hd as [-> | ->]; simpl; eauto.
  - destruct Hd as [-> | ->]; simpl; eexists; (split; [reflexivity |]); split; discriminate.
Qed.

(** X4: under the default tables and with a parking allowance that is not
    negative, the estimated width is positive whenever the element has no
    lanes tag or a positive lanes value. *)
Theorem estimated_width_is_positive (e : OsmElement) :
  (0 <= default_parking_width local_var)%Q ->
  tags e !! "lanes" = None
  \/ (exists s l, tags e !! "lanes" = Some s /\ float_str s = Some l /\ (0 < l)%Q) ->
  exists w,
    estimate_road_width float_str local_var e
      default_highway_default_widths default_cycleway_default_widths = Ok w /\
    (0 < w)%Q.
Proof.
  intros Hpark Hlanes. unfold estimate_road_width.
  set (direction := if has_tag e "oneway" then "uni-directional" else "bi-directional").
  assert (Hdir : direction = "uni-directional" \/ direction = "bi-directional")
    by (unfold direction; destruct (has_tag e "oneway"); auto).
  destruct (default_base_widths_range e direction Hdir) as (b & -> & Hb). simpl.
  assert (Hadapt : exists w1, adapt_to_lanes float_str e b direction = Ok w1 /\ (0 < w1)%Q).
  { destruct Hlanes as [Hl | (s & l & Hl & Hs & Hpos)].
    - unfold adapt_to_lanes. rewrite (has_tag_none _ _ Hl). exists b. split; [reflexivity | lra].
    - assert (Hbl : (0 < b * l)%Q) by (apply Qmult_lt_0_compat; lra).
      unfold adapt_to_lanes. rewrite (has_tag_some _ _ _ Hl), Hl.
      unfold py_float. rewrite Hs. simpl.
      destruct Hdir as [-> | ->]; simpl;
        match goal with
        | |- context [Qeq_bool l ?n] => destruct (Qeq_bool l n)
        end; simpl; eexists; (split; [reflexivity |]); try lra.
      + set (x := (b * l)%Q) in *. assert (H : (x / 1 == x)%Q) by field. rewrite H. exact Hbl.
      + set (x := (b * l)%Q) in *. assert (H : (x / 2 == x * (1 # 2))%Q) by field.
        rewrite H. lra. }
  destruct Hadapt as (w1 & -> & Hw1). simpl.
  eexists. split; [reflexivity |].
  pose proof (cycleway_addition_lower e w1) as Hc.
  unfold add_parking.
  destruct (in_list (tags e !! "highway") (highway_types_for_default_streetside_parking local_var));
    lra.
Qed.
End EstimationSteps.

(** X2, witness: lanes=3 on a base width of 4.5. *)
Lemma lanes_scale_the_width_witness :
  exists wu wb,
    adapt_to_lanes float_decimal road_with_three_lanes 4.5 "uni-directional" = Ok wu /\
    (wu == 4.5 * 3)%Q /\
    adapt_to_lanes float_decimal road_with_three_lanes 4.5 "bi-directional" = Ok wb /\
    (wb == 4.5 * 3 / 2)%Q.
Proof.
  apply (lanes_scale_the_width float_decimal road_with_three_lanes 4.5 "3" 3).
  - vm_compute. reflexivity.
  - vm_compute. reflexivity.
Defined.

(** X4, witness: a residential road with three lanes. *)
Lemma estimated_width_is_positive_witness :
  exists w,
    estimate_road_width float_decimal default_local_var road_with_three_lanes
      default_highway_default_widths default_cycleway_default_widths = Ok w /\
    (0 < w)%Q.
Proof.
  apply (estimated_width_is_positive float_decimal default_local_var road_with_three_lanes).
  - vm_compute. discriminate.
  - right. exists "3", 3%Q. vm_compute. auto.
Defined.

(** ** How width resolution fails *)

Section WidthFailures.
Variable float_str : string -> option Q.
Variable local_var : local_variables.

(** X5: with the default highway table, width resolution of an element
    fails only with ValueError, only because the first tag it carries among
    'width:carriageway', 'width' and 'lanes' is not a number, and then the
    store is as before. *)
Theorem width_resolution_fails_only_on_leading_tag l (h h' : heap) e cdw ex :
  h !! l = Some e ->
  set_road_width float_str local_var l None cdw h = (h', Raise ex) ->
  h' = h /\ ex = ValueError /\
  exists k s,
    tags e !! k = Some s /\ float_str s = None /\
    (k = "width:carriageway"
     \/ (k = "width" /\ tags e !! "width:carriageway" = None)
     \/ (k = "lanes" /\ tags e !! "width:carriageway" = None /\ tags e !! "width" = None)).
Proof.
  intros He. rewrite (set_road_width_eq _ _ _ _ _ _ _ He).
  unfold resolve_width, set_defaults.
  destruct (tags e !! "width:carriageway") as [s |] eqn:Hc.
  - rewrite (has_tag_some _ _ _ Hc). unfold py_float.
    destruct (float_str s) eqn:Hs; intros H; inversion H; subst.
    split; [reflexivity |]. split; [reflexivity |]. exists "width:carriageway", s. auto 10.
  - rewrite (has_tag_none _ _ Hc).
    destruct (tags e !! "width") as [s |] eqn:Hw.
    + rewrite (has_tag_some _ _ _ Hw). unfold py_float.
      destruct (float_str s) eqn:Hs; intros H; inversion H; subst.
      split; [reflexivity |]. split; [reflexivity |]. exists "width", s. auto 10.
    + rewrite (has_tag_none _ _ Hw). unfold estimate_road_width.
      set (direction := if has_tag e "oneway" then "uni-directional" else "bi-directional").
      assert (Hdir : direction = "uni-directional" \/ direction = "bi-directional")
        by (unfold direction; destruct (has_tag e "oneway"); auto).
      destruct (default_base_widths_range e direction Hdir) as (b & -> & _). simpl.
      unfold adapt_to_lanes.
      destruct (tags e !! "lanes") as [s |] eqn:Hl.
      * rewrite (has_tag_some _ _ _ Hl). unfold py_float.
        destruct (float_str s) eqn:Hs; simpl.
        -- destruct Hdir as [-> | ->]; simpl;
             match goal with
             | |- context [Qeq_bool ?a ?n] => destruct (Qeq_bool a n)
             end; simpl; intros H; inversion H.
        -- intros H. inversion H; subst.
           split; [reflexivity |]. split; [reflexivity |]. exists "lanes", s. auto 10.
      * rewrite (has_tag_none _ _ Hl). simpl. intros H. inversion H.
Qed.

(** X6: with a caller's highway table that has neither the element's
    highway type nor an 'everything else' entry, estimating the width raises
    KeyError and assigns nothing. *)
Theorem missing_table_entry_raises_KeyError l (h : heap) e hd cdw :
  h !! l = Some e ->
  tags e !! "width:carriageway" = None ->
  tags e !! "width" = None ->
  dict_has hd (tags e !! "highway") = false ->
  dict_has hd (Some "everything else") = false ->
  set_road_width float_str local_var l (Some hd) cdw h = (h, Raise KeyError).
Proof.
  intros He Hc Hw Hh Hfb. rewrite (set_road_width_eq _ _ _ _ _ _ _ He).
  unfold resolve_width, set_defaults.
  rewrite (has_tag_none _ _ Hc), (has_tag_none _ _ Hw).
  unfold estimate_road_width, set_default_highway_width. rewrite Hh.
  unfold dict_has in Hfb. unfold dict_index.
  destruct (dict_get hd "everything else"); [discriminate Hfb |].
  destruct cdw; reflexivity.
Qed.
End WidthFailures.

(** X5, witness: a road whose only width-related tag is lanes=two. *)
Lemma width_resolution_fails_only_on_leading_tag_witness :
  store_of road_with_only_malformed_lanes = store_of road_with_only_malformed_lanes /\
  ValueError = ValueError /\
  exists k s,
    tags road_with_only_malformed_lanes !! k = Some s /\ float_decimal s = None /\
    (k = "width:carriageway"
     \/ (k = "width" /\ tags road_with_only_malformed_lanes !! "width:carriageway" = None)
     \/ (k = "lanes" /\ tags road_with_only_malformed_lanes !! "width:carriageway" = None
         /\ tags road_with_only_malformed_lanes !! "width" = None)).
Proof.
  apply (width_resolution_fails_only_on_leading_tag float_decimal default_local_var
           1%positive (store_of road_with_only_malformed_lanes)
           (store_of road_with_only_malformed_lanes) road_with_only_malformed_lanes None).
  - vm_compute. reflexivity.
  - vm_compute. reflexivity.
Defined.

(** X6, witness: a residential road and a table that only knows motorways. *)
Lemma missing_table_entry_raises_KeyError_witness :
  set_road_width float_decimal default_local_var 1%positive
    (Some table_without_fallback) None (store_of residential_road)
  = (store_of residential_road, Raise KeyError).
Proof.
  apply (missing_table_entry_raises_KeyError float_decimal default_local_var 1%positive
           (store_of residential_road) residential_road table_without_fallback None).
  - vm_compute. reflexivity.
  - vm_compute. reflexivity.
  - vm_compute. reflexivity.
  - vm_compute. reflexivity.
  - vm_compute. reflexivity.
Defined.

(** ** What a loop over elements does to the store *)

Lemma elems_cons (h : heap) y l e : h !! y = Some e -> elems h (y :: l) = e :: elems h l.
Proof. intros H. unfold elems. simpl. rewrite H. reflexivity. Qed.

Lemma geoms_at_app h a b ga gb :
  geoms_at h a ga -> geoms_at h b gb -> geoms_at h (a ++ b) (ga ++ gb).
Proof. unfold geoms_at. apply Forall2_app. Qed.

Lemma geoms_at_mono (h h' : heap) ps gs :
  geoms_at h ps gs ->
  (forall p c, h !! p = Some c -> exists c', h' !! p = Some c' /\ geom c' = geom c) ->
  geoms_at h' ps gs.
Proof.
  intros Hg Hm. induction Hg as [| p g ps gs (c & Hc & Hgc) _ IH]; constructor; [| exact IH].
  destruct (Hm p c Hc) as (c' & Hc' & Hgeo). exists c'. split; [exact Hc' | congruence].
Qed.

Lemma geoms_at_geoms_of (h : heap) ps gs :
  geoms_at h ps gs -> geoms_of ps h = (h, Ok gs).
Proof.
  induction 1 as [| p g ps gs (c & Hc & Hgc) _ IH]; simpl; [reflexivity |].
  rewrite (bind_eq _ _ _ _ _ (read_eq _ _ _ Hc)), (bind_eq _ _ _ _ _ IH), Hgc. reflexivity.
Qed.

Section LoopEffect.
Variable body : list loc -> loc -> M (list loc).
Variable step : OsmElement -> OsmElement.
Variable out : OsmElement -> list geometry.
Hypothesis step_idem : forall e, step (step e) = step e.
Hypothesis step_geom : forall e, geom (step e) = geom e.
Hypothesis out_step : forall e, out (step e) = out e.
Hypothesis body_spec :
  forall acc y (h h' : heap) acc',
    body acc y h = (h', Ok acc') ->
    exists e, h !! y = Some e /\ h' !! y = Some (step e) /\
      (forall l0 c, l0 <> y -> h !! l0 = Some c -> h' !! l0 = Some c) /\
      exists new, acc' = acc ++ new /\ geoms_at h' new (out e) /\
        (forall p, p ∈ new -> h !! p = None).

Lemma out_elems_step (h h1 : heap) y e l :
  h !! y = Some e -> h1 !! y = Some (step e) ->
  (forall l0 c, l0 <> y -> h !! l0 = Some c -> h1 !! l0 = Some c) ->
  (forall x, x ∈ l -> is_Some (h !! x)) ->
  flat_map out (elems h1 l) = flat_map out (elems h l).
Proof.
  intros He He1 Hothers. induction l as [| x l IH]; intros Hall; [reflexivity |].
  destruct (Hall x (list_elem_of_here _ _)) as [c Hc].
  assert (IH' : flat_map out (elems h1 l) = flat_map out (elems h l)).
  { apply IH. intros z Hz. apply Hall, list_elem_of_further, Hz. }
  rewrite (elems_cons h x l c Hc). destruct (decide (x = y)) as [-> | Hne].
  - assert (c = e) by congruence. subst c.
    rewrite (elems_cons h1 y l (step e) He1). simpl. rewrite out_step, IH'. reflexivity.
  - rewrite (elems_cons h1 x l c (Hothers x c Hne Hc)). simpl. rewrite IH'. reflexivity.
Qed.

(** A returning loop leaves in every object that was there [step] of it if
    the list names it, the object itself otherwise, and has collected the
    polygons [out] of the elements of the list, in order. *)
Lemma for_each_effect l :
  forall acc (h h' : heap) r,
    (forall x, x ∈ l -> is_Some (h !! x)) ->
    for_each body acc l h = (h', Ok r) ->
    (forall x e, h !! x = Some e ->
       h' !! x = Some (if bool_decide (x ∈ l) then step e else e)) /\
    exists new, r = acc ++ new /\ geoms_at h' new (flat_map out (elems h l)) /\
      (forall p, p ∈ new -> h !! p = None).
Proof.
  induction l as [| y l IH]; intros acc h h' r Hall Hrun; simpl in Hrun.
  - inversion Hrun; subst. split.
    + intros x e He. exact He.
    + exists []. rewrite app_nil_r. split; [reflexivity |]. split; [constructor |].
      intros p Hp. inversion Hp.
  - apply bind_ok in Hrun as (acc1 & h1 & Hb & Hrest).
    destruct (body_spec _ _ _ _ _ Hb) as (ey & Hey & Hey1 & Hothers & new1 & -> & Hg1 & Hf1).
    assert (Hall1 : forall x, x ∈ l -> is_Some (h1 !! x)).
    { intros x Hx. destruct (Hall x (list_elem_of_further _ _ _ Hx)) as [c Hc].
      destruct (decide (x = y)) as [-> | Hne]; [eauto | eauto]. }
    destruct (IH _ _ _ _ Hall1 Hrest) as (Heff & new2 & -> & Hg2 & Hf2).
    split.
    + intros x e He. destruct (decide (x = y)) as [-> | Hne].
      * assert (e = ey) by congruence. subst e.
        rewrite (Heff y (step ey) Hey1), step_idem.
        rewrite (bool_decide_eq_true_2 (y ∈ y :: l)) by apply list_elem_of_here.
        destruct (bool_decide (y ∈ l)); reflexivity.
      * rewrite (Heff x e (Hothers x e Hne He)).
        assert (Hb' : bool_decide (x ∈ y :: l) = bool_decide (x ∈ l)).
        { apply bool_decide_ext. rewrite elem_of_cons. tauto. }
        rewrite Hb'. reflexivity.
    + exists (new1 ++ new2). split; [rewrite app_assoc; reflexivity |]. split.
      * rewrite (elems_cons h y l ey Hey). simpl. apply geoms_at_app.
        -- apply (geoms_at_mono h1 h' _ _ Hg1). intros p c Hc.
           rewrite (Heff p c Hc). destruct (bool_decide (p ∈ l)); eauto.
        -- rewrite <- (out_elems_step h h1 y ey l Hey Hey1 Hothers).
           ++ exact Hg2.
           ++ intros x Hx. apply Hall, list_elem_of_further, Hx.
      * intros p Hp. apply elem_of_app in Hp as [Hp | Hp]; [apply Hf1, Hp |].
        specialize (Hf2 p Hp). destruct (h !! p) as [c |] eqn:Hc; [| reflexivity].
        destruct (decide (p = y)) as [-> | Hne]; [congruence |].
        rewrite (Hothers p c Hne Hc) in Hf2. discriminate Hf2.
Qed.
End LoopEffect.

(** What a comprehension over elements selects, in order. *)
Lemma filter_elements_elems p l (h h' : heap) r :
  filter_elements p l h = (h', Ok r) ->
  elems h r = List.filter p (elems h l) /\ (forall x, x ∈ l -> is_Some (h !! x)).
Proof.
  revert h' r. induction l as [| x l IH]; intros h' r H; simpl in H.
  - inversion H; subst. split; [reflexivity |]. intros x Hx. inversion Hx.
  - apply bind_ok in H as (e & h1 & Hr & H). apply read_ok in Hr as [-> He].
    apply bind_ok in H as (r' & h2 & Hf & H).
    pose proof (filter_elements_heap p l h) as Hh. rewrite Hf in Hh. simpl in Hh. subst h2.
    destruct (IH _ _ Hf) as [IH1 IH2]. inversion H. subst h' r. split.
    + rewrite (elems_cons h x l e He). simpl. destruct (p e).
      * rewrite (elems_cons h x r' e He), IH1. reflexivity.
      * exact IH1.
    + intros y Hy. apply elem_of_cons in Hy as [-> | Hy]; [eauto | apply IH2, Hy].
Qed.

(** ** The highway pass, exactly *)

Lemma fresh_after_update (h : heap) l e e' :
  h !! l = Some e -> fresh (dom (<[l := e']> h)) = fresh (dom h).
Proof. intros H. rewrite dom_insert_lookup_L by eauto. reflexivity. Qed.

Section HighwayPass.
Context {py_round : PyRound}.
Variable float_str : string -> option Q.
Variable local_var : local_variables.
Variable hdw : option (dict (Q * Q)).
Variable cdw : option (dict (dict Q)).

(** One turn of the loop, as a function of the store. *)
Lemma highway_body_run acc y (h : heap) e :
  h !! y = Some e ->
  highway_body float_str local_var hdw cdw acc y h =
    if is_pedestrian_way e then
      if is_crossing e then (h, Ok acc)
      else (<[y := with_space_type e walking_area]> h, Ok acc)
    else if is_irrelevant_highway e then (<[y := with_space_type e traffic_area]> h, Ok acc)
    else if is_linestring e then
      match resolve_width float_str local_var e hdw cdw with
      | Ok w =>
          (<[y := with_space_type (with_width e w) traffic_area]>
             (<[fresh (dom h) := with_geom (with_width e w) (buffered_geom e w)]>
                (<[y := with_width e w]> h)),
           Ok (acc ++ [fresh (dom h)]))
      | Raise ex => (h, Raise ex)
      end
    else (<[y := with_space_type e traffic_area]> h, Ok acc).
Proof.
  intros He. unfold highway_body. rewrite (bind_eq _ _ _ _ _ (read_eq _ _ _ He)).
  destruct (is_pedestrian_way e).
  - destruct (is_crossing e); simpl; [reflexivity |].
    rewrite (bind_eq _ _ _ _ _ (modify_eq y (fun o => with_space_type o walking_area) h e He)).
    reflexivity.
  - destruct (is_irrelevant_highway e).
    + rewrite (bind_eq _ _ _ _ _ (modify_eq y (fun o => with_space_type o traffic_area) h e He)).
      reflexivity.
    + destruct (is_linestring e).
      * pose proof (set_road_width_eq float_str local_var y h e hdw cdw He) as Hs.
        destruct (resolve_width float_str local_var e hdw cdw) as [w | ex].
        -- assert (H1 : <[y := with_width e w]> h !! y = Some (with_width e w))
             by apply lookup_insert_eq.
           pose proof (buffer_osm_element_eq y _ _ H1) as Hb. simpl in Hb.
           rewrite (fresh_after_update h y e _ He) in Hb.
           pose proof (fresh_loc_unused h) as Hf.
           assert (Hne : fresh (dom h) <> y) by congruence.
           assert (Hinner :
                     (exec set_road_width float_str local_var y hdw cdw;
                      do p <- buffer_osm_element y;
                      ret (acc ++ [p])) h
                     = (<[fresh (dom h) := with_geom (with_width e w) (buffered_geom e w)]>
                          (<[y := with_width e w]> h), Ok (acc ++ [fresh (dom h)]))).
           { rewrite (bind_eq _ _ _ _ _ Hs), (bind_eq _ _ _ _ _ Hb). reflexivity. }
           rewrite (bind_eq _ _ _ _ _ Hinner).
           assert (H2 : <[fresh (dom h) := with_geom (with_width e w) (buffered_geom e w)]>
                          (<[y := with_width e w]> h) !! y = Some (with_width e w)).
           { rewrite lookup_insert_ne by exact Hne. exact H1. }
           rewrite (bind_eq _ _ _ _ _
                      (modify_eq y (fun o => with_space_type o traffic_area) _ _ H2)).
           reflexivity.
        -- assert (Hinner :
                     (exec set_road_width float_str local_var y hdw cdw;
                      do p <- buffer_osm_element y;
                      ret (acc ++ [p])) h = (h, Raise ex)).
           { rewrite (bind_raise _ _ _ _ _ Hs). reflexivity. }
           rewrite (bind_raise _ _ _ _ _ Hinner). reflexivity.
      * assert (Hinner : ret acc h = (h, Ok acc)) by reflexivity.
        rewrite (bind_eq _ _ _ _ _ Hinner).
        rewrite (bind_eq _ _ _ _ _
                   (modify_eq y (fun o => with_space_type o traffic_area) h e He)).
        reflexivity.
Qed.

Lemma highway_body_reads acc y (h h' : heap) acc' :
  highway_body float_str local_var hdw cdw acc y h = (h', Ok acc') -> is_Some (h !! y).
Proof.
  unfold highway_body. intros H. apply bind_ok in H as (e & h1 & Hr & _).
  apply read_ok in Hr as [_ He]. eauto.
Qed.

Lemma highway_effect_same e e' :
  tags e' = tags e -> geom e' = geom e ->
  highway_effect float_str local_var hdw cdw e' =
    if is_pedestrian_way e then
      if is_crossing e then e' else with_space_type e' walking_area
    else if is_irrelevant_highway e then with_space_type e' traffic_area
    else if is_linestring e then
      match resolve_width float_str local_var e hdw cdw with
      | Ok w => with_space_type (with_width e' w) traffic_area
      | Raise _ => e'
      end
    else with_space_type e' traffic_area.
Proof.
  intros Ht Hg. unfold highway_effect.
  rewrite (is_pedestrian_way_tags e e' Ht), (is_crossing_tags e e' Ht).
  rewrite (resolve_width_tags float_str local_var e e' hdw cdw Ht).
  unfold is_irrelevant_highway, is_linestring. rewrite Ht, Hg. reflexivity.
Qed.

Lemma highway_effect_tags e : tags (highway_effect float_str local_var hdw cdw e) = tags e.
Proof.
  unfold highway_effect.
  repeat match goal with
         | |- context [if ?b then _ else _] => destruct b
         | |- context [match ?r with Ok _ => _ | Raise _ => _ end] => destruct r
         end; reflexivity.
Qed.

Lemma highway_effect_geom e : geom (highway_effect float_str local_var hdw cdw e) = geom e.
Proof.
  unfold highway_effect.
  repeat match goal with
         | |- context [if ?b then _ else _] => destruct b
         | |- context [match ?r with Ok _ => _ | Raise _ => _ end] => destruct r
         end; reflexivity.
Qed.

Lemma highway_effect_idem e :
  highway_effect float_str local_var hdw cdw (highway_effect float_str local_var hdw cdw e)
  = highway_effect float_str local_var hdw cdw e.
Proof.
  rewrite (highway_effect_same e _ (highway_effect_tags e) (highway_effect_geom e)).
  unfold highway_effect.
  destruct (is_pedestrian_way e); [destruct (is_crossing e); reflexivity |].
  destruct (is_irrelevant_highway e); [reflexivity |].
  destruct (is_linestring e); [| reflexivity].
  destruct (resolve_width float_str local_var e hdw cdw); reflexivity.
Qed.

Lemma highway_polygon_same e e' :
  tags e' = tags e -> geom e' = geom e ->
  highway_polygon float_str local_var hdw cdw e' = highway_polygon float_str local_var hdw cdw e.
Proof.
  intros Ht Hg. unfold highway_polygon, buffered_geom.
  rewrite (is_pedestrian_way_tags e e' Ht).
  rewrite (resolve_width_tags float_str local_var e e' hdw cdw Ht).
  unfold is_irrelevant_highway, is_linestring. rewrite Ht, Hg. reflexivity.
Qed.

Lemma highway_body_spec acc y (h h' : heap) acc' :
  highway_body float_str local_var hdw cdw acc y h = (h', Ok acc') ->
  exists e, h !! y = Some e /\
    h' !! y = Some (highway_effect float_str local_var hdw cdw e) /\
    (forall l0 c, l0 <> y -> h !! l0 = Some c -> h' !! l0 = Some c) /\
    exists new, acc' = acc ++ new /\
      geoms_at h' new (highway_polygon float_str local_var hdw cdw e) /\
      (forall p, p ∈ new -> h !! p = None).
Proof.
  intros Hrun. destruct (highway_body_reads _ _ _ _ _ Hrun) as [e He].
  exists e. split; [exact He |].
  rewrite (highway_body_run acc y h e He) in Hrun.
  unfold highway_effect, highway_polygon.
  destruct (is_pedestrian_way e); simpl.
  - destruct (is_crossing e); inversion Hrun; subst h' acc'.
    + split; [exact He |]. split; [auto |].
      exists []. rewrite app_nil_r. repeat split; [constructor | intros p Hp; inversion Hp].
    + split; [apply lookup_insert_eq |]. split.
      * intros l0 c Hne Hc. rewrite lookup_insert_ne by congruence. exact Hc.
      * exists []. rewrite app_nil_r. repeat split; [constructor | intros p Hp; inversion Hp].
  - destruct (is_irrelevant_highway e); simpl.
    + inversion Hrun; subst h' acc'.
      split; [apply lookup_insert_eq |]. split.
      * intros l0 c Hne Hc. rewrite lookup_insert_ne by congruence. exact Hc.
      * exists []. rewrite app_nil_r. repeat split; [constructor | intros p Hp; inversion Hp].
    + destruct (is_linestring e).
      * destruct (resolve_width float_str local_var e hdw cdw) as [w | ex];
          [| discriminate Hrun].
        inversion Hrun; subst h' acc'. clear Hrun.
        pose proof (fresh_loc_unused h) as Hf.
        assert (Hne : fresh (dom h) <> y) by congruence.
        split; [apply lookup_insert_eq |]. split.
        -- intros l0 c Hne0 Hc.
           rewrite lookup_insert_ne by congruence.
           rewrite lookup_insert_ne by congruence.
           rewrite lookup_insert_ne by congruence. exact Hc.
        -- exists [fresh (dom h)]. split; [reflexivity |]. split.
           ++ constructor; [| constructor].
              eexists. split.
              ** rewrite lookup_insert_ne by congruence. apply lookup_insert_eq.
              ** reflexivity.
           ++ intros p Hp. apply list_elem_of_singleton in Hp. subst p. exact Hf.
      * inversion Hrun; subst h' acc'.
        split; [apply lookup_insert_eq |]. split.
        -- intros l0 c Hne Hc. rewrite lookup_insert_ne by congruence. exact Hc.
        -- exists []. rewrite app_nil_r.
           repeat split; [constructor | intros p Hp; inversion Hp].
Qed.
End HighwayPass.

Lemma bool_decide_selected (p : OsmElement -> bool) (h : heap) (l r : list loc) x e :
  (x ∈ r <-> x ∈ l /\ exists e', h !! x = Some e' /\ p e' = true) ->
  h !! x = Some e ->
  bool_decide (x ∈ r) = bool_decide (x ∈ l) && p e.
Proof.
  intros Hiff He. apply Bool.eq_iff_eq_true.
  rewrite andb_true_iff, !bool_decide_eq_true, Hiff. split.
  - intros (Hx & e' & He' & Hp). split; [exact Hx | congruence].
  - intros [Hx Hp]. split; [exact Hx | eauto].
Qed.

Section HighwayPassTheorems.
Context {py_round : PyRound}.
Variable float_str : string -> option Q.
Variable local_var : local_variables.

Lemma polygonize_highways_exact els hdw cdw (h h1 : heap) hs :
  polygonize_highways float_str local_var els hdw cdw h = (h1, Ok hs) ->
  (forall x e, h !! x = Some e ->
     h1 !! x = Some (if bool_decide (x ∈ els) && is_highway e
                     then highway_effect float_str local_var hdw cdw e else e)) /\
  geoms_at h1 hs
    (flat_map (highway_polygon float_str local_var hdw cdw)
       (List.filter is_highway (elems h els))) /\
  (forall p, p ∈ hs -> h !! p = None) /\
  (forall x, x ∈ els -> is_Some (h !! x)).
Proof.
  unfold polygonize_highways. intros Hrun.
  apply bind_ok in Hrun as (r & h0 & Hf & Hrun).
  destruct (filter_elements_elems _ _ _ _ _ Hf) as [Hsel Hall].
  apply filter_elements_ok in Hf as [-> Hmem].
  change (for_each (highway_body float_str local_var hdw cdw) [] r h = (h1, Ok hs)) in Hrun.
  destruct (for_each_effect (highway_body float_str local_var hdw cdw)
              (highway_effect float_str local_var hdw cdw)
              (highway_polygon float_str local_var hdw cdw)
              (highway_effect_idem float_str local_var hdw cdw)
              (highway_effect_geom float_str local_var hdw cdw)
              (fun e => highway_polygon_same float_str local_var hdw cdw e _
                          (highway_effect_tags float_str local_var hdw cdw e)
                          (highway_effect_geom float_str local_var hdw cdw e))
              (highway_body_spec float_str local_var hdw cdw)
              r [] h h1 hs)
    as (Heff & new & -> & Hg & Hfresh); [| exact Hrun |].
  { intros x Hx. apply Hmem in Hx as (_ & e & He & _). eauto. }
  split; [| split; [| split]].
  - intros x e He. rewrite (Heff x e He).
    rewrite (bool_decide_selected (fun e => has_tag e "highway") h els r x e (Hmem x) He).
    reflexivity.
  - rewrite Hsel in Hg. exact Hg.
  - exact Hfresh.
  - exact Hall.
Qed.

(** X7: when the highway pass returns, every object that was in the store is
    still there: an element of the list that has a highway tag as
    [highway_effect] leaves it (walking area for a pedestrian way that is no
    crossing and nothing for one that is, traffic area otherwise, with the
    resolved width for a line that is neither pedestrian way nor irrelevant),
    and every other object exactly as it was. *)
Theorem highway_pass_effect els hdw cdw (h h1 : heap) hs x e :
  polygonize_highways float_str local_var els hdw cdw h = (h1, Ok hs) ->
  h !! x = Some e ->
  h1 !! x = Some (if bool_decide (x ∈ els) && is_highway e
                  then highway_effect float_str local_var hdw cdw e else e).
Proof.
  intros Hrun. apply (proj1 (polygonize_highways_exact _ _ _ _ _ _ Hrun)).
Qed.

End HighwayPassTheorems.

(** ** The railway pass, exactly *)

Section RailwayPass.
Context {py_round : PyRound}.
Variables tg tb rg rb : Q.

Lemma railway_body_run acc y (h : heap) e :
  h !! y = Some e ->
  railway_body tg tb rg rb acc y h =
    match railway_width tg tb rg rb e with
    | Some w =>
        (<[y := with_space_type (with_width e w) traffic_area]>
           (<[fresh (dom h) := with_geom (with_width e w) (buffered_geom e w)]>
              (<[y := with_width e w]> h)),
         Ok (acc ++ [fresh (dom h)]))
    | None =>
        if is_platform e then (h, Ok acc)
        else (<[y := with_space_type e traffic_area]> h, Ok acc)
    end.
Proof.
  intros He. unfold railway_body. rewrite (bind_eq _ _ _ _ _ (read_eq _ _ _ He)).
  assert (Hbuffered : forall w,
             in_list (tags e !! "railway") ["tram"; "rail"] = true ->
             get_is (tags e !! "railway") "platform" = false ->
             (do acc' <- (if in_list (tags e !! "railway") ["tram"; "rail"] then
                            do p <- buffer_osm_element y;
                            ret (acc ++ [p])
                          else ret acc);
              exec (if negb (get_is (tags e !! "railway") "platform") then
                      modify y (fun o => with_space_type o traffic_area)
                    else ret tt);
              ret acc') (<[y := with_width e w]> h)
             = (<[y := with_space_type (with_width e w) traffic_area]>
                  (<[fresh (dom h) := with_geom (with_width e w) (buffered_geom e w)]>
                     (<[y := with_width e w]> h)),
                Ok (acc ++ [fresh (dom h)]))).
  { intros w Hin Hpl. rewrite Hin, Hpl. simpl.
    assert (H1 : <[y := with_width e w]> h !! y = Some (with_width e w))
      by apply lookup_insert_eq.
    pose proof (buffer_osm_element_eq y _ _ H1) as Hb. simpl in Hb.
    rewrite (fresh_after_update h y e _ He) in Hb.
    pose proof (fresh_loc_unused h) as Hf.
    assert (Hne : fresh (dom h) <> y) by congruence.
    assert (Hinner :
              (do p <- buffer_osm_element y; ret (acc ++ [p])) (<[y := with_width e w]> h)
              = (<[fresh (dom h) := with_geom (with_width e w) (buffered_geom e w)]>
                   (<[y := with_width e w]> h), Ok (acc ++ [fresh (dom h)]))).
    { rewrite (bind_eq _ _ _ _ _ Hb). reflexivity. }
    rewrite (bind_eq _ _ _ _ _ Hinner).
    assert (H2 : <[fresh (dom h) := with_geom (with_width e w) (buffered_geom e w)]>
                   (<[y := with_width e w]> h) !! y = Some (with_width e w)).
    { rewrite lookup_insert_ne by exact Hne. exact H1. }
    rewrite (bind_eq _ _ _ _ _
               (modify_eq y (fun o => with_space_type o traffic_area) _ _ H2)).
    reflexivity. }
  unfold railway_width, is_platform.
  destruct (tags e !! "railway") as [s |] eqn:Hs; simpl in *.
  - destruct (String.eqb_spec s "tram") as [-> | Htram]; simpl in *.
    + rewrite (bind_eq _ _ _ _ _ (modify_eq y (fun o => with_width o (tg + tb)%Q) h e He)).
      apply Hbuffered; reflexivity.
    + destruct (String.eqb_spec s "rail") as [-> | Hrail]; simpl in *.
      * rewrite (bind_eq _ _ _ _ _ (modify_eq y (fun o => with_width o (rg + rb)%Q) h e He)).
        apply Hbuffered; reflexivity.
      * assert (Hskip : ret tt h = (h, Ok tt)) by reflexivity.
        rewrite (bind_eq _ _ _ _ _ Hskip).
        assert (Hinner : ret acc h = (h, Ok acc)) by reflexivity.
        rewrite (bind_eq _ _ _ _ _ Hinner).
        destruct (String.eqb s "platform"); simpl; [reflexivity |].
        rewrite (bind_eq _ _ _ _ _
                   (modify_eq y (fun o => with_space_type o traffic_area) h e He)).
        reflexivity.
  - assert (Hskip : ret tt h = (h, Ok tt)) by reflexivity.
    rewrite (bind_eq _ _ _ _ _ Hskip).
    assert (Hinner : ret acc h = (h, Ok acc)) by reflexivity.
    rewrite (bind_eq _ _ _ _ _ Hinner).
    rewrite (bind_eq _ _ _ _ _
               (modify_eq y (fun o => with_space_type o traffic_area) h e He)).
    reflexivity.
Qed.

Lemma railway_effect_tags e : tags (railway_effect tg tb rg rb e) = tags e.
Proof.
  unfold railway_effect. destruct (railway_width tg tb rg rb e); [reflexivity |].
  destruct (get_is (tags e !! "railway") "platform"); reflexivity.
Qed.

Lemma railway_effect_geom e : geom (railway_effect tg tb rg rb e) = geom e.
Proof.
  unfold railway_effect. destruct (railway_width tg tb rg rb e); [reflexivity |].
  destruct (get_is (tags e !! "railway") "platform"); reflexivity.
Qed.

Lemma railway_width_same e e' :
  tags e' = tags e -> railway_width tg tb rg rb e' = railway_width tg tb rg rb e.
Proof. intros Ht. unfold railway_width. rewrite Ht. reflexivity. Qed.

Lemma railway_polygon_same e e' :
  tags e' = tags e -> geom e' = geom e ->
  railway_polygon tg tb rg rb e' = railway_polygon tg tb rg rb e.
Proof.
  intros Ht Hg. unfold railway_polygon, buffered_geom.
  rewrite (railway_width_same e e' Ht), Hg. reflexivity.
Qed.

Lemma railway_effect_idem e :
  railway_effect tg tb rg rb (railway_effect tg tb rg rb e) = railway_effect tg tb rg rb e.
Proof.
  unfold railway_effect at 1.
  rewrite (railway_width_same e _ (railway_effect_tags e)), (railway_effect_tags e).
  unfold railway_effect.
  destruct (railway_width tg tb rg rb e); [reflexivity |].
  destruct (get_is (tags e !! "railway") "platform"); reflexivity.
Qed.

Lemma railway_body_spec acc y (h h' : heap) acc' :
  railway_body tg tb rg rb acc y h = (h', Ok acc') ->
  exists e, h !! y = Some e /\
    h' !! y = Some (railway_effect tg tb rg rb e) /\
    (forall l0 c, l0 <> y -> h !! l0 = Some c -> h' !! l0 = Some c) /\
    exists new, acc' = acc ++ new /\
      geoms_at h' new (railway_polygon tg tb rg rb e) /\
      (forall p, p ∈ new -> h !! p = None).
Proof.
  intros Hrun.
  assert (Hy : is_Some (h !! y)).
  { unfold railway_body in Hrun. apply bind_ok in Hrun as (e & h1 & Hr & _).
    apply read_ok in Hr as [_ He]. eauto. }
  destruct Hy as [e He]. exists e. split; [exact He |].
  rewrite (railway_body_run acc y h e He) in Hrun.
  unfold railway_effect, railway_polygon, is_platform in *.
  destruct (railway_width tg tb rg rb e) as [w |].
  - inversion Hrun; subst h' acc'. clear Hrun.
    pose proof (fresh_loc_unused h) as Hf.
    assert (Hne : fresh (dom h) <> y) by congruence.
    split; [apply lookup_insert_eq |]. split.
    + intros l0 c Hne0 Hc.
      rewrite lookup_insert_ne by congruence.
      rewrite lookup_insert_ne by congruence.
      rewrite lookup_insert_ne by congruence. exact Hc.
    + exists [fresh (dom h)]. split; [reflexivity |]. split.
      * constructor; [| constructor]. eexists. split.
        -- rewrite lookup_insert_ne by congruence. apply lookup_insert_eq.
        -- reflexivity.
      * intros p Hp. apply list_elem_of_singleton in Hp. subst p. exact Hf.
  - destruct (get_is (tags e !! "railway") "platform"); inversion Hrun; subst h' acc'.
    + split; [exact He |]. split; [auto |].
      exists []. rewrite app_nil_r. repeat split; [constructor | intros p Hp; inversion Hp].
    + split; [apply lookup_insert_eq |]. split.
      * intros l0 c Hne Hc. rewrite lookup_insert_ne by congruence. exact Hc.
      * exists []. rewrite app_nil_r. repeat split; [constructor | intros p Hp; inversion Hp].
Qed.

Lemma polygonize_railways_exact els (h h1 : heap) rs :
  polygonize_railways els tg tb rg rb h = (h1, Ok rs) ->
  (forall x e, h !! x = Some e ->
     h1 !! x = Some (if bool_decide (x ∈ els) && is_railway_line e
                     then railway_effect tg tb rg rb e else e)) /\
  geoms_at h1 rs
    (flat_map (railway_polygon tg tb rg rb) (List.filter is_railway_line (elems h els))) /\
  (forall p, p ∈ rs -> h !! p = None).
Proof.
  unfold polygonize_railways. intros Hrun.
  apply bind_ok in Hrun as (r & h0 & Hf & Hrun).
  destruct (filter_elements_elems _ _ _ _ _ Hf) as [Hsel Hall].
  apply filter_elements_ok in Hf as [-> Hmem].
  change (for_each (railway_body tg tb rg rb) [] r h = (h1, Ok rs)) in Hrun.
  destruct (for_each_effect (railway_body tg tb rg rb)
              (railway_effect tg tb rg rb) (railway_polygon tg tb rg rb)
              railway_effect_idem railway_effect_geom
              (fun e => railway_polygon_same e _ (railway_effect_tags e) (railway_effect_geom e))
              railway_body_spec r [] h h1 rs)
    as (Heff & new & -> & Hg & Hfresh); [| exact Hrun |].
  { intros x Hx. apply Hmem in Hx as (_ & e & He & _). eauto. }
  split; [| split].
  - intros x e He. rewrite (Heff x e He).
    rewrite (bool_decide_selected (fun e => is_linestring e && has_tag e "railway")
               h els r x e (Hmem x) He).
    reflexivity.
  - rewrite Hsel in Hg. exact Hg.
  - exact Hfresh.
Qed.

(** X9: when the railway pass returns, a line of the list with a railway tag
    has the gauge-based width and is traffic area if it is a tram or rail
    line, is untouched if it is a platform, and is traffic area with its
    width untouched otherwise; every other object is exactly as it was.  The
    polygons returned are new objects, one per tram or rail line in the order
    of the list: the line buffered with flat caps by [round(w / 2, 1)] for
    that width [w], whatever [round] returns. *)
Theorem railway_pass_effect els (h h1 : heap) rs :
  polygonize_railways els tg tb rg rb h = (h1, Ok rs) ->
  (forall x e, h !! x = Some e ->
     h1 !! x = Some (if bool_decide (x ∈ els) && is_railway_line e
                     then railway_effect tg tb rg rb e else e)) /\
  geoms_at h1 rs
    (flat_map (railway_polygon tg tb rg rb) (List.filter is_railway_line (elems h els))) /\
  (forall p, p ∈ rs -> h !! p = None).
Proof. apply polygonize_railways_exact. Qed.
End RailwayPass.

(** ** The cropper geometries, exactly *)

Lemma flat_map_singleton {A B} (f : A -> B) (l : list A) :
  flat_map (fun x => [f x]) l = map f l.
Proof. induction l as [| x l IH]; simpl; [reflexivity | rewrite IH; reflexivity]. Qed.

Lemma elems_map (f : OsmElement -> OsmElement) (h h' : heap) l :
  (forall x, x ∈ l -> is_Some (h !! x)) ->
  (forall x e, x ∈ l -> h !! x = Some e -> h' !! x = Some (f e)) ->
  elems h' l = map f (elems h l).
Proof.
  induction l as [| x l IH]; intros Hall Hf; [reflexivity |].
  destruct (Hall x (list_elem_of_here _ _)) as [e He].
  rewrite (elems_cons h x l e He).
  rewrite (elems_cons h' x l (f e) (Hf x e (list_elem_of_here _ _) He)).
  simpl. rewrite IH; [reflexivity | |].
  - intros y Hy. apply Hall, list_elem_of_further, Hy.
  - intros y c Hy. apply Hf, list_elem_of_further, Hy.
Qed.

Lemma elems_same (h h' : heap) l :
  (forall x, x ∈ l -> is_Some (h !! x)) ->
  (forall x e, h !! x = Some e -> h' !! x = Some e) ->
  elems h' l = elems h l.
Proof.
  intros Hall Hp. rewrite (elems_map (fun e => e) h h' l Hall).
  - apply map_id.
  - intros x e _. apply Hp.
Qed.

Lemma geoms_of_elems (h : heap) l :
  (forall x, x ∈ l -> is_Some (h !! x)) ->
  geoms_of l h = (h, Ok (map geom (elems h l))).
Proof.
  induction l as [| x l IH]; intros Hall; [reflexivity |].
  destruct (Hall x (list_elem_of_here _ _)) as [e He].
  rewrite (elems_cons h x l e He). simpl.
  rewrite (bind_eq _ _ _ _ _ (read_eq _ _ _ He)).
  rewrite (bind_eq _ _ _ _ _ (IH (fun y Hy => Hall y (list_elem_of_further _ _ _ Hy)))).
  reflexivity.
Qed.

Lemma buffer_list_body_spec size join cap acc y (h h' : heap) acc' :
  (do c <- deepcopy y;
   do e <- read y;
   exec modify c (fun o => with_geom o (buffer (geom e) size cap join));
   ret (acc ++ [c])) h = (h', Ok acc') ->
  exists e, h !! y = Some e /\ h' !! y = Some e /\
    (forall l0 c, l0 <> y -> h !! l0 = Some c -> h' !! l0 = Some c) /\
    exists new, acc' = acc ++ new /\
      geoms_at h' new [Buffer (geom e) size cap join] /\
      (forall p, p ∈ new -> h !! p = None).
Proof.
  intros Hrun. destruct (h !! y) as [e |] eqn:He.
  - exists e. split; [reflexivity |].
    pose proof (fresh_loc_unused h) as Hf.
    assert (Hne : fresh (dom h) <> y) by congruence.
    rewrite (bind_eq _ _ _ _ _ (deepcopy_eq _ _ _ He)) in Hrun.
    assert (H1 : <[fresh (dom h) := e]> h !! y = Some e).
    { rewrite lookup_insert_ne by exact Hne. exact He. }
    rewrite (bind_eq _ _ _ _ _ (read_eq _ _ _ H1)) in Hrun.
    assert (H2 : <[fresh (dom h) := e]> h !! fresh (dom h) = Some e)
      by apply lookup_insert_eq.
    rewrite (bind_eq _ _ _ _ _
               (modify_eq (fresh (dom h))
                  (fun o => with_geom o (buffer (geom e) size cap join)) _ _ H2)) in Hrun.
    rewrite insert_insert_eq in Hrun. inversion Hrun; subst h' acc'. clear Hrun.
    split; [rewrite lookup_insert_ne by exact Hne; exact He |]. split.
    + intros l0 c _ Hc. rewrite lookup_insert_ne by congruence. exact Hc.
    + exists [fresh (dom h)]. split; [reflexivity |]. split.
      * constructor; [| constructor]. eexists. split; [apply lookup_insert_eq | reflexivity].
      * intros p Hp. apply list_elem_of_singleton in Hp. subst p. exact Hf.
  - unfold bind, deepcopy in Hrun. rewrite He in Hrun. discriminate Hrun.
Qed.

Lemma buffer_list_of_elements_exact l size join cap (h h' : heap) bs :
  (forall x, x ∈ l -> is_Some (h !! x)) ->
  buffer_list_of_elements l size join cap h = (h', Ok bs) ->
  (forall x e, h !! x = Some e -> h' !! x = Some e) /\
  geoms_at h' bs (map (fun e => Buffer (geom e) size cap join) (elems h l)).
Proof.
  intros Hall Hrun. unfold buffer_list_of_elements in Hrun.
  destruct (for_each_effect _ (fun e => e) (fun e => [Buffer (geom e) size cap join])
              (fun e => eq_refl) (fun e => eq_refl) (fun e => eq_refl)
              (buffer_list_body_spec size join cap) l [] h h' bs Hall Hrun)
    as (Heff & new & -> & Hg & _).
  split.
  - intros x e He. rewrite (Heff x e He). destruct (bool_decide (x ∈ l)); reflexivity.
  - rewrite flat_map_singleton in Hg. exact Hg.
Qed.

Lemma get_cropper_geometries_exact els areas buildings pw bw (h h' : heap) cg :
  (forall b, b ∈ buildings -> is_Some (h !! b)) ->
  get_cropper_geometries els areas buildings pw bw h = (h', Ok cg) ->
  (forall x e, h !! x = Some e -> h' !! x = Some e) /\
  cg = cropper_geometries_of pw bw (elems h els) (elems h buildings) areas.
Proof.
  intros Hbs Hrun. unfold get_cropper_geometries in Hrun.
  apply bind_ok in Hrun as (ws & h0 & Hws & Hrun).
  destruct (filter_elements_elems _ _ _ _ _ Hws) as [Hwsel Hall].
  apply filter_elements_ok in Hws as [-> Hwmem].
  apply bind_ok in Hrun as (wb & h1 & Hwb & Hrun).
  destruct (buffer_list_of_elements_exact ws (pw / 2)%Q JoinRound CapFlat h h1 wb)
    as [Hp1 Hg1]; [| exact Hwb |].
  { intros x Hx. apply Hwmem in Hx as (_ & e & He & _). eauto. }
  apply bind_ok in Hrun as (bb & h2 & Hbb & Hrun).
  destruct (buffer_list_of_elements_exact buildings bw JoinMitre CapRound h1 h2 bb)
    as [Hp2 Hg2]; [| exact Hbb |].
  { intros b Hb. destruct (Hbs b Hb) as [e He]. rewrite (Hp1 b e He). eauto. }
  assert (Hp : forall x e, h !! x = Some e -> h2 !! x = Some e).
  { intros x e He. apply Hp2, Hp1, He. }
  apply bind_ok in Hrun as (ps & h3 & Hps & Hrun).
  destruct (filter_elements_elems _ _ _ _ _ Hps) as [Hpsel _].
  apply filter_elements_ok in Hps as [-> Hpmem].
  apply bind_ok in Hrun as (g1 & h4 & Hq1 & Hrun).
  rewrite (geoms_at_geoms_of h2 wb _ (geoms_at_mono h1 h2 _ _ Hg1
             (fun p c Hc => ex_intro _ c (conj (Hp2 p c Hc) eq_refl)))) in Hq1.
  inversion Hq1; subst h4 g1; clear Hq1.
  apply bind_ok in Hrun as (g2 & h4 & Hq2 & Hrun).
  rewrite (geoms_at_geoms_of h2 bb _ Hg2) in Hq2. inversion Hq2; subst h4 g2; clear Hq2.
  apply bind_ok in Hrun as (g3 & h4 & Hq3 & Hrun).
  rewrite (geoms_of_elems h2 ps) in Hq3.
  2: { intros x Hx. apply Hpmem in Hx as (_ & e & He & _). eauto. }
  inversion Hq3; subst h4 g3; clear Hq3.
  inversion Hrun; subst h' cg; clear Hrun.
  split; [exact Hp |].
  unfold cropper_geometries_of.
  rewrite Hwsel, Hpsel.
  rewrite (elems_same h h1 buildings Hbs Hp1).
  rewrite (elems_same h h2 els Hall Hp).
  reflexivity.
Qed.

(** X10: when the collector of cropper geometries returns (the buildings
    being objects of the store), it has changed no object that was there, and
    the list is: every pedestrian way of the input buffered with flat caps by
    half the pedestrian-way width, every building buffered with mitred joins
    by the clearance width, the geometry of every element with
    railway=platform as it is, and the inaccessible areas as they are, in
    this order. *)
Theorem cropper_collector_is_exact els areas buildings pw bw (h h' : heap) cg :
  (forall b, b ∈ buildings -> is_Some (h !! b)) ->
  get_cropper_geometries els areas buildings pw bw h = (h', Ok cg) ->
  (forall x e, h !! x = Some e -> h' !! x = Some e) /\
  cg = map (fun e => Buffer (geom e) (pw / 2) CapFlat JoinRound)
         (List.filter is_pedestrian_way (elems h els))
       ++ map (fun e => Buffer (geom e) bw CapRound JoinMitre) (elems h buildings)
       ++ map geom (List.filter is_platform (elems h els))
       ++ areas.
Proof. apply get_cropper_geometries_exact. Qed.

(** ** The whole call, exactly *)

Lemma elems_shape (h h' : heap) l :
  (forall x, x ∈ l -> is_Some (h !! x)) ->
  (forall x e, h !! x = Some e -> exists e', h' !! x = Some e' /\ same_shape e e') ->
  Forall2 same_shape (elems h l) (elems h' l).
Proof.
  induction l as [| x l IH]; intros Hall Hs; [constructor |].
  destruct (Hall x (list_elem_of_here _ _)) as [e He].
  destruct (Hs x e He) as (e' & He' & Hsh).
  rewrite (elems_cons h x l e He), (elems_cons h' x l e' He').
  constructor; [exact Hsh |]. apply IH; [| exact Hs].
  intros y Hy. apply Hall, list_elem_of_further, Hy.
Qed.

Lemma flat_map_filter_shape {B} (P : OsmElement -> bool) (out : OsmElement -> list B) l l' :
  (forall e e', same_shape e e' -> P e' = P e /\ out e' = out e) ->
  Forall2 same_shape l l' ->
  flat_map out (List.filter P l') = flat_map out (List.filter P l).
Proof.
  intros HP. induction 1 as [| e e' l l' Hs _ IH]; [reflexivity |].
  destruct (HP e e' Hs) as [Hp Ho]. simpl. rewrite Hp.
  destruct (P e); simpl; rewrite IH; [rewrite Ho |]; reflexivity.
Qed.

Lemma map_filter_shape {B} (P : OsmElement -> bool) (g : OsmElement -> B) l l' :
  (forall e e', same_shape e e' -> P e' = P e /\ g e' = g e) ->
  Forall2 same_shape l l' ->
  map g (List.filter P l') = map g (List.filter P l).
Proof.
  intros HP Hs. rewrite <- !flat_map_singleton.
  apply flat_map_filter_shape; [| exact Hs].
  intros e e' He. destruct (HP e e' He) as [Hp Hg]. split; [exact Hp | rewrite Hg; reflexivity].
Qed.

Lemma map_shape {B} (g : OsmElement -> B) l l' :
  (forall e e', same_shape e e' -> g e' = g e) ->
  Forall2 same_shape l l' -> map g l' = map g l.
Proof.
  intros Hg. induction 1 as [| e e' l l' Hs _ IH]; [reflexivity |].
  simpl. rewrite (Hg e e' Hs), IH. reflexivity.
Qed.

Section WholeCall.
Context {py_round : PyRound}.
Variable float_str : string -> option Q.
Variable local_var : local_variables.
Variable hdw : option (dict (Q * Q)).
Variable cdw : option (dict (dict Q)).
Variables tg tb rg rb pw bw : Q.

Lemma after_highways_shape e : same_shape e (after_highways float_str local_var hdw cdw e).
Proof.
  unfold after_highways, same_shape. destruct (is_highway e); [| auto].
  split; [apply highway_effect_tags | apply highway_effect_geom].
Qed.

Lemma after_railways_shape e : same_shape e (after_railways tg tb rg rb e).
Proof.
  unfold after_railways, same_shape. destruct (is_railway_line e); [| auto].
  split; [apply railway_effect_tags | apply railway_effect_geom].
Qed.

Lemma same_shape_trans e1 e2 e3 : same_shape e1 e2 -> same_shape e2 e3 -> same_shape e1 e3.
Proof. unfold same_shape. intros [? ?] [? ?]. split; congruence. Qed.

Lemma call_effect_shape e :
  same_shape e (call_effect float_str local_var hdw cdw tg tb rg rb e).
Proof.
  unfold call_effect.
  exact (same_shape_trans _ _ _ (after_highways_shape e) (after_railways_shape _)).
Qed.

Lemma is_railway_line_shape e e' : same_shape e e' -> is_railway_line e' = is_railway_line e.
Proof.
  intros [Ht Hg]. unfold is_railway_line, is_linestring, has_tag. rewrite Ht, Hg. reflexivity.
Qed.

Lemma is_highway_shape e e' : same_shape e e' -> is_highway e' = is_highway e.
Proof. intros [Ht _]. unfold is_highway, has_tag. rewrite Ht. reflexivity. Qed.

Lemma is_platform_shape e e' : same_shape e e' -> is_platform e' = is_platform e.
Proof. intros [Ht _]. unfold is_platform. rewrite Ht. reflexivity. Qed.

Lemma get_traffic_areas_as_polygons_exact els areas buildings (h h' : heap) g :
  (forall b, b ∈ buildings -> is_Some (h !! b)) ->
  get_traffic_areas_as_polygons float_str local_var els areas buildings hdw cdw
    tg tb rg rb pw bw h = (h', Ok g) ->
  (forall x e, h !! x = Some e ->
     h' !! x = Some (if bool_decide (x ∈ els)
                     then call_effect float_str local_var hdw cdw tg tb rg rb e else e)) /\
  g = traffic_area_geometry float_str local_var hdw cdw tg tb rg rb pw bw
        (elems h els) (elems h buildings) areas /\
  (forall x, x ∈ els -> is_Some (h !! x)).
Proof.
  intros Hbs Hrun. unfold get_traffic_areas_as_polygons, get_traffic_areas in Hrun.
  apply bind_ok in Hrun as (tas & h2 & Hta & Hrun).
  apply bind_ok in Hta as (hs & h1 & Hhw & Hta).
  apply bind_ok in Hta as (rs & h2' & Hrw & Hta).
  inversion Hta; subst h2' tas; clear Hta.
  destruct (polygonize_highways_exact _ _ _ _ _ _ _ _ Hhw) as (Heff1 & Hg1 & _ & Hall).
  destruct (polygonize_railways_exact _ _ _ _ _ _ _ _ Hrw) as (Heff2 & Hg2 & _).
  assert (Heff12 : forall x e, h !! x = Some e ->
            h2 !! x = Some (if bool_decide (x ∈ els)
                            then call_effect float_str local_var hdw cdw tg tb rg rb e
                            else e)).
  { intros x e He. rewrite (Heff2 x _ (Heff1 x e He)).
    unfold call_effect, after_highways, after_railways.
    destruct (bool_decide (x ∈ els)); reflexivity. }
  assert (Hshape12 : forall x e, h !! x = Some e ->
            exists e', h2 !! x = Some e' /\ same_shape e e').
  { intros x e He. eexists. split; [apply (Heff12 x e He) |].
    destruct (bool_decide (x ∈ els)); [apply call_effect_shape | split; reflexivity]. }
  apply bind_ok in Hrun as (cg & h3 & Hcg & Hrun).
  destruct (get_cropper_geometries_exact _ _ _ _ _ _ _ _
              (fun b Hb => match Hbs b Hb with
                           | ex_intro _ e He => ex_intro _ _ (Heff12 b e He)
                           end) Hcg) as [Hp3 ->].
  apply bind_ok in Hrun as (gs & h4 & Hgs & Hrun).
  assert (Hcands : geoms_at h3 (hs ++ rs)
            (flat_map (highway_polygon float_str local_var hdw cdw)
               (List.filter is_highway (elems h els))
             ++ flat_map (railway_polygon tg tb rg rb)
                  (List.filter is_railway_line (elems h1 els)))).
  { apply geoms_at_app.
    - apply (geoms_at_mono h1 h3 _ _ Hg1). intros p c Hc.
      eexists. split; [apply Hp3, (Heff2 p c Hc) |].
      destruct (bool_decide (p ∈ els) && is_railway_line c);
        [apply railway_effect_geom | reflexivity].
    - apply (geoms_at_mono h2 h3 _ _ Hg2). intros p c Hc. eauto. }
  rewrite (geoms_at_geoms_of h3 _ _ Hcands) in Hgs. inversion Hgs; subst h4 gs; clear Hgs.
  inversion Hrun; subst h' g; clear Hrun.
  split; [intros x e He; apply Hp3, Heff12, He |]. split; [| exact Hall].
  unfold traffic_area_geometry, traffic_polygons, cropper_geometries_of.
  assert (Hs1 : Forall2 same_shape (elems h els) (elems h1 els)).
  { apply elems_shape; [exact Hall |]. intros x e He.
    eexists. split; [apply (Heff1 x e He) |].
    destruct (bool_decide (x ∈ els) && is_highway e); [| split; reflexivity].
    split; [apply highway_effect_tags | apply highway_effect_geom]. }
  assert (Hs2 : Forall2 same_shape (elems h els) (elems h2 els))
    by (apply elems_shape; assumption).
  assert (Hs2b : Forall2 same_shape (elems h buildings) (elems h2 buildings))
    by (apply elems_shape; assumption).
  rewrite (flat_map_filter_shape is_railway_line (railway_polygon tg tb rg rb) _ _
             (fun e e' Hs => conj (is_railway_line_shape e e' Hs)
                               (railway_polygon_same tg tb rg rb e e' (proj1 Hs) (proj2 Hs)))
             Hs1).
  rewrite (map_filter_shape is_pedestrian_way
             (fun e => Buffer (geom e) (pw / 2) CapFlat JoinRound) _ _
             (fun e e' Hs => conj (is_pedestrian_way_tags e e' (proj1 Hs))
                               (f_equal (fun g => Buffer g (pw / 2) CapFlat JoinRound)
                                  (proj2 Hs)))
             Hs2).
  rewrite (map_filter_shape is_platform geom _ _
             (fun e e' Hs => conj (is_platform_shape e e' Hs) (proj2 Hs)) Hs2).
  rewrite (map_shape (fun e => Buffer (geom e) bw CapRound JoinMitre) _ _
             (fun e e' Hs => f_equal (fun g => Buffer g bw CapRound JoinMitre) (proj2 Hs))
             Hs2b).
  reflexivity.
Qed.

(** X11: when the call returns (the buildings being objects of the store),
    every object that was in the store is still there: an element of the
    input list as the highway pass and then the railway pass leave it, every
    other object -- a building, an element not passed in -- exactly as it
    was; nothing is deleted and no geometry, tag, id or access is written. *)
Theorem call_effect_on_store els areas buildings (h h' : heap) g x e :
  (forall b, b ∈ buildings -> is_Some (h !! b)) ->
  get_traffic_areas_as_polygons float_str local_var els areas buildings hdw cdw
    tg tb rg rb pw bw h = (h', Ok g) ->
  h !! x = Some e ->
  h' !! x = Some (if bool_decide (x ∈ els)
                  then call_effect float_str local_var hdw cdw tg tb rg rb e else e) /\
  same_shape e (call_effect float_str local_var hdw cdw tg tb rg rb e) /\
  id (call_effect float_str local_var hdw cdw tg tb rg rb e) = id e /\
  access (call_effect float_str local_var hdw cdw tg tb rg rb e) = access e.
Proof.
  intros Hbs Hrun He.
  split; [apply (proj1 (get_traffic_areas_as_polygons_exact _ _ _ _ _ _ Hbs Hrun)), He |].
  split; [apply call_effect_shape |].
  unfold call_effect, after_railways, after_highways, railway_effect, highway_effect.
  split;
    repeat match goal with
           | |- context [if ?b then _ else _] => destruct b
           | |- context [match ?r with Ok _ => _ | Raise _ => _ end] => destruct r
           | |- context [match ?r with Some _ => _ | None => _ end] => destruct r
           end; reflexivity.
Qed.

End WholeCall.

(** ** Consequences for the caller *)

Lemma is_pedestrian_way_is_highway e : is_pedestrian_way e = true -> is_highway e = true.
Proof.
  unfold is_pedestrian_way, is_highway, has_tag. intros H.
  apply andb_prop in H as [H _]. destruct (tags e !! "highway"); [reflexivity | discriminate H].
Qed.

Section Consequences.
Context {py_round : PyRound}.
Variable float_str : string -> option Q.
Variable local_var : local_variables.
Variable hdw : option (dict (Q * Q)).
Variable cdw : option (dict (dict Q)).
Variables tg tb rg rb pw bw : Q.

(** X13: a returning call leaves exactly as it was every object that is not
    in the list of elements, and every element that has no highway tag and
    is not a line with a railway tag. *)
Theorem other_objects_are_untouched els areas buildings (h h' : heap) g x e :
  (forall b, b ∈ buildings -> is_Some (h !! b)) ->
  get_traffic_areas_as_polygons float_str local_var els areas buildings hdw cdw
    tg tb rg rb pw bw h = (h', Ok g) ->
  h !! x = Some e ->
  x ∉ els \/ (is_highway e = false /\ is_railway_line e = false) ->
  h' !! x = Some e.
Proof.
  intros Hbs Hrun He Hout.
  rewrite (proj1 (get_traffic_areas_as_polygons_exact _ _ _ _ _ _ _ _ _ _ _ _ _ _ _ _
                    Hbs Hrun) x e He).
  destruct Hout as [Hx | [Hh Hr]].
  - rewrite (bool_decide_eq_false_2 _ Hx). reflexivity.
  - unfold call_effect, after_highways, after_railways. rewrite Hh, Hr.
    destruct (bool_decide (x ∈ els)); reflexivity.
Qed.

(** X14: after a returning call, a line of the input with railway=tram has
    the width tram gauge + tram buffer, and one with railway=rail the width
    train gauge + train buffer, whatever highway or width tags it carries;
    both are traffic area. *)
Theorem rail_lines_get_the_gauge_width els areas buildings (h h' : heap) g x e :
  (forall b, b ∈ buildings -> is_Some (h !! b)) ->
  get_traffic_areas_as_polygons float_str local_var els areas buildings hdw cdw
    tg tb rg rb pw bw h = (h', Ok g) ->
  x ∈ els -> h !! x = Some e -> is_linestring e = true ->
  tags e !! "railway" = Some "tram" \/ tags e !! "railway" = Some "rail" ->
  exists e',
    h' !! x = Some e' /\
    width e' = Some (if get_is (tags e !! "railway") "tram" then tg + tb else rg + rb)%Q /\
    space_type e' = Some traffic_area.
Proof.
  intros Hbs Hrun Hx He Hline Hrail.
  rewrite (proj1 (get_traffic_areas_as_polygons_exact _ _ _ _ _ _ _ _ _ _ _ _ _ _ _ _
                    Hbs Hrun) x e He).
  rewrite (bool_decide_eq_true_2 _ Hx).
  eexists. split; [reflexivity |].
  unfold call_effect.
  set (e1 := after_highways float_str local_var hdw cdw e).
  destruct (after_highways_shape float_str local_var hdw cdw e) as [Ht Hg]. fold e1 in Ht, Hg.
  unfold after_railways, is_railway_line, is_linestring, has_tag, railway_effect, railway_width.
  rewrite Ht, Hg. unfold is_linestring in Hline. rewrite Hline.
  destruct Hrail as [-> | ->]; simpl; split; reflexivity.
Qed.

(** X15: after a returning call, a pedestrian way of the input that is not a
    line with a railway tag is as it was, except that its space type is
    'walking area' if it is no crossing: no width is resolved for it. *)
Theorem pedestrian_ways_get_no_width els areas buildings (h h' : heap) g x e :
  (forall b, b ∈ buildings -> is_Some (h !! b)) ->
  get_traffic_areas_as_polygons float_str local_var els areas buildings hdw cdw
    tg tb rg rb pw bw h = (h', Ok g) ->
  x ∈ els -> h !! x = Some e ->
  is_pedestrian_way e = true -> is_railway_line e = false ->
  h' !! x = Some (if is_crossing e then e else with_space_type e walking_area) /\
  highway_polygon float_str local_var hdw cdw e = [].
Proof.
  intros Hbs Hrun Hx He Hp Hr. split.
  - rewrite (proj1 (get_traffic_areas_as_polygons_exact _ _ _ _ _ _ _ _ _ _ _ _ _ _ _ _
                      Hbs Hrun) x e He).
    rewrite (bool_decide_eq_true_2 _ Hx).
    unfold call_effect, after_highways.
    rewrite (is_pedestrian_way_is_highway e Hp).
    unfold after_railways.
    rewrite (is_railway_line_shape e _
               (conj (highway_effect_tags float_str local_var hdw cdw e)
                  (highway_effect_geom float_str local_var hdw cdw e))), Hr.
    unfold highway_effect. rewrite Hp. reflexivity.
  - unfold highway_polygon. rewrite Hp. reflexivity.
Qed.
End Consequences.

(** ** Calling twice *)

Section LoopGood.
Variable body : list loc -> loc -> M (list loc).
Variable good : OsmElement -> Prop.
Hypothesis body_good :
  forall acc y (h h' : heap) acc',
    body acc y h = (h', Ok acc') ->
    exists e, h !! y = Some e /\ good e /\
      (forall l0 c, l0 <> y -> h !! l0 = Some c -> h' !! l0 = Some c).

Lemma for_each_good l :
  forall acc (h h' : heap) r,
    for_each body acc l h = (h', Ok r) ->
    forall x e, x ∈ l -> h !! x = Some e -> good e.
Proof.
  induction l as [| y l IH]; intros acc h h' r Hrun x e Hx He; [inversion Hx |].
  simpl in Hrun. apply bind_ok in Hrun as (acc1 & h1 & Hb & Hrest).
  destruct (body_good _ _ _ _ _ Hb) as (ey & Hey & Hgood & Hothers).
  destruct (decide (x = y)) as [-> | Hne].
  - assert (e = ey) by congruence. subst e. exact Hgood.
  - apply elem_of_cons in Hx as [Hx | Hx]; [contradiction |].
    apply (IH _ _ _ _ Hrest x e Hx (Hothers x e Hne He)).
Qed.
End LoopGood.

Section Twice.
Context {py_round : PyRound}.
Variable float_str : string -> option Q.
Variable local_var : local_variables.
Variable hdw : option (dict (Q * Q)).
Variable cdw : option (dict (dict Q)).
Variables tg tb rg rb pw bw : Q.

Lemma highway_body_good acc y (h h' : heap) acc' :
  highway_body float_str local_var hdw cdw acc y h = (h', Ok acc') ->
  exists e, h !! y = Some e /\
    (negb (is_pedestrian_way e) && negb (is_irrelevant_highway e) && is_linestring e = true ->
     is_ok (resolve_width float_str local_var e hdw cdw) = true) /\
    (forall l0 c, l0 <> y -> h !! l0 = Some c -> h' !! l0 = Some c).
Proof.
  intros Hrun.
  destruct (highway_body_spec _ _ _ _ _ _ _ _ _ Hrun) as (e & He & _ & Hothers & _).
  exists e. split; [exact He |]. split; [| exact Hothers].
  rewrite (highway_body_run float_str local_var hdw cdw acc y h e He) in Hrun.
  destruct (is_pedestrian_way e); [discriminate |].
  destruct (is_irrelevant_highway e); [discriminate |].
  destruct (is_linestring e); [| discriminate].
  destruct (resolve_width float_str local_var e hdw cdw); [reflexivity | discriminate Hrun].
Qed.

(** In a returning call every width that was needed has been resolved. *)
Lemma returning_call_is_well_formed els areas buildings (h h' : heap) g :
  (forall b, b ∈ buildings -> is_Some (h !! b)) ->
  get_traffic_areas_as_polygons float_str local_var els areas buildings hdw cdw
    tg tb rg rb pw bw h = (h', Ok g) ->
  well_formed_input float_str local_var hdw cdw els buildings h.
Proof.
  intros Hbs Hrun. split; [| exact Hbs]. intros x Hx.
  unfold get_traffic_areas_as_polygons, get_traffic_areas in Hrun.
  apply bind_ok in Hrun as (tas & h2 & Hta & _).
  apply bind_ok in Hta as (hs & h1 & Hhw & _).
  unfold polygonize_highways in Hhw.
  apply bind_ok in Hhw as (r & h0 & Hf & Hloop).
  destruct (filter_elements_elems _ _ _ _ _ Hf) as [_ Hall].
  apply filter_elements_ok in Hf as [-> Hmem].
  destruct (Hall x Hx) as [e He]. exists e. split; [exact He |].
  intros Hneeds. unfold needs_road_width in Hneeds.
  apply andb_prop in Hneeds as [Hneeds Hline].
  apply andb_prop in Hneeds as [Hneeds Hirr].
  apply andb_prop in Hneeds as [Hhas Hped].
  change (for_each (highway_body float_str local_var hdw cdw) [] r h = (h1, Ok hs)) in Hloop.
  apply (for_each_good _ _ highway_body_good r _ _ _ _ Hloop x e).
  - apply Hmem. split; [exact Hx | eauto].
  - exact He.
  - rewrite Hped, Hirr, Hline. reflexivity.
Qed.

Lemma railway_effect_same e e' :
  tags e' = tags e ->
  railway_effect tg tb rg rb e' =
    match railway_width tg tb rg rb e with
    | Some w => with_space_type (with_width e' w) traffic_area
    | None =>
        if get_is (tags e !! "railway") "platform" then e'
        else with_space_type e' traffic_area
    end.
Proof.
  intros Ht. unfold railway_effect. rewrite (railway_width_same tg tb rg rb e e' Ht), Ht.
  reflexivity.
Qed.

Lemma call_effect_idem e :
  call_effect float_str local_var hdw cdw tg tb rg rb
    (call_effect float_str local_var hdw cdw tg tb rg rb e)
  = call_effect float_str local_var hdw cdw tg tb rg rb e.
Proof.
  pose proof (call_effect_shape float_str local_var hdw cdw tg tb rg rb e) as Hs.
  set (c := call_effect float_str local_var hdw cdw tg tb rg rb e) in *.
  unfold call_effect at 1.
  pose proof (after_highways_shape float_str local_var hdw cdw c) as Hs1.
  unfold after_railways.
  rewrite (is_railway_line_shape e _ (same_shape_trans _ _ _ Hs Hs1)).
  rewrite (railway_effect_same e _
             (eq_trans (proj1 Hs1) (proj1 Hs))).
  unfold after_highways.
  rewrite (is_highway_shape e c Hs).
  rewrite (highway_effect_same float_str local_var hdw cdw e c (proj1 Hs) (proj2 Hs)).
  subst c. clear Hs Hs1.
  unfold call_effect, after_railways.
  pose proof (after_highways_shape float_str local_var hdw cdw e) as Hs0.
  rewrite (is_railway_line_shape e _ Hs0).
  rewrite (railway_effect_same e _ (proj1 Hs0)).
  unfold after_highways, highway_effect.
  destruct (is_highway e), (is_railway_line e), (is_pedestrian_way e), (is_crossing e),
    (is_irrelevant_highway e), (is_linestring e),
    (resolve_width float_str local_var e hdw cdw), (railway_width tg tb rg rb e),
    (get_is (tags e !! "railway") "platform");
    reflexivity.
Qed.

Lemma traffic_area_geometry_shape es es' bs bs' areas :
  Forall2 same_shape es es' -> Forall2 same_shape bs bs' ->
  traffic_area_geometry float_str local_var hdw cdw tg tb rg rb pw bw es' bs' areas
  = traffic_area_geometry float_str local_var hdw cdw tg tb rg rb pw bw es bs areas.
Proof.
  intros He Hb. unfold traffic_area_geometry, traffic_polygons, cropper_geometries_of.
  rewrite (flat_map_filter_shape is_highway (highway_polygon float_str local_var hdw cdw) _ _
             (fun e e' Hs => conj (is_highway_shape e e' Hs)
                               (highway_polygon_same float_str local_var hdw cdw e e'
                                  (proj1 Hs) (proj2 Hs))) He).
  rewrite (flat_map_filter_shape is_railway_line (railway_polygon tg tb rg rb) _ _
             (fun e e' Hs => conj (is_railway_line_shape e e' Hs)
                               (railway_polygon_same tg tb rg rb e e' (proj1 Hs) (proj2 Hs)))
             He).
  rewrite (map_filter_shape is_pedestrian_way
             (fun e => Buffer (geom e) (pw / 2) CapFlat JoinRound) _ _
             (fun e e' Hs => conj (is_pedestrian_way_tags e e' (proj1 Hs))
                               (f_equal (fun g => Buffer g (pw / 2) CapFlat JoinRound)
                                  (proj2 Hs)))
             He).
  rewrite (map_filter_shape is_platform geom _ _
             (fun e e' Hs => conj (is_platform_shape e e' Hs) (proj2 Hs)) He).
  rewrite (map_shape (fun e => Buffer (geom e) bw CapRound JoinMitre) _ _
             (fun e e' Hs => f_equal (fun g => Buffer g bw CapRound JoinMitre) (proj2 Hs))
             Hb).
  reflexivity.
Qed.

(** X16: a call that has returned can be repeated on the store it left: the
    second call returns too, returns the same geometry, and changes no
    object of that store (it only adds new polygons). *)
Theorem call_is_idempotent els areas buildings (h h' : heap) g :
  (forall b, b ∈ buildings -> is_Some (h !! b)) ->
  get_traffic_areas_as_polygons float_str local_var els areas buildings hdw cdw
    tg tb rg rb pw bw h = (h', Ok g) ->
  exists h'',
    get_traffic_areas_as_polygons float_str local_var els areas buildings hdw cdw
      tg tb rg rb pw bw h' = (h'', Ok g) /\
    forall x e', h' !! x = Some e' -> h'' !! x = Some e'.
Proof.
  intros Hbs Hrun.
  destruct (get_traffic_areas_as_polygons_exact _ _ _ _ _ _ _ _ _ _ _ _ _ _ _ _ Hbs Hrun)
    as (Heff & Hg & Hall).
  pose proof (returning_call_is_well_formed _ _ _ _ _ _ Hbs Hrun) as [Hwf _].
  assert (Hshape : forall x e, h !! x = Some e ->
            exists e', h' !! x = Some e' /\ same_shape e e').
  { intros x e He. eexists. split; [apply (Heff x e He) |].
    destruct (bool_decide (x ∈ els)); [apply call_effect_shape | split; reflexivity]. }
  assert (Hbs' : forall b, b ∈ buildings -> is_Some (h' !! b)).
  { intros b Hb. destruct (Hbs b Hb) as [e He].
    destruct (Hshape b e He) as (e' & He' & _). eauto. }
  assert (Hwf' : well_formed_input float_str local_var hdw cdw els buildings h').
  { split; [| exact Hbs']. intros x Hx.
    destruct (Hwf x Hx) as (e & He & Hres).
    destruct (Hshape x e He) as (e' & He' & Ht & Hgeo).
    exists e'. split; [exact He' |].
    rewrite (resolve_width_tags float_str local_var e e' hdw cdw Ht).
    assert (Hn : needs_road_width e' = needs_road_width e).
    { unfold needs_road_width, has_tag, is_irrelevant_highway, is_linestring.
      rewrite (is_pedestrian_way_tags e e' Ht), Ht, Hgeo. reflexivity. }
    rewrite Hn. exact Hres. }
  destruct (get_traffic_areas_as_polygons_returns float_str local_var
              els areas buildings hdw cdw tg tb rg rb pw bw h' Hwf') as (h'' & g2 & Hrun2).
  destruct (get_traffic_areas_as_polygons_exact _ _ _ _ _ _ _ _ _ _ _ _ _ _ _ _ Hbs' Hrun2)
    as (Heff2 & Hg2 & _).
  exists h''. split.
  - rewrite Hrun2. f_equal. f_equal. rewrite Hg2, Hg.
    apply traffic_area_geometry_shape; apply elems_shape; assumption.
  - intros x e' He'. rewrite (Heff2 x e' He').
    destruct (bool_decide_reflect (x ∈ els)) as [Hx | Hx]; [| reflexivity].
    destruct (Hall x Hx) as [e He].
    assert (e' = call_effect float_str local_var hdw cdw tg tb rg rb e).
    { pose proof (Heff x e He) as H. rewrite (bool_decide_eq_true_2 _ Hx) in H. congruence. }
    subst e'. rewrite call_effect_idem. reflexivity.
Qed.
End Twice.

(** ** Instances on the sample store *)

Lemma sample_buildings_allocated :
  forall b, b ∈ sample_buildings -> is_Some (sample_store !! b).
Proof.
  intros b Hb. apply list_elem_of_singleton in Hb. subst b. vm_compute. eauto.
Defined.

(** X7, witness: the residential road after the highway pass. *)
Lemma highway_pass_effect_witness :
  fst sample_highway_pass !! 1%positive
  = Some (if bool_decide (1%positive ∈ sample_elements) && is_highway residential_road
          then highway_effect float_decimal default_local_var None None residential_road
          else residential_road).
Proof.
  apply (highway_pass_effect (py_round := py_round1)
      float_decimal default_local_var sample_elements None None
           sample_store (fst sample_highway_pass) (value_or [] (snd sample_highway_pass))).
  - vm_compute. reflexivity.
  - vm_compute. reflexivity.
Defined.


(** X9, witness: the railway pass on the sample store. *)
Lemma railway_pass_effect_witness :
  (forall x e, sample_store !! x = Some e ->
     fst sample_railway_pass !! x
     = Some (if bool_decide (x ∈ sample_elements) && is_railway_line e
             then railway_effect default_tram_gauge default_tram_buffer
                    default_train_gauge default_train_buffer e
             else e)) /\
  geoms_at (fst sample_railway_pass) (value_or [] (snd sample_railway_pass))
    (flat_map (railway_polygon (py_round := py_round1) default_tram_gauge default_tram_buffer
                 default_train_gauge default_train_buffer)
       (List.filter is_railway_line (elems sample_store sample_elements))) /\
  (forall p, p ∈ value_or [] (snd sample_railway_pass) -> sample_store !! p = None).
Proof.
  apply (railway_pass_effect (py_round := py_round1) default_tram_gauge default_tram_buffer
           default_train_gauge default_train_buffer sample_elements
           sample_store (fst sample_railway_pass) (value_or [] (snd sample_railway_pass))).
  vm_compute. reflexivity.
Defined.

(** X10, witness: the cropper geometries of the sample store. *)
Lemma cropper_collector_is_exact_witness :
  (forall x e, sample_store !! x = Some e -> fst sample_croppers !! x = Some e) /\
  value_or [] (snd sample_croppers)
  = map (fun e => Buffer (geom e) (default_pedestrian_way_default_width / 2) CapFlat JoinRound)
      (List.filter is_pedestrian_way (elems sample_store sample_elements))
    ++ map (fun e => Buffer (geom e) default_non_traffic_space_around_buildings_default_width
                       CapRound JoinMitre)
         (elems sample_store sample_buildings)
    ++ map geom (List.filter is_platform (elems sample_store sample_elements))
    ++ [].
Proof.
  apply (cropper_collector_is_exact sample_elements [] sample_buildings
           default_pedestrian_way_default_width
           default_non_traffic_space_around_buildings_default_width
           sample_store (fst sample_croppers) (value_or [] (snd sample_croppers))
           sample_buildings_allocated).
  vm_compute. reflexivity.
Defined.

Lemma sample_call_returns :
  get_traffic_areas_as_polygons (py_round := py_round1)
      float_decimal default_local_var sample_elements []
    sample_buildings None None
    default_tram_gauge default_tram_buffer default_train_gauge default_train_buffer
    default_pedestrian_way_default_width
    default_non_traffic_space_around_buildings_default_width sample_store
  = (fst sample_call, Ok (value_or sample_point (snd sample_call))).
Proof. vm_compute. reflexivity. Defined.

(** X11, witness: the tram line after the call on the sample store. *)
Lemma call_effect_on_store_witness :
  fst sample_call !! 3%positive
  = Some (if bool_decide (3%positive ∈ sample_elements)
          then call_effect float_decimal default_local_var None None
                 default_tram_gauge default_tram_buffer default_train_gauge
                 default_train_buffer tram_line
          else tram_line) /\
  same_shape tram_line
    (call_effect float_decimal default_local_var None None
       default_tram_gauge default_tram_buffer default_train_gauge default_train_buffer
       tram_line) /\
  id (call_effect float_decimal default_local_var None None
        default_tram_gauge default_tram_buffer default_train_gauge default_train_buffer
        tram_line) = id tram_line /\
  access (call_effect float_decimal default_local_var None None
            default_tram_gauge default_tram_buffer default_train_gauge default_train_buffer
            tram_line) = access tram_line.
Proof.
  apply (call_effect_on_store (py_round := py_round1) float_decimal default_local_var None None
           default_tram_gauge default_tram_buffer default_train_gauge default_train_buffer
           default_pedestrian_way_default_width
           default_non_traffic_space_around_buildings_default_width
           sample_elements [] sample_buildings sample_store (fst sample_call)
           (value_or sample_point (snd sample_call)) 3%positive tram_line
           sample_buildings_allocated sample_call_returns).
  vm_compute. reflexivity.
Defined.


(** X13, witness: the building is not in the list of elements. *)
Lemma other_objects_are_untouched_witness :
  fst sample_call !! 4%positive = Some sample_building.
Proof.
  apply (other_objects_are_untouched (py_round := py_round1)
      float_decimal default_local_var None None
           default_tram_gauge default_tram_buffer default_train_gauge default_train_buffer
           default_pedestrian_way_default_width
           default_non_traffic_space_around_buildings_default_width
           sample_elements [] sample_buildings sample_store (fst sample_call)
           (value_or sample_point (snd sample_call)) 4%positive sample_building
           sample_buildings_allocated sample_call_returns).
  - vm_compute. reflexivity.
  - left. unfold sample_elements. intros H.
    apply elem_of_cons in H as [H | H]; [discriminate H |].
    apply elem_of_cons in H as [H | H]; [discriminate H |].
    apply elem_of_cons in H as [H | H]; [discriminate H |].
    inversion H.
Defined.

(** X14, witness: the tram line gets 1.435 + 0.5. *)
Lemma rail_lines_get_the_gauge_width_witness :
  exists e',
    fst sample_call !! 3%positive = Some e' /\
    width e' = Some (if get_is (tags tram_line !! "railway") "tram"
                     then default_tram_gauge + default_tram_buffer
                     else default_train_gauge + default_train_buffer)%Q /\
    space_type e' = Some traffic_area.
Proof.
  apply (rail_lines_get_the_gauge_width (py_round := py_round1)
      float_decimal default_local_var None None
           default_tram_gauge default_tram_buffer default_train_gauge default_train_buffer
           default_pedestrian_way_default_width
           default_non_traffic_space_around_buildings_default_width
           sample_elements [] sample_buildings sample_store (fst sample_call)
           (value_or sample_point (snd sample_call)) 3%positive tram_line
           sample_buildings_allocated sample_call_returns).
  - unfold sample_elements. set_solver.
  - vm_compute. reflexivity.
  - reflexivity.
  - left. vm_compute. reflexivity.
Defined.

(** X15, witness: the footway with a crossing tag is left as it was. *)
Lemma pedestrian_ways_get_no_width_witness :
  fst sample_call !! 2%positive
  = Some (if is_crossing footway_with_crossing_tag then footway_with_crossing_tag
          else with_space_type footway_with_crossing_tag walking_area) /\
  highway_polygon (py_round := py_round1)
      float_decimal default_local_var None None footway_with_crossing_tag = [].
Proof.
  apply (pedestrian_ways_get_no_width (py_round := py_round1)
      float_decimal default_local_var None None
           default_tram_gauge default_tram_buffer default_train_gauge default_train_buffer
           default_pedestrian_way_default_width
           default_non_traffic_space_around_buildings_default_width
           sample_elements [] sample_buildings sample_store (fst sample_call)
           (value_or sample_point (snd sample_call)) 2%positive footway_with_crossing_tag
           sample_buildings_allocated sample_call_returns).
  - unfold sample_elements. set_solver.
  - vm_compute. reflexivity.
  - vm_compute. reflexivity.
  - vm_compute. reflexivity.
Defined.

(** X16, witness: calling again on the store the sample call left. *)
Lemma call_is_idempotent_witness :
  exists h'',
    get_traffic_areas_as_polygons (py_round := py_round1)
        float_decimal default_local_var sample_elements []
      sample_buildings None None
      default_tram_gauge default_tram_buffer default_train_gauge default_train_buffer
      default_pedestrian_way_default_width
      default_non_traffic_space_around_buildings_default_width (fst sample_call)
    = (h'', Ok (value_or sample_point (snd sample_call))) /\
    forall x e', fst sample_call !! x = Some e' -> h'' !! x = Some e'.
Proof.
  apply (call_is_idempotent (py_round := py_round1) float_decimal default_local_var None None
           default_tram_gauge default_tram_buffer default_train_gauge default_train_buffer
           default_pedestrian_way_default_width
           default_non_traffic_space_around_buildings_default_width
           sample_elements [] sample_buildings sample_store (fst sample_call)
           (value_or sample_point (snd sample_call))
           sample_buildings_allocated sample_call_returns).
Defined.

(** ** Undefined space as a point set *)

Lemma covers_union prim buf (gs : list geometry) p :
  covers prim buf (UnaryUnion gs) p <-> exists g, g ∈ gs /\ covers prim buf g p.
Proof.
  simpl. induction gs as [| g gs IH].
  - split; [intros [] | intros (g & Hg & _); inversion Hg].
  - rewrite IH. split.
    + intros [H | (g' & Hg' & H)].
      * exists g. split; [apply list_elem_of_here | exact H].
      * exists g'. split; [apply list_elem_of_further, Hg' | exact H].
    + intros (g' & Hg' & H). apply elem_of_cons in Hg' as [-> | Hg']; [left; exact H |].
      right. exists g'. split; assumption.
Qed.

Lemma load_result (lists : dict (list item)) (bbox : BoundingBox) g :
  load lists bbox = Ok g ->
  g = Difference (geom_projected bbox) (UnaryUnion (map item_geom (members lists))) /\
  Forall (fun x => unionable x = true) (members lists).
Proof.
  unfold load, defined_space_geometries.
  rewrite (defined_space_geometries_from lists []). simpl.
  destruct (as_geometries (map handed_to_union (members lists))) as [gs | ex] eqn:E;
    simpl; [| discriminate].
  intros H. inversion H; subst g. rewrite (as_geometries_returns _ _ E).
  split; [reflexivity |].
  clear H. revert gs E. induction (members lists) as [| x l IH]; intros gs E; [constructor |].
  simpl in E. destruct x as [[| name] o | g0]; simpl in E; try discriminate E;
    destruct (as_geometries (map handed_to_union l)) as [gs' |] eqn:E'; simpl in E;
    try discriminate E; constructor; try reflexivity; apply (IH gs' eq_refl).
Qed.

(** X18: [load] returns exactly when every member of every list is a
    geometry or an object whose class is OsmElement itself; an instance of a
    subclass anywhere makes it raise. *)
Theorem load_returns_iff_members_unionable (lists : dict (list item)) (bbox : BoundingBox) :
  (exists g, load lists bbox = Ok g) <->
  Forall (fun x => unionable x = true) (members lists).
Proof.
  split.
  - intros [g Hg]. apply (load_result _ _ _ Hg).
  - intros Hall. unfold load, defined_space_geometries.
    rewrite (defined_space_geometries_from lists []). simpl.
    rewrite (as_geometries_unionable _ Hall). simpl. eexists. reflexivity.
Qed.

(** X19: the undefined space does not depend on the order of the lists in
    the mapping nor on the order of the members: if [load] returns for one
    mapping it returns for every mapping with the same members, with the
    same point set. *)
Theorem undefined_space_ignores_order (l1 l2 : dict (list item)) (bbox : BoundingBox) g1 :
  load l1 bbox = Ok g1 ->
  members l1 ≡ₚ members l2 ->
  exists g2, load l2 bbox = Ok g2 /\ forall prim buf, geom_equals prim buf g1 g2.
Proof.
  intros H1 Hperm. destruct (load_result _ _ _ H1) as [-> Hall].
  assert (Hall2 : Forall (fun x => unionable x = true) (members l2)).
  { rewrite <- Hperm. exact Hall. }
  exists (Difference (geom_projected bbox) (UnaryUnion (map item_geom (members l2)))).
  split.
  - unfold load, defined_space_geometries.
    rewrite (defined_space_geometries_from l2 []). simpl.
    rewrite (as_geometries_unionable _ Hall2). reflexivity.
  - intros prim buf p.
    change (covers prim buf (geom_projected bbox) p
            /\ ~ covers prim buf (UnaryUnion (map item_geom (members l1))) p
            <-> covers prim buf (geom_projected bbox) p
                /\ ~ covers prim buf (UnaryUnion (map item_geom (members l2))) p).
    rewrite !covers_union.
    assert (Hiff : forall g, g ∈ map item_geom (members l1) <-> g ∈ map item_geom (members l2)).
    { intros g. rewrite Hperm. reflexivity. }
    split; intros [Hb Hn]; (split; [exact Hb |]); intros (g & Hg & Hc); apply Hn;
      exists g; (split; [apply Hiff, Hg | exact Hc]).
Qed.

(** X19, witness: the sample mapping with its lists in another order. *)
Lemma undefined_space_ignores_order_witness :
  exists g2,
    load reordered_defined_space sample_bbox = Ok g2 /\
    forall prim buf,
      geom_equals prim buf (value_or sample_point (load sample_defined_space sample_bbox)) g2.
Proof.
  apply (undefined_space_ignores_order sample_defined_space reordered_defined_space sample_bbox).
  - reflexivity.
  - unfold members. simpl.
    apply (Permutation_trans (l' := [Instance ClassOsmElement sample_building;
                                     Instance ClassOsmElement residential_road;
                                     Geometry (Polygon [(5, 5); (6, 5); (6, 6)]%Q)])).
    + apply perm_swap.
    + apply Permutation_trans with
        (l' := [Instance ClassOsmElement sample_building;
                Geometry (Polygon [(5, 5); (6, 5); (6, 6)]%Q);
                Instance ClassOsmElement residential_road]).
      * apply perm_skip, perm_swap.
      * apply perm_swap.
Defined.

(** ** The export table *)

Section ExportFacts.
Variable transform : geometry -> geometry.
Variable is_polygon : OsmElement -> bool.
Variable is_multipolygon : OsmElement -> bool.

Lemma has_rows_add_row cols n r : has_rows cols n -> has_rows (add_row cols r) (S n).
Proof.
  unfold has_rows, add_row. simpl. rewrite !length_app. simpl.
  intros (H1 & H2 & H3 & H4 & H5). lia.
Qed.

Lemma export_each_rows (f : export_columns -> item -> option export_columns)
    (count : item -> bool) (l : list item) :
  (forall cols e cols' n, f cols e = Some cols' -> has_rows cols n ->
     has_rows cols' (if count e then S n else n)) ->
  forall cols cols' n,
    export_each f cols l = Some cols' -> has_rows cols n ->
    has_rows cols' (n + length (List.filter count l)).
Proof.
  intros Hf. induction l as [| e l IH]; intros cols cols' n Hrun Hn; simpl in *.
  - inversion Hrun; subst. rewrite Nat.add_0_r. exact Hn.
  - destruct (f cols e) as [cols1 |] eqn:He; [| discriminate Hrun].
    pose proof (Hf _ _ _ _ He Hn) as H1. specialize (IH _ _ _ Hrun H1).
    destruct (count e); simpl; [| exact IH].
    replace (n + S (length (List.filter count l))) with (S n + length (List.filter count l))
      by lia.
    exact IH.
Qed.

Lemma filter_all {A} (l : list A) : List.filter (fun _ => true) l = l.
Proof. induction l as [| x l IH]; simpl; [reflexivity | rewrite IH; reflexivity]. Qed.

Lemma export_list_rows cols cols' entry n :
  export_list transform is_polygon is_multipolygon cols entry = Some cols' ->
  has_rows cols n ->
  has_rows cols' (n + rows_of_list is_polygon is_multipolygon entry).
Proof.
  destruct entry as [name elements]. unfold export_list, rows_of_list.
  destruct (String.eqb name "dataset").
  { apply export_each_rows. intros c e c' m He Hm. destruct e as [cls o | g]; simpl in *.
    - destruct (is_polygon o || is_multipolygon o); inversion He; subst;
        [apply has_rows_add_row |]; exact Hm.
    - discriminate He. }
  destruct (String.eqb name "buildings").
  { intros Hrun Hn. rewrite <- (filter_all elements). revert Hrun Hn.
    apply (export_each_rows _ (fun _ => true)). intros c e c' m He Hm. destruct e as [cls o | g]; simpl in *;
      [| discriminate He]. inversion He; subst. apply has_rows_add_row, Hm. }
  destruct (String.eqb name "inaccessible_enclosed_areas").
  { intros Hrun Hn. rewrite <- (filter_all elements). revert Hrun Hn.
    apply (export_each_rows _ (fun _ => true)). intros c e c' m He Hm. destruct e as [cls o | g]; simpl in *;
      [discriminate He |]. inversion He; subst. apply has_rows_add_row, Hm. }
  destruct (String.eqb name "traffic_areas").
  { intros Hrun Hn. rewrite <- (filter_all elements). revert Hrun Hn.
    apply (export_each_rows _ (fun _ => true)). intros c e c' m He Hm. destruct e as [cls o | g]; simpl in *;
      [discriminate He |]. inversion He; subst. apply has_rows_add_row, Hm. }
  intros H Hn. inversion H; subst. rewrite Nat.add_0_r. exact Hn.
Qed.

Lemma export_lists_rows lists :
  forall cols cols' n,
    export_lists transform is_polygon is_multipolygon cols lists = Some cols' ->
    has_rows cols n ->
    has_rows cols'
      (n + list_sum (map (rows_of_list is_polygon is_multipolygon) lists)).
Proof.
  induction lists as [| entry lists IH]; intros cols cols' n Hrun Hn; simpl in *.
  - inversion Hrun; subst. rewrite Nat.add_0_r. exact Hn.
  - destruct (export_list transform is_polygon is_multipolygon cols entry) as [c1 |] eqn:He;
      [| discriminate Hrun].
    pose proof (export_list_rows _ _ _ _ He Hn) as H1.
    specialize (IH _ _ _ Hrun H1). rewrite Nat.add_assoc. exact IH.
Qed.

(** X20: when [write_info_to_dict] returns, its five columns have the same
    number of entries: one per polygon or multipolygon of 'dataset', one per
    member of 'buildings', of 'inaccessible_enclosed_areas' and of
    'traffic_areas', and one more for the undefined space. *)
Theorem export_columns_have_equal_length lists undefined cols :
  write_info_to_dict transform is_polygon is_multipolygon lists undefined = Some cols ->
  has_rows cols (S (list_sum (map (rows_of_list is_polygon is_multipolygon) lists))).
Proof.
  unfold write_info_to_dict.
  destruct (export_lists transform is_polygon is_multipolygon
              (mkExportColumns [] [] [] [] []) lists) as [c |] eqn:E; [| discriminate].
  intros H. inversion H; subst cols. apply has_rows_add_row.
  apply (export_lists_rows lists _ _ 0 E). repeat split.
Qed.

(** X21: when [write_info_to_dict] returns, the last entry of every column
    is the row of the undefined space: its projected geometry, access 'yes',
    space type 'undefined space', no id and no tags -- also when the mapping
    is empty. *)
Theorem export_ends_with_undefined_space lists undefined cols :
  write_info_to_dict transform is_polygon is_multipolygon lists undefined = Some cols ->
  last (geometries cols) = Some (transform undefined) /\
  last (access_types cols) = Some "yes" /\
  last (space_types cols) = Some (Some "undefined space") /\
  last (osmids cols) = Some None /\
  last (osmtags cols) = Some None.
Proof.
  unfold write_info_to_dict.
  destruct (export_lists transform is_polygon is_multipolygon
              (mkExportColumns [] [] [] [] []) lists) as [c |]; [| discriminate].
  intros H. inversion H; subst cols. unfold add_row. simpl.
  rewrite !last_snoc. repeat split.
Qed.

Lemma export_lists_ignores_other_names lists :
  forall cols,
    export_lists transform is_polygon is_multipolygon cols
      (List.filter (fun entry => exported_list_name (fst entry)) lists)
    = export_lists transform is_polygon is_multipolygon cols lists.
Proof.
  induction lists as [| [name elements] lists IH]; intros cols; [reflexivity |].
  simpl. unfold exported_list_name.
  destruct (String.eqb name "dataset") eqn:E1; simpl.
  { rewrite E1. destruct (export_each _ cols elements); [apply IH | reflexivity]. }
  destruct (String.eqb name "buildings") eqn:E2; simpl.
  { rewrite E1, E2. destruct (export_each _ cols elements); [apply IH | reflexivity]. }
  destruct (String.eqb name "inaccessible_enclosed_areas") eqn:E3; simpl.
  { rewrite E1, E2, E3. destruct (export_each _ cols elements); [apply IH | reflexivity]. }
  destruct (String.eqb name "traffic_areas") eqn:E4; simpl.
  { rewrite E1, E2, E3, E4. destruct (export_each _ cols elements); [apply IH | reflexivity]. }
  apply IH.
Qed.

(** X22: a list under any other name than 'dataset', 'buildings',
    'inaccessible_enclosed_areas' and 'traffic_areas' is ignored without
    notice, whatever it holds: the table is the one of the mapping without
    that list. *)
Theorem export_ignores_other_lists lists undefined :
  write_info_to_dict transform is_polygon is_multipolygon
    (List.filter (fun entry => exported_list_name (fst entry)) lists) undefined
  = write_info_to_dict transform is_polygon is_multipolygon lists undefined.
Proof.
  unfold write_info_to_dict. rewrite export_lists_ignores_other_names. reflexivity.
Qed.
End ExportFacts.

(** X20, witness: the sample mapping has one building and one traffic
    polygon, and its road is no area: three rows. *)
Lemma export_columns_have_equal_length_witness :
  has_rows
    (default (mkExportColumns [] [] [] [] [])
       (write_info_to_dict (fun g => g) sample_is_polygon (fun _ => false)
          sample_defined_space sample_point))
    (S (list_sum (map (rows_of_list sample_is_polygon (fun _ => false))
                    sample_defined_space))).
Proof.
  apply (export_columns_have_equal_length (fun g => g) sample_is_polygon (fun _ => false)
           sample_defined_space sample_point).
  vm_compute. reflexivity.
Defined.

(** X21, witness: the empty mapping. *)
Lemma export_ends_with_undefined_space_witness :
  last (geometries
          (default (mkExportColumns [] [] [] [] [])
             (write_info_to_dict (fun g => g) sample_is_polygon (fun _ => false)
                [] sample_point)))
  = Some sample_point /\
  last (access_types
          (default (mkExportColumns [] [] [] [] [])
             (write_info_to_dict (fun g => g) sample_is_polygon (fun _ => false)
                [] sample_point)))
  = Some "yes" /\
  last (space_types
          (default (mkExportColumns [] [] [] [] [])
             (write_info_to_dict (fun g => g) sample_is_polygon (fun _ => false)
                [] sample_point)))
  = Some (Some "undefined space") /\
  last (osmids
          (default (mkExportColumns [] [] [] [] [])
             (write_info_to_dict (fun g => g) sample_is_polygon (fun _ => false)
                [] sample_point)))
  = Some None /\
  last (osmtags
          (default (mkExportColumns [] [] [] [] [])
             (write_info_to_dict (fun g => g) sample_is_polygon (fun _ => false)
                [] sample_point)))
  = Some None.
Proof.
  apply (export_ends_with_undefined_space (fun g => g) sample_is_polygon (fun _ => false)
           [] sample_point).
  reflexivity.
Defined.

(** ** Cropping element by element *)

Lemma with_geom_same e : with_geom e (geom e) = e.
Proof. destruct e. reflexivity. Qed.

Lemma with_geom_twice e g g' : with_geom (with_geom e g) g' = with_geom e g'.
Proof. reflexivity. Qed.

Section CropFacts.
Variable intersects : geometry -> geometry -> bool.

(** The inner loop: the copy ends with the cropped geometry. *)
Lemma crop_inner_loop croppers :
  forall (h : heap) c e,
    h !! c = Some e ->
    for_each
      (fun (_ : unit) cropper =>
         do o <- read c;
         if intersects (geom o) cropper then
           modify c (fun o => with_geom o (difference (geom o) cropper))
         else ret tt)
      tt croppers h
    = (<[c := with_geom e (cropped intersects croppers (geom e))]> h, Ok tt).
Proof.
  induction croppers as [| cr croppers IH]; intros h c e He; simpl.
  - rewrite with_geom_same, (insert_id h c e He). reflexivity.
  - assert (Hstep :
              (do o <- read c;
               if intersects (geom o) cr then
                 modify c (fun o => with_geom o (difference (geom o) cr))
               else ret tt) h
              = (<[c := with_geom e (if intersects (geom e) cr
                                      then Difference (geom e) cr else geom e)]> h, Ok tt)).
    { rewrite (bind_eq _ _ _ _ _ (read_eq _ _ _ He)).
      destruct (intersects (geom e) cr).
      - apply (modify_eq c (fun o => with_geom o (difference (geom o) cr)) h e He).
      - rewrite with_geom_same, (insert_id h c e He). reflexivity. }
    rewrite (bind_eq _ _ _ _ _ Hstep).
    rewrite (IH _ c _ (lookup_insert_eq h c _)).
    rewrite insert_insert_eq. reflexivity.
Qed.

Lemma crop_body_spec croppers acc y (h h' : heap) acc' :
  (do c <- deepcopy y;
   exec for_each
          (fun (_ : unit) cropper =>
             do o <- read c;
             if intersects (geom o) cropper then
               modify c (fun o => with_geom o (difference (geom o) cropper))
             else ret tt)
          tt croppers;
   ret (acc ++ [c])) h = (h', Ok acc') ->
  exists e, h !! y = Some e /\ h' !! y = Some e /\
    (forall l0 c, l0 <> y -> h !! l0 = Some c -> h' !! l0 = Some c) /\
    exists new, acc' = acc ++ new /\
      geoms_at h' new [cropped intersects croppers (geom e)] /\
      (forall p, p ∈ new -> h !! p = None).
Proof.
  intros Hrun. destruct (h !! y) as [e |] eqn:He.
  - exists e. split; [reflexivity |].
    pose proof (fresh_loc_unused h) as Hf.
    assert (Hne : fresh (dom h) <> y) by congruence.
    rewrite (bind_eq _ _ _ _ _ (deepcopy_eq _ _ _ He)) in Hrun.
    rewrite (bind_eq _ _ _ _ _
               (crop_inner_loop croppers _ (fresh (dom h)) e (lookup_insert_eq h _ e)))
      in Hrun.
    rewrite insert_insert_eq in Hrun. inversion Hrun; subst h' acc'. clear Hrun.
    split; [rewrite lookup_insert_ne by exact Hne; exact He |]. split.
    + intros l0 c _ Hc. rewrite lookup_insert_ne by congruence. exact Hc.
    + exists [fresh (dom h)]. split; [reflexivity |]. split.
      * constructor; [| constructor]. eexists. split; [apply lookup_insert_eq | reflexivity].
      * intros p Hp. apply list_elem_of_singleton in Hp. subst p. exact Hf.
  - unfold bind, deepcopy in Hrun. rewrite He in Hrun. discriminate Hrun.
Qed.

Lemma crop_traffic_areas_exact l croppers (h h' : heap) r :
  (forall x, x ∈ l -> is_Some (h !! x)) ->
  crop_traffic_areas intersects l croppers h = (h', Ok r) ->
  (forall x e, h !! x = Some e -> h' !! x = Some e) /\
  geoms_at h' r (map (fun e => cropped intersects croppers (geom e)) (elems h l)) /\
  (forall p, p ∈ r -> h !! p = None).
Proof.
  intros Hall Hrun. unfold crop_traffic_areas in Hrun.
  destruct (for_each_effect _ (fun e => e)
              (fun e => [cropped intersects croppers (geom e)])
              (fun e => eq_refl) (fun e => eq_refl) (fun e => eq_refl)
              (crop_body_spec croppers) l [] h h' r Hall Hrun)
    as (Heff & new & -> & Hg & Hfresh).
  split; [| split].
  - intros x e He. rewrite (Heff x e He). destruct (bool_decide (x ∈ l)); reflexivity.
  - rewrite flat_map_singleton in Hg. exact Hg.
  - exact Hfresh.
Qed.

(** X23: when [crop_traffic_areas] returns, it has changed no object of the
    store, and it returns one new object per traffic area, in order, whose
    geometry is the area's geometry from which every cropper that intersects
    what is left of it was subtracted, in the order of the croppers. *)
Theorem crop_traffic_areas_copies_and_crops l croppers (h h' : heap) r :
  (forall x, x ∈ l -> is_Some (h !! x)) ->
  crop_traffic_areas intersects l croppers h = (h', Ok r) ->
  (forall x e, h !! x = Some e -> h' !! x = Some e) /\
  geoms_at h' r (map (fun e => cropped intersects croppers (geom e)) (elems h l)) /\
  (forall p, p ∈ r -> h !! p = None).
Proof. apply crop_traffic_areas_exact. Qed.

(** Subtracting from point-set-equal geometries gives point-set-equal
    results, under a reading [sem] of the geometries in which [difference]
    respects point-set equality of its first operand. *)
Lemma fold_difference_sem (sem : geometry -> point -> Prop) croppers :
  (forall a a' b, (forall p, sem a p <-> sem a' p) ->
     forall p, sem (Difference a b) p <-> sem (Difference a' b) p) ->
  forall g g', (forall p, sem g p <-> sem g' p) ->
    forall p, sem (fold_left Difference croppers g) p
              <-> sem (fold_left Difference croppers g') p.
Proof.
  intros Hcongr. induction croppers as [| cr croppers IH]; intros g g' Heq; simpl.
  - exact Heq.
  - apply IH. apply Hcongr, Heq.
Qed.

Lemma cropped_sem (sem : geometry -> point -> Prop) croppers :
  (forall a a' b, (forall p, sem a p <-> sem a' p) ->
     forall p, sem (Difference a b) p <-> sem (Difference a' b) p) ->
  (forall a b, intersects a b = false -> forall p, sem (Difference a b) p <-> sem a p) ->
  forall g p,
    sem (cropped intersects croppers g) p <-> sem (fold_left Difference croppers g) p.
Proof.
  intros Hcongr Hskip. unfold cropped.
  induction croppers as [| cr croppers IH]; intros g p; simpl.
  - reflexivity.
  - destruct (intersects g cr) eqn:Hi.
    + apply IH.
    + rewrite IH. apply (fold_difference_sem sem croppers Hcongr).
      intros q. symmetry. apply (Hskip g cr Hi).
Qed.

(** X24: the test [intersects] of [crop_traffic_areas] is only a shortcut.
    Under any reading of the geometries as point sets in which subtracting a
    geometry that does not intersect changes nothing, and in which
    [difference] respects point-set equality of its first operand, every
    polygon returned is, as a point set, its traffic area minus all the
    croppers, one after the other. *)
Theorem skipped_croppers_change_nothing (sem : geometry -> point -> Prop)
    l croppers (h h' : heap) r :
  (forall a a' b, (forall p, sem a p <-> sem a' p) ->
     forall p, sem (Difference a b) p <-> sem (Difference a' b) p) ->
  (forall a b, intersects a b = false -> forall p, sem (Difference a b) p <-> sem a p) ->
  (forall x, x ∈ l -> is_Some (h !! x)) ->
  crop_traffic_areas intersects l croppers h = (h', Ok r) ->
  Forall2
    (fun p e =>
       exists c, h' !! p = Some c /\
         forall pt, sem (geom c) pt <-> sem (fold_left Difference croppers (geom e)) pt)
    r (elems h l).
Proof.
  intros Hcongr Hskip Hall Hrun.
  destruct (crop_traffic_areas_exact l croppers h h' r Hall Hrun) as (_ & Hg & _).
  unfold geoms_at in Hg. revert Hg. generalize (elems h l). clear -Hcongr Hskip.
  induction r as [| p r IH]; intros es Hg.
  - destruct es; [constructor | inversion Hg].
  - destruct es as [| e es]; [inversion Hg |]. simpl in Hg.
    apply Forall2_cons in Hg as [(c & Hc & Hgc) Hrest].
    constructor; [| apply IH, Hrest].
    exists c. split; [exact Hc |]. intros pt. rewrite Hgc.
    apply (cropped_sem sem croppers Hcongr Hskip).
Qed.
End CropFacts.

Lemma sample_polygon_allocated :
  forall x, x ∈ [1%positive] -> is_Some (sample_polygon_store !! x).
Proof. intros x Hx. apply list_elem_of_singleton in Hx. subst x. vm_compute. eauto. Defined.

(** X23, witness: one polygon and two croppers, with an [intersects] that
    always says yes. *)
Lemma crop_traffic_areas_copies_and_crops_witness :
  (forall x e, sample_polygon_store !! x = Some e ->
     fst (crop_traffic_areas (fun _ _ => true) [1%positive] sample_cropper_list
            sample_polygon_store) !! x = Some e) /\
  geoms_at
    (fst (crop_traffic_areas (fun _ _ => true) [1%positive] sample_cropper_list
            sample_polygon_store))
    (value_or [] (snd (crop_traffic_areas (fun _ _ => true) [1%positive] sample_cropper_list
                         sample_polygon_store)))
    (map (fun e => cropped (fun _ _ => true) sample_cropper_list (geom e))
       (elems sample_polygon_store [1%positive])) /\
  (forall p,
     p ∈ value_or [] (snd (crop_traffic_areas (fun _ _ => true) [1%positive]
                             sample_cropper_list sample_polygon_store)) ->
     sample_polygon_store !! p = None).
Proof.
  apply (crop_traffic_areas_copies_and_crops (fun _ _ => true) [1%positive]
           sample_cropper_list sample_polygon_store _ _ sample_polygon_allocated).
  vm_compute. reflexivity.
Defined.

(** X24, witness: the square is subtracted and the far triangle is
    skipped, under a reading in which the triangle holds no point. *)
Lemma skipped_croppers_change_nothing_witness :
  Forall2
    (fun p e =>
       exists c,
         fst (crop_traffic_areas sample_intersects [1%positive] sample_cropper_list
                sample_polygon_store) !! p = Some c /\
         forall pt,
           covers sample_prim (fun s _ _ _ => s) (geom c) pt <->
           covers sample_prim (fun s _ _ _ => s)
             (fold_left Difference sample_cropper_list (geom e)) pt)
    (value_or [] (snd (crop_traffic_areas sample_intersects [1%positive] sample_cropper_list
                         sample_polygon_store)))
    (elems sample_polygon_store [1%positive]).
Proof.
  apply (skipped_croppers_change_nothing sample_intersects
           (covers sample_prim (fun s _ _ _ => s)) [1%positive] sample_cropper_list
           sample_polygon_store _ _).
  - intros a a' b Heq p. simpl. rewrite (Heq p). reflexivity.
  - intros a b Hi p. simpl.
    destruct b as [? | ? | [| v1 [| v2 [| v3 [| v4 vs]]]] | ? ? ? ? | ? | ? ?];
      try discriminate Hi.
    simpl. tauto.
  - exact sample_polygon_allocated.
  - vm_compute. reflexivity.
Defined.

(** On the sample the shortcut is taken: the copy carries the square's
    difference only. *)
Example crop_sample_skips_the_far_triangle :
  geoms_at
    (fst (crop_traffic_areas sample_intersects [1%positive] sample_cropper_list
            sample_polygon_store))
    (value_or [] (snd (crop_traffic_areas sample_intersects [1%positive] sample_cropper_list
                         sample_polygon_store)))
    [Difference (Polygon [(0, 0); (10, 0); (10, 4); (0, 4)]%Q)
       (Polygon [(1, 1); (2, 1); (2, 2); (1, 2)]%Q)].
Proof.
  constructor; [| constructor]. eexists. split; [vm_compute; reflexivity | reflexivity].
Qed.
